(** * logzio-api-events: a shallow embedding of the polling engine

    The development follows three source files:
    - [src/auth_api.py]              ([Module AuthApi])
    - [src/apis/dockerhub/Dockerhub.py] ([Module DockerHub])
    - [src/apis_manager.py]          ([Module ApisManager])

    Library code the program calls (json, jsonpath_ng, dateutil, requests,
    the shipper) is either given a small executable model ([Module Py],
    [Module DateTime], [Module Urllib]) or taken as a parameter. *)

From Stdlib Require Import ZArith List String Ascii Bool Lia.
Import ListNotations.
Local Open Scope string_scope.
Local Open Scope Z_scope.

(* ===================================================================== *)
(** ** Python values, exceptions and results                              *)
(* ===================================================================== *)

Module Py.

(** What [json.loads] produces.  [JNull] is Python's [None]. *)
#[warnings="-register-all"]
Inductive json : Type :=
| JNull
| JBool (b : bool)
| JNum (n : Z)              (* integers; no property here reads a fraction *)
| JStr (s : string)
| JArr (items : list json)
| JObj (fields : list (string * json)).

(** The exception classes the three files raise, catch or let through,
    all of them subclasses of [Exception]: what is raised outside
    [Exception] ([KeyboardInterrupt], [SystemExit]) passes every [except]
    clause of the three files and is not represented. *)
Inductive exn : Type :=
| ApiError                 (* Api.ApiError *)
| HTTPError (status : Z)   (* requests.HTTPError, with e.response.status_code *)
| HTTPErrorNoResponse      (* requests.HTTPError whose e.response is None *)
| InvalidURL               (* requests.exceptions.InvalidURL *)
| InvalidSchema            (* requests.exceptions.InvalidSchema *)
| ConnectionError          (* any other requests.exceptions.RequestException *)
| JSONDecodeError
| TypeError
| ValueError               (* includes dateutil's ParserError *)
| OverflowError
| AttributeError.

(** Result of running a piece of code: a value, a raised exception, or
    the loop budget of the model ran out before the code returned. *)
Inductive result (A : Type) : Type :=
| Ok (a : A)
| Raise (e : exn)
| OutOfFuel.
Arguments Ok {A} a.
Arguments Raise {A} e.
Arguments OutOfFuel {A}.

Definition bind {A B} (r : result A) (k : A -> result B) : result B :=
  match r with
  | Ok a => k a
  | Raise e => Raise e
  | OutOfFuel => OutOfFuel
  end.

(** Python truthiness ([if x:], [x and y], [not x]). *)
Definition truthy (v : json) : bool :=
  match v with
  | JNull => false
  | JBool b => b
  | JNum n => negb (n =? 0)
  | JStr s => negb (String.eqb s "")
  | JArr l => match l with [] => false | _ => true end
  | JObj l => match l with [] => false | _ => true end
  end.

(** [len(v)]: defined on strings, lists and dicts, [TypeError] otherwise. *)
Definition py_len (v : json) : result Z :=
  match v with
  | JStr s => Ok (Z.of_nat (String.length s))
  | JArr l => Ok (Z.of_nat (List.length l))
  | JObj l => Ok (Z.of_nat (List.length l))
  | _ => Raise TypeError
  end.

Fixpoint chars (s : string) : list json :=
  match s with
  | EmptyString => []
  | String c r => JStr (String c EmptyString) :: chars r
  end.

(** The items [list.extend(v)] appends: the elements of a list, the keys
    of a dict, the characters of a string. *)
Definition py_iter (v : json) : list json :=
  match v with
  | JArr l => l
  | JObj l => map (fun kv => JStr (fst kv)) l
  | JStr s => chars s
  | _ => []
  end.

(** [v is None] *)
Definition is_None (v : json) : bool :=
  match v with
  | JNull => true
  | _ => false
  end.

(** [d.get(k)] on a dict. *)
Fixpoint dict_get (k : string) (fields : list (string * json)) : json :=
  match fields with
  | [] => JNull
  | (k', v) :: rest => if String.eqb k k' then v else dict_get k rest
  end.

End Py.
Export Py.

Declare Scope py_scope.
Delimit Scope py_scope with py.
Notation "x <- c ;; k" := (Py.bind c (fun x => k))
  (at level 61, c at next level, right associativity) : py_scope.

(* ===================================================================== *)
(** ** datetime, timedelta(seconds=1) and str(datetime)                   *)
(* ===================================================================== *)

Module DateTime.

(** [datetime.datetime]; [tzinfo] is the UTC offset in minutes of an aware
    value, [None] for a naive one. *)
Record datetime : Type := mkDatetime {
  year : Z; month : Z; day : Z;
  hour : Z; minute : Z; second : Z; microsecond : Z;
  tzinfo : option Z
}.

Definition is_leap (y : Z) : bool :=
  (y mod 4 =? 0) && (negb (y mod 100 =? 0) || (y mod 400 =? 0)).

Definition days_in_month (y m : Z) : Z :=
  if m =? 2 then (if is_leap y then 29 else 28)
  else if (m =? 4) || (m =? 6) || (m =? 9) || (m =? 11) then 30
  else 31.

Definition valid_tz (tz : option Z) : bool :=
  match tz with
  | None => true
  | Some off => (-1440 <? off) && (off <? 1440)
  end.

(** The range checks of the [datetime] constructor. *)
Definition valid (d : datetime) : bool :=
  (1 <=? year d) && (year d <=? 9999) &&
  (1 <=? month d) && (month d <=? 12) &&
  (1 <=? day d) && (day d <=? days_in_month (year d) (month d)) &&
  (0 <=? hour d) && (hour d <=? 23) &&
  (0 <=? minute d) && (minute d <=? 59) &&
  (0 <=? second d) && (second d <=? 59) &&
  (0 <=? microsecond d) && (microsecond d <=? 999999) &&
  valid_tz (tzinfo d).

(** [d + timedelta(seconds=1)]: wall-clock arithmetic, [tzinfo] kept,
    [OverflowError] past 9999-12-31 23:59:59. *)
Definition add_second (d : datetime) : result datetime :=
  let mk y mo da h mi s := mkDatetime y mo da h mi s (microsecond d) (tzinfo d) in
  if second d <? 59 then
    Ok (mk (year d) (month d) (day d) (hour d) (minute d) (second d + 1))
  else if minute d <? 59 then
    Ok (mk (year d) (month d) (day d) (hour d) (minute d + 1) 0)
  else if hour d <? 23 then
    Ok (mk (year d) (month d) (day d) (hour d + 1) 0 0)
  else if day d <? days_in_month (year d) (month d) then
    Ok (mk (year d) (month d) (day d + 1) 0 0 0)
  else if month d <? 12 then
    Ok (mk (year d) (month d + 1) 1 0 0 0)
  else if year d <? 9999 then
    Ok (mk (year d + 1) 1 1 0 0 0)
  else Raise OverflowError.

(** Proleptic Gregorian ordinal, as [datetime.toordinal]. *)
Definition days_before_year (y : Z) : Z :=
  let p := y - 1 in p * 365 + p / 4 - p / 100 + p / 400.

Fixpoint days_before_month_aux (y : Z) (m : nat) : Z :=
  match m with
  | O => 0
  | S m' => days_before_month_aux y m' + days_in_month y (Z.of_nat m)
  end.

Definition days_before_month (y m : Z) : Z :=
  days_before_month_aux y (Z.to_nat (m - 1)).

Definition toordinal (d : datetime) : Z :=
  days_before_year (year d) + days_before_month (year d) (month d) + day d.

(** Microseconds on the UTC time line (offset subtracted). *)
Definition instant (d : datetime) (off : Z) : Z :=
  ((((toordinal d * 24 + hour d) * 60 + minute d - off) * 60) + second d)
    * 1000000 + microsecond d.

(** [a < b]: naive with naive, aware with aware; mixing raises. *)
Definition lt (a b : datetime) : result bool :=
  match tzinfo a, tzinfo b with
  | None, None => Ok (instant a 0 <? instant b 0)
  | Some oa, Some ob => Ok (instant a oa <? instant b ob)
  | _, _ => Raise TypeError
  end.

(** Zero-padded decimal of width [w], most significant digit first. *)
Definition digit (n : Z) : ascii := ascii_of_nat (48 + Z.to_nat n).

Fixpoint pad (w : nat) (n : Z) : string :=
  match w with
  | O => EmptyString
  | S w' => String (digit (n / 10 ^ Z.of_nat w')) (pad w' (n mod 10 ^ Z.of_nat w'))
  end.

Definition fmt_tz (tz : option Z) : string :=
  match tz with
  | None => ""
  | Some off =>
      (if off <? 0 then "-" else "+") ++
      pad 2 (Z.abs off / 60) ++ ":" ++ pad 2 (Z.abs off mod 60)
  end.

Definition fmt_time (d : datetime) : string :=
  pad 2 (hour d) ++ ":" ++ pad 2 (minute d) ++ ":" ++ pad 2 (second d) ++
  (if microsecond d =? 0 then "" else "." ++ pad 6 (microsecond d)) ++
  fmt_tz (tzinfo d).

Definition fmt_date (d : datetime) : string :=
  pad 4 (year d) ++ "-" ++ pad 2 (month d) ++ "-" ++ pad 2 (day d).

(** [d.isoformat(sep)] *)
Definition isoformat (sep : ascii) (d : datetime) : string :=
  fmt_date d ++ String sep (fmt_time d).

(** [str(d)] is [d.isoformat(sep=' ')]. *)
Definition str (d : datetime) : string := isoformat " "%char d.

(** Reading a timestamp back: the inverse of [isoformat] with either
    separator. *)
Definition digit_val (c : ascii) : option Z :=
  let n := Z.of_nat (nat_of_ascii c) in
  if (48 <=? n) && (n <=? 57) then Some (n - 48) else None.

Fixpoint read_digits (w : nat) (acc : Z) (s : string) : option (Z * string) :=
  match w with
  | O => Some (acc, s)
  | S w' =>
      match s with
      | String c r =>
          match digit_val c with
          | Some v => read_digits w' (10 * acc + v) r
          | None => None
          end
      | EmptyString => None
      end
  end.

Definition expect (c : ascii) (s : string) : option string :=
  match s with
  | String c' r => if Ascii.eqb c c' then Some r else None
  | EmptyString => None
  end.

Definition read_fraction (s : string) : option (Z * string) :=
  match s with
  | String "."%char r => read_digits 6 0 r
  | _ => Some (0, s)
  end.

Definition read_offset (sign : Z) (s : string) : option (option Z) :=
  match read_digits 2 0 s with
  | Some (hh, s1) =>
      match expect ":"%char s1 with
      | Some s2 =>
          match read_digits 2 0 s2 with
          | Some (mm, EmptyString) => Some (Some (sign * (hh * 60 + mm)))
          | _ => None
          end
      | None => None
      end
  | None => None
  end.

Definition read_tz (s : string) : option (option Z) :=
  match s with
  | EmptyString => Some None
  | String "+"%char r => read_offset 1 r
  | String "-"%char r => read_offset (-1) r
  | _ => None
  end.

Definition read_sep (s : string) : option string :=
  match s with
  | String c r => if Ascii.eqb c " "%char || Ascii.eqb c "T"%char then Some r else None
  | EmptyString => None
  end.

Definition opt_bind {A B} (o : option A) (k : A -> option B) : option B :=
  match o with Some a => k a | None => None end.

Definition parse_iso (s : string) : option datetime :=
  opt_bind (read_digits 4 0 s) (fun '(y, s) =>
  opt_bind (expect "-"%char s) (fun s =>
  opt_bind (read_digits 2 0 s) (fun '(mo, s) =>
  opt_bind (expect "-"%char s) (fun s =>
  opt_bind (read_digits 2 0 s) (fun '(da, s) =>
  opt_bind (read_sep s) (fun s =>
  opt_bind (read_digits 2 0 s) (fun '(h, s) =>
  opt_bind (expect ":"%char s) (fun s =>
  opt_bind (read_digits 2 0 s) (fun '(mi, s) =>
  opt_bind (expect ":"%char s) (fun s =>
  opt_bind (read_digits 2 0 s) (fun '(se, s) =>
  opt_bind (read_fraction s) (fun '(us, s) =>
  opt_bind (read_tz s) (fun tz =>
  let d := mkDatetime y mo da h mi se us tz in
  if valid d then Some d else None))))))))))))).

End DateTime.

(* ===================================================================== *)
(** ** urllib.parse.quote / unquote and str.replace                       *)
(* ===================================================================== *)

Module Urllib.

Definition code (c : ascii) : Z := Z.of_nat (nat_of_ascii c).

(** Characters [quote] never escapes: letters, digits, [_.-~], and the
    default [safe='/']. *)
Definition is_safe (c : ascii) : bool :=
  let n := code c in
  ((65 <=? n) && (n <=? 90)) || ((97 <=? n) && (n <=? 122)) ||
  ((48 <=? n) && (n <=? 57)) ||
  (n =? 95) || (n =? 46) || (n =? 45) || (n =? 126) || (n =? 47).

Definition hex_digit (n : Z) : ascii :=
  if n <? 10 then ascii_of_nat (Z.to_nat (48 + n))
  else ascii_of_nat (Z.to_nat (55 + n)).

Definition hex_val (c : ascii) : option Z :=
  let n := code c in
  if (48 <=? n) && (n <=? 57) then Some (n - 48)
  else if (65 <=? n) && (n <=? 70) then Some (n - 55)
  else if (97 <=? n) && (n <=? 102) then Some (n - 87)
  else None.

Fixpoint quote (s : string) : string :=
  match s with
  | EmptyString => EmptyString
  | String c r =>
      if is_safe c then String c (quote r)
      else String "%"%char
             (String (hex_digit (code c / 16))
                (String (hex_digit (code c mod 16)) (quote r)))
  end.

Fixpoint unquote (s : string) : string :=
  match s with
  | EmptyString => EmptyString
  | String c r =>
      if Ascii.eqb c "%"%char then
        match r with
        | String h (String l r') =>
            match hex_val h, hex_val l with
            | Some a, Some b =>
                String (ascii_of_nat (Z.to_nat (16 * a + b))) (unquote r')
            | _, _ => String c (unquote r)
            end
        | _ => String c (unquote r)
        end
      else String c (unquote r)
  end.

(** [s.replace(' ', 'T')] *)
Fixpoint replace_space_T (s : string) : string :=
  match s with
  | EmptyString => EmptyString
  | String c r =>
      String (if Ascii.eqb c " "%char then "T"%char else c) (replace_space_T r)
  end.

End Urllib.

(* ===================================================================== *)
(** ** src/auth_api.py                                                    *)
(* ===================================================================== *)

Module ApiCredentials.
Record t : Type := mk { id : string; key : string }.
End ApiCredentials.

Module ApiFilter.
Record t : Type := mk { key : string; value : string }.
End ApiFilter.

Module ApiJsonPaths.
Record t : Type := mk { next_url : string; data : string; data_date : string }.
End ApiJsonPaths.

(** Library functions of the fetcher whose behaviour is left open:
    - [json_loads]: [json.loads(response.content)], [None] standing for
      [JSONDecodeError];
    - [json_dumps]: [json.dumps(event)];
    - [jsonpath_find p d]: the values of [parse(p).find(d)], in order;
    - [parser_parse]: [dateutil.parser.parse] on a [str], [None] standing
      for its [ParserError] (a [ValueError]). *)
Class Libs : Type := {
  json_loads : string -> option json;
  json_dumps : json -> string;
  jsonpath_find : string -> json -> list json;
  parser_parse : string -> option DateTime.datetime
}.

(** What [requests.get] can raise by itself (before [raise_for_status]). *)
Inductive transport_error : Type :=
| TInvalidURL
| TInvalidSchema
| TConnectionError.

Definition exn_of_transport (t : transport_error) : exn :=
  match t with
  | TInvalidURL => InvalidURL
  | TInvalidSchema => InvalidSchema
  | TConnectionError => ConnectionError
  end.

Inductive http_outcome : Type :=
| Response (status_code : Z) (content : string)
| Failed (t : transport_error).

(** The upstream API: the outcome of the [n]-th GET of a cycle (counted
    from 0) for the URL value requested. *)
Class Upstream : Type := {
  requests_get : nat -> json -> http_outcome
}.

Module AuthApi.

Record t : Type := mk {
  _name : string;
  _credentials : ApiCredentials.t;
  _start_date_name : string;
  _filters : list ApiFilter.t;
  _url : string;
  _json_paths : ApiJsonPaths.t;
  _current_data_last_date : option string
}.

Definition set_filters (self : t) (fs : list ApiFilter.t) : t :=
  mk (_name self) (_credentials self) (_start_date_name self) fs
     (_url self) (_json_paths self) (_current_data_last_date self).

Definition set_current_data_last_date (self : t) (v : option string) : t :=
  mk (_name self) (_credentials self) (_start_date_name self) (_filters self)
     (_url self) (_json_paths self) v.

(** [__init__] *)
Definition init (api_name : string) (api_credentials : ApiCredentials.t)
    (api_filters : list ApiFilter.t) (api_url api_start_date_name : string)
    (api_json_paths : ApiJsonPaths.t) : t :=
  mk api_name api_credentials api_start_date_name api_filters api_url
     api_json_paths None.

(** The URLs requested so far in the cycle, oldest first. *)
Definition World : Type := list json.

Section Fetcher.
Context {libs : Libs} {net : Upstream}.

(** [_build_api_url]: the [for] loop with its countdown. *)
Fixpoint _build_api_url_loop (filters : list ApiFilter.t) (api_url : string)
    (api_filters_num : Z) : string :=
  match filters with
  | [] => api_url
  | api_filter :: rest =>
      let api_url := api_url ++ ApiFilter.key api_filter ++ "=" ++ ApiFilter.value api_filter in
      let api_filters_num := api_filters_num - 1 in
      let api_url := if api_filters_num >? 0 then api_url ++ "&" else api_url in
      _build_api_url_loop rest api_url api_filters_num
  end.

Definition _build_api_url (self : t) : string :=
  _build_api_url_loop (_filters self) (_url self)
    (Z.of_nat (List.length (_filters self))).

(** [_get_json_path_value_from_data] *)
Definition _get_json_path_value_from_data (json_path : string) (data : json) : json :=
  match jsonpath_find json_path data with
  | [] => JNull
  | v :: _ => v
  end.

(** [_get_response_from_api]; returns [response.content].  The
    [logger.error] calls of its two [except] clauses go to the fetcher's
    own logger, which is not recorded: [errors_logged] of a cycle is the
    manager's logger only. *)
Definition _get_response_from_api (self : t) (url : json) (w : World)
    : result string * World :=
  let w' := (w ++ [url])%list in
  match requests_get (List.length w) url with
  | Failed e => (Raise (exn_of_transport e), w')
  | Response status_code content =>
      if (400 <=? status_code) && (status_code <? 600) then
        if (status_code =? 400) || (status_code =? 401)
        then (Raise ApiError, w')
        else (Raise (HTTPError status_code), w')
      else (Ok content, w')
  end.

(** [_get_data_from_api]; [events] is returned as the value found. *)
Definition _get_data_from_api (self : t) (url : json) (w : World)
    : result (json * json * Z) * World :=
  match _get_response_from_api self url w with
  | (Ok content, w') =>
      (match json_loads content with
       | Some json_data =>
           let next_url :=
             _get_json_path_value_from_data (ApiJsonPaths.next_url (_json_paths self)) json_data in
           let events :=
             _get_json_path_value_from_data (ApiJsonPaths.data (_json_paths self)) json_data in
           if is_None events then Raise ApiError
           else (events_num <- py_len events ;;
                 Ok (next_url, events, events_num))%py
       | None => Raise JSONDecodeError
       end, w')
  | (Raise e, w') => (Raise e, w')
  | (OutOfFuel, w') => (OutOfFuel, w')
  end.

(** The [while True] loop of [_get_total_data_from_api]; one unit of
    [fuel] per page request. *)
Fixpoint _get_total_data_loop (fuel : nat) (self : t) (api_url : json)
    (total_events : list json) (total_events_num : Z) (w : World)
    : result (list json * Z) * World :=
  match fuel with
  | O => (OutOfFuel, w)
  | S fuel' =>
      match _get_data_from_api self api_url w with
      | (Ok (next_url, events, events_num), w') =>
          let total_events := (total_events ++ py_iter events)%list in
          let total_events_num := total_events_num + events_num in
          if is_None next_url || (total_events_num >=? 2500)
          then (Ok (total_events, total_events_num), w')
          else _get_total_data_loop fuel' self next_url total_events total_events_num w'
      | (Raise e, w') => (Raise e, w')
      | (OutOfFuel, w') => (OutOfFuel, w')
      end
  end.

Definition _get_total_data_from_api (fuel : nat) (self : t) (w : World)
    : result (list json * Z) * World :=
  _get_total_data_loop fuel self (JStr (_build_api_url self)) [] 0 w.

(** [parser.parse(v)]: a [str] goes to the parser, anything else is a
    [TypeError]. *)
Definition parse_value (v : json) : result DateTime.datetime :=
  match v with
  | JStr s =>
      match parser_parse s with
      | Some d => Ok d
      | None => Raise ValueError
      end
  | _ => Raise TypeError
  end.

(** The body of the [for] loop of [_get_last_date_in_data]: the new
    value of [last_date]. *)
Definition last_date_step (self : t) (event : json)
    (last_date : option DateTime.datetime) : result (option DateTime.datetime) :=
  let event_date :=
    _get_json_path_value_from_data (ApiJsonPaths.data_date (_json_paths self)) event in
  if is_None event_date then Raise ApiError
  else
    (event_date_datetime <- parse_value event_date ;;
     match last_date with
     | None => Ok (Some event_date_datetime)
     | Some ld =>
         (later <- DateTime.lt ld event_date_datetime ;;
          if later then Ok (Some event_date_datetime) else Ok (Some ld))%py
     end)%py.

(** The [for] loop of [_get_last_date_in_data]. *)
Fixpoint _get_last_date_loop (self : t) (data : list json)
    (last_date : option DateTime.datetime) : result (option DateTime.datetime) :=
  match data with
  | [] => Ok last_date
  | event :: rest =>
      (last_date <- last_date_step self event last_date ;;
       _get_last_date_loop self rest last_date)%py
  end.

(** [str(last_date)] *)
Definition str_opt (last_date : option DateTime.datetime) : string :=
  match last_date with
  | None => "None"
  | Some d => DateTime.str d
  end.

Definition _get_last_date_in_data (self : t) (data : list json) : result string :=
  match _get_last_date_loop self data None with
  | Ok last_date => Ok (str_opt last_date)
  | Raise e => Raise e
  | OutOfFuel => OutOfFuel
  end.

(** [fetch_data] is a generator.  [GenCreated]: not started;
    [GenSuspended total pending]: suspended at the [yield], [pending] still
    to be yielded; [GenClosed]: finished or failed. *)
Inductive generator : Type :=
| GenCreated
| GenSuspended (total_events pending : list json)
| GenClosed.

Inductive gen_step : Type :=
| Yield (item : string) (g : generator)
| StopIteration
| Throw (e : exn)
| Starved.

(** Resuming at the [for event in total_events] loop head. *)
Definition gen_resume (self : t) (total_events pending : list json) : gen_step * t :=
  match pending with
  | event :: rest => (Yield (json_dumps event) (GenSuspended total_events rest), self)
  | [] =>
      match _get_last_date_in_data self total_events with
      | Ok s => (StopIteration, set_current_data_last_date self (Some s))
      | Raise e => (Throw e, self)
      | OutOfFuel => (Starved, self)
      end
  end.

(** One [next()] on the generator returned by [fetch_data]. *)
Definition gen_next (fuel : nat) (self : t) (g : generator) (w : World)
    : gen_step * t * World :=
  match g with
  | GenCreated =>
      match _get_total_data_from_api fuel self w with
      | (Ok (total_events, total_events_num), w') =>
          match total_events with
          | [] => (StopIteration, self, w')
          | _ => (gen_resume self total_events total_events, w')
          end
      | (Raise e, w') => (Throw e, self, w')
      | (OutOfFuel, w') => (Starved, self, w')
      end
  | GenSuspended total_events pending => (gen_resume self total_events pending, w)
  | GenClosed => (StopIteration, self, w)
  end.

(** [list(self.fetch_data())]: the items yielded, in order, and how the
    generator ended; at most [steps] calls of [next()]. *)
Fixpoint collect (steps fuel : nat) (self : t) (g : generator) (w : World)
    : list string * gen_step * t * World :=
  match steps with
  | O => ([], Starved, self, w)
  | S steps' =>
      match gen_next fuel self g w with
      | (Yield item g', self', w') =>
          let '(items, fin, self'', w'') := collect steps' fuel self' g' w' in
          (item :: items, fin, self'', w'')
      | (fin, self', w') => ([], fin, self', w')
      end
  end.

(** [_get_new_start_date] *)
Definition _get_new_start_date (self : t) : result string :=
  match _current_data_last_date self with
  | None => Raise TypeError
  | Some s =>
      match parser_parse s with
      | Some d =>
          match DateTime.add_second d with
          | Ok d' => Ok (Urllib.quote (Urllib.replace_space_T (DateTime.str d')))
          | Raise e => Raise e
          | OutOfFuel => OutOfFuel
          end
      | None => Raise ValueError
      end
  end.

(** The [for] loop of [update_start_date_filter]: [Some fs] when a filter
    was overwritten (the early [return]), [None] when the loop ran out. *)
Fixpoint overwrite_start_date (name new_start_date : string)
    (filters : list ApiFilter.t) : option (list ApiFilter.t) :=
  match filters with
  | [] => None
  | api_filter :: rest =>
      if negb (String.eqb (ApiFilter.key api_filter) name) then
        match overwrite_start_date name new_start_date rest with
        | Some rest' => Some (api_filter :: rest')
        | None => None
        end
      else Some (ApiFilter.mk (ApiFilter.key api_filter) new_start_date :: rest)
  end.

(** [update_start_date_filter] *)
Definition update_start_date_filter (self : t) : result t :=
  match _get_new_start_date self with
  | Ok new_start_date =>
      match overwrite_start_date (_start_date_name self) new_start_date (_filters self) with
      | Some fs => Ok (set_filters self fs)
      | None =>
          Ok (set_filters self
                (_filters self ++ [ApiFilter.mk (_start_date_name self) new_start_date])%list)
      end
  | Raise e => Raise e
  | OutOfFuel => OutOfFuel
  end.

(** [get_last_start_date] *)
Fixpoint get_last_start_date_loop (name : string) (filters : list ApiFilter.t)
    : option string :=
  match filters with
  | [] => None
  | api_filter :: rest =>
      if negb (String.eqb (ApiFilter.key api_filter) name)
      then get_last_start_date_loop name rest
      else Some (ApiFilter.value api_filter)
  end.

Definition get_last_start_date (self : t) : option string :=
  get_last_start_date_loop (_start_date_name self) (_filters self).

Definition get_api_name (self : t) : string := _name self.

End Fetcher.
End AuthApi.

(* ===================================================================== *)
(** ** src/apis/dockerhub/Dockerhub.py                                    *)
(* ===================================================================== *)

(** What [requests.post] to the login endpoint gives: a transport failure,
    or a response with its status and, when [response.json()] can decode
    it, the decoded body. *)
Inductive post_outcome : Type :=
| PostFailed
| PostResponse (status_code : Z) (body : option json).

(** The issuing endpoint and the clock: the outcome of the [n]-th POST and
    the [n]-th reading of [datetime.now(UTC)] (microseconds), from 0. *)
Class Issuer : Type := {
  requests_post : nat -> string -> string -> post_outcome;
  datetime_now : nat -> Z
}.

Module DockerHub.

Record t : Type := mk {
  dockerhub_user : string;
  dockerhub_token : string;
  refresh_token_interval : Z;
  _jwt_token : json;
  _token_expiry : option Z
}.

(** What a call has done to the outside so far. *)
Record World : Type := mkWorld {
  posts : nat;
  clock_reads : nat;
  errors_logged : list string
}.

Definition post_made (w : World) : World :=
  mkWorld (S (posts w)) (clock_reads w) (errors_logged w).
Definition clock_read (w : World) : World :=
  mkWorld (posts w) (S (clock_reads w)) (errors_logged w).
Definition error_logged (msg : string) (w : World) : World :=
  mkWorld (posts w) (clock_reads w) (errors_logged w ++ [msg])%list.

Definition failure_msg : string := "Failed to get JWT token".

(** [timedelta(minutes=n)] in microseconds. *)
Definition minutes (n : Z) : Z := n * 60 * 1000000.

(** [datetime.min] and [datetime.max] in microseconds since the epoch:
    0001-01-01 00:00:00 and 9999-12-31 23:59:59.999999. *)
Definition datetime_min : Z := -62135596800 * 1000000.
Definition datetime_max : Z := 253402300800 * 1000000 - 1.

(** Whether [now + timedelta(...)] is a [datetime]: outside the range the
    sum (or the [timedelta] itself) raises [OverflowError]. *)
Definition representable (t : Z) : bool :=
  (datetime_min <=? t) && (t <=? datetime_max).

Section TokenProvider.
Context {issuer : Issuer}.

(** The part of [_get_jwt_token] after the cache check: the POST and
    what follows it. *)
Definition refresh (self : t) (w : World) : result json * t * World :=
  let outcome := requests_post (posts w) (dockerhub_user self) (dockerhub_token self) in
  let w := post_made w in
  match outcome with
  | PostFailed => (Ok JNull, self, error_logged failure_msg w)
  | PostResponse status_code body =>
      if (400 <=? status_code) && (status_code <? 600) then
        (Ok JNull, self, error_logged failure_msg w)
      else
        match body with
        | None => (Ok JNull, self, error_logged failure_msg w)
        | Some (JObj token_response) =>
            let jwt := dict_get "token" token_response in
            let now := datetime_now (clock_reads w) in
            let w := clock_read w in
            let expiry := now + minutes (refresh_token_interval self) in
            if representable expiry then
              (Ok jwt,
               mk (dockerhub_user self) (dockerhub_token self)
                  (refresh_token_interval self) jwt (Some expiry), w)
            else
              (* [self._jwt_token] is assigned before the sum raises *)
              (Raise OverflowError,
               mk (dockerhub_user self) (dockerhub_token self)
                  (refresh_token_interval self) jwt (_token_expiry self), w)
        | Some _ => (Raise AttributeError, self, w)
        end
  end.

(** [_get_jwt_token] *)
Definition _get_jwt_token (self : t) (w : World) : result json * t * World :=
  if truthy (_jwt_token self) then
    let now := datetime_now (clock_reads w) in
    let w := clock_read w in
    match _token_expiry self with
    | None => (Raise TypeError, self, w)
    | Some expiry =>
        if now <? expiry then (Ok (_jwt_token self), self, w)
        else refresh self w
    end
  else refresh self w.

End TokenProvider.
End DockerHub.

(* ===================================================================== *)
(** ** src/apis_manager.py                                                *)
(* ===================================================================== *)

(** The shipper ([LogzioShipper], not part of the files above) as the
    manager uses it: two operations on a state of its own, each of which
    may raise. *)
Class LogzioShipper : Type := {
  shipper_state : Type;
  add_log_to_send : shipper_state -> string -> shipper_state * option exn;
  send_to_logzio : shipper_state -> shipper_state * option exn
}.

Module ApisManager.

Section Manager.
Context {libs : Libs} {net : Upstream} {shipper : LogzioShipper}.

(** How the [try] block of [__send_data_to_logzio] ended. *)
Inductive try_end : Type :=
| Completed
| Raised (e : exn)
| TryStarved.

Record try_state : Type := mkTry {
  try_api : AuthApi.t;
  try_world : AuthApi.World;
  try_shipper : shipper_state;
  is_data_exist : bool
}.

(** [for data in api.fetch_data(): ...]; [steps] bounds the number of
    [next()] calls, [fuel] the page requests of the first one. *)
Fixpoint for_data (steps fuel : nat) (g : AuthApi.generator) (st : try_state)
    : try_end * try_state :=
  match steps with
  | O => (TryStarved, st)
  | S steps' =>
      match AuthApi.gen_next fuel (try_api st) g (try_world st) with
      | (AuthApi.Yield data g', api', w') =>
          match add_log_to_send (try_shipper st) data with
          | (s', Some e) => (Raised e, mkTry api' w' s' true)
          | (s', None) => for_data steps' fuel g' (mkTry api' w' s' true)
          end
      | (AuthApi.StopIteration, api', w') =>
          (Completed, mkTry api' w' (try_shipper st) (is_data_exist st))
      | (AuthApi.Throw e, api', w') =>
          (Raised e, mkTry api' w' (try_shipper st) (is_data_exist st))
      | (AuthApi.Starved, api', w') =>
          (TryStarved, mkTry api' w' (try_shipper st) (is_data_exist st))
      end
  end.

(** The whole [try] block: the loop, then [send_to_logzio()]. *)
Definition try_block (steps fuel : nat) (api : AuthApi.t) (w : AuthApi.World)
    (s : shipper_state) : try_end * try_state :=
  match for_data steps fuel AuthApi.GenCreated (mkTry api w s false) with
  | (Completed, st) =>
      match send_to_logzio (try_shipper st) with
      | (s', Some e) => (Raised e, mkTry (try_api st) (try_world st) s' (is_data_exist st))
      | (s', None) => (Completed, mkTry (try_api st) (try_world st) s' (is_data_exist st))
      end
  | other => other
  end.

(** What one run of [__send_data_to_logzio] leaves behind. *)
Record cycle : Type := mkCycle {
  api_after : AuthApi.t;
  world_after : AuthApi.World;
  shipper_after : shipper_state;
  sigterm_sent : bool;           (* os.kill(os.getpid(), signal.SIGTERM) *)
  errors_logged : list string;   (* logger.error calls on the manager's own logger *)
  update_called : bool;          (* api.update_start_date_filter() was called *)
  cycle_end : result unit        (* returned, or an exception escaped *)
}.

Definition failed_msg : string := "Failed to send data to Logz.io...".

(** The tail of the function, after the [try] statement. *)
Definition after_try (st : try_state) (logged : list string)
    (is_data_sent_successfully : bool) : cycle :=
  if is_data_exist st && is_data_sent_successfully then
    match AuthApi.update_start_date_filter (try_api st) with
    | Ok api' =>
        mkCycle api' (try_world st) (try_shipper st) false logged true (Ok tt)
    | Raise e =>
        mkCycle (try_api st) (try_world st) (try_shipper st) false logged true (Raise e)
    | OutOfFuel =>
        mkCycle (try_api st) (try_world st) (try_shipper st) false logged true OutOfFuel
    end
  else mkCycle (try_api st) (try_world st) (try_shipper st) false logged false (Ok tt).

Definition killed (st : try_state) : cycle :=
  mkCycle (try_api st) (try_world st) (try_shipper st) true [failed_msg] false (Ok tt).

(** [__send_data_to_logzio]: the [except] clauses in their order, then
    the tail. *)
Definition __send_data_to_logzio (steps fuel : nat) (api : AuthApi.t)
    (w : AuthApi.World) (s : shipper_state) : cycle :=
  let is_data_sent_successfully := true in
  match try_block steps fuel api w s with
  | (Completed, st) => after_try st [] is_data_sent_successfully
  | (Raised InvalidURL, st) => killed st
  | (Raised InvalidSchema, st) => killed st
  | (Raised (HTTPError status_code), st) =>
      if status_code =? 401 then killed st
      else after_try st [failed_msg] is_data_sent_successfully
  | (Raised HTTPErrorNoResponse, st) =>
      (* e.response.status_code fails inside the handler, after the log *)
      mkCycle (try_api st) (try_world st) (try_shipper st) false [failed_msg] false
        (Raise AttributeError)
  | (Raised _, st) =>
      let is_data_sent_successfully := false in
      after_try st [failed_msg] is_data_sent_successfully
  | (TryStarved, st) =>
      mkCycle (try_api st) (try_world st) (try_shipper st) false [] false OutOfFuel
  end.

End Manager.
End ApisManager.

(* ===================================================================== *)
(** ** Reference definitions used to state the properties                 *)
(* ===================================================================== *)

Module Reference.

(** [sep.join(parts)] *)
Fixpoint join (sep : string) (parts : list string) : string :=
  match parts with
  | [] => ""
  | [x] => x
  | x :: rest => x ++ sep ++ join sep rest
  end.

(** One filter as it appears in the query string. *)
Definition key_value (f : ApiFilter.t) : string :=
  ApiFilter.key f ++ "=" ++ ApiFilter.value f.

(** The query string of a filter list. *)
Definition query (filters : list ApiFilter.t) : string :=
  join "&" (map key_value filters).

(** The cursor entry of a filter list is set to [v]: the first filter
    with key [name] is overwritten, or a new filter is appended when no
    filter has that key; every other filter is untouched. *)
Definition cursor_set (name v : string) (before after : list ApiFilter.t) : Prop :=
  (exists pre f post,
      before = (pre ++ f :: post)%list /\
      ApiFilter.key f = name /\
      Forall (fun g => ApiFilter.key g <> name) pre /\
      after = (pre ++ ApiFilter.mk name v :: post)%list)
  \/
  (Forall (fun g => ApiFilter.key g <> name) before /\
   after = (before ++ [ApiFilter.mk name v])%list).

(** A page as [_get_data_from_api] returns it. *)
Record page : Type := mkPage {
  page_next : json;
  page_events : json;
  page_count : Z
}.

Definition events_of (ps : list page) : list json :=
  List.concat (map (fun p => py_iter (page_events p)) ps).

Definition count_of (ps : list page) : Z :=
  fold_right (fun p n => page_count p + n) 0 ps.

Section Walk.
Context {libs : Libs} {net : Upstream}.
Variable self : AuthApi.t.

(** The page is fetched without error by the request of [url] made in
    world [w]. *)
Definition fetched (w : AuthApi.World) (url : json) (p : page) : Prop :=
  fst (AuthApi._get_data_from_api self url w)
  = Ok (page_next p, page_events p, page_count p).

(** [follows w url seen ps w' url' seen']: about to request [url] with
    [seen] events so far, the loop fetches the pages [ps] one after the
    other, follows the link of each, and is then about to request [url']
    with [seen'] events. *)
Inductive follows : AuthApi.World -> json -> Z -> list page ->
                    AuthApi.World -> json -> Z -> Prop :=
| follows_nil w url seen : follows w url seen [] w url seen
| follows_cons w url seen p ps w' url' seen' :
    fetched w url p ->
    is_None (page_next p) || (seen + page_count p >=? 2500) = false ->
    follows (w ++ [url])%list (page_next p) (seen + page_count p) ps w' url' seen' ->
    follows w url seen (p :: ps) w' url' seen'.

End Walk.

(** The exceptions the date loop of the fetcher can raise. *)
Definition date_exn (e : exn) : Prop :=
  e = ApiError \/ e = TypeError \/ e = ValueError.

(** A refresh attempt that fails: the POST raises, the response has an
    error status (what [raise_for_status] raises on), or its body does not
    decode. *)
Definition refresh_fails (o : post_outcome) : Prop :=
  match o with
  | PostFailed => True
  | PostResponse status_code body => 400 <= status_code < 600 \/ body = None
  end.

(** The cache of a provider is of no use at the reading [now]: there is no
    token, or it has expired. *)
Definition cache_unusable (self : DockerHub.t) (now : Z) : Prop :=
  truthy (DockerHub._jwt_token self) = false \/
  (truthy (DockerHub._jwt_token self) = true /\
   exists expiry, DockerHub._token_expiry self = Some expiry /\ expiry <= now).

End Reference.

(* ===================================================================== *)
(** ** Concrete libraries, upstreams and shippers for the examples        *)
(* ===================================================================== *)

Module Demo.

Fixpoint dict_find (k : string) (fields : list (string * json)) : option json :=
  match fields with
  | [] => None
  | (k', v) :: rest => if String.eqb k k' then Some v else dict_find k rest
  end.

(** JSON paths that are a single key of the object they are applied to. *)
Definition find (path : string) (data : json) : list json :=
  match data with
  | JObj fields =>
      match dict_find path fields with
      | Some v => [v]
      | None => []
      end
  | _ => []
  end.

Definition event (n : Z) (ts : string) : json :=
  JObj [("id", JNum n); ("ts", JStr ts)].

Definition page1 : json :=
  JObj [("events", JArr [event 1 "2024-01-01T00:00:01+00:00";
                         event 2 "2024-01-01T00:00:02+00:00"]);
        ("next", JStr "https://api.example/events?page=2")].

Definition page2 : json :=
  JObj [("events", JArr [event 3 "2024-01-01T00:00:03+00:00"]);
        ("next", JNull)].

Definition single_page : json :=
  JObj [("events", JArr [event 1 "2024-01-01T00:00:01+00:00";
                         event 2 "2024-01-01T00:00:02+00:00"]);
        ("next", JNull)].

(** Dates that are numbers, and a second event without a date. *)
Definition numeric_dates : json :=
  JObj [("events", JArr [JObj [("id", JNum 1); ("ts", JNum 5)];
                         JObj [("id", JNum 2)]]);
        ("next", JNull)].

(** 2499 events and a link to a further page. *)
Definition almost_full : json :=
  JObj [("events", JArr (repeat (event 0 "2024-01-01T00:00:00+00:00") 2499));
        ("next", JStr "https://api.example/events?page=1")].

(** Response bodies are referred to by name; [loads] decodes the names. *)
Definition loads (content : string) : option json :=
  if String.eqb content "page1" then Some page1
  else if String.eqb content "almost_full" then Some almost_full
  else if String.eqb content "page2" then Some page2
  else if String.eqb content "single_page" then Some single_page
  else if String.eqb content "numeric_dates" then Some numeric_dates
  else if String.eqb content "no_data" then Some (JObj [("next", JNull)])
  else None.

(** A serializer for the values above (the [id] of an event is all that
    is printed of it). *)
Definition dumps (v : json) : string :=
  match v with
  | JObj (("id", JNum n) :: _) => "event " ++ DateTime.pad 1 n
  | JStr s => s
  | _ => "value"
  end.

#[export] Instance libs : Libs := {|
  json_loads := loads;
  json_dumps := dumps;
  jsonpath_find := find;
  parser_parse := DateTime.parse_iso
|}.

(** An upstream that answers the successive requests with the given
    outcomes, whatever the URL, and fails once they are used up. *)
Definition scripted (outcomes : list http_outcome) : Upstream := {|
  requests_get := fun n _ => nth n outcomes (Failed TConnectionError)
|}.

(** A shipper that buffers the lines and whose flush raises [flush]. *)
Definition buffering (flush : option exn) : LogzioShipper := {|
  shipper_state := list string;
  add_log_to_send := fun s line => ((s ++ [line])%list, None);
  send_to_logzio := fun s => (s, flush)
|}.

Definition paths : ApiJsonPaths.t := ApiJsonPaths.mk "next" "events" "ts".

Definition api (url : string) : AuthApi.t :=
  AuthApi.init "demo" (ApiCredentials.mk "id" "key")
    [ApiFilter.mk "limit" "100"; ApiFilter.mk "from" "2024-01-01T00:00:00Z"]
    url "from" paths.

Definition two_pages : Upstream :=
  scripted [Response 200 "page1"; Response 200 "page2"].
Definition one_page : Upstream := scripted [Response 200 "single_page"].
Definition over_the_cap : Upstream :=
  scripted [Response 200 "almost_full"; Response 200 "page1"; Response 200 "page2"].
Definition then_unauthorized : Upstream :=
  scripted [Response 200 "page1"; Response 401 ""].
Definition then_unavailable : Upstream :=
  scripted [Response 200 "page1"; Response 503 ""].
Definition then_unreachable : Upstream :=
  scripted [Response 200 "page1"; Failed TConnectionError].
Definition then_no_data : Upstream :=
  scripted [Response 200 "page1"; Response 200 "no_data"].
Definition with_numeric_dates : Upstream :=
  scripted [Response 200 "numeric_dates"].

(** The base URL without and with its question mark. *)
Definition bare_api : AuthApi.t := api "https://api.example/events".
Definition fresh_api : AuthApi.t := api "https://api.example/events?".

Definition first_url : json :=
  JStr "https://api.example/events?limit=100&from=2024-01-01T00:00:00Z".
Definition second_url : json := JStr "https://api.example/events?page=2".

(** The two pages as the fetcher returns them. *)
Definition first_page : Reference.page :=
  Reference.mkPage second_url
    (JArr [event 1 "2024-01-01T00:00:01+00:00"; event 2 "2024-01-01T00:00:02+00:00"]) 2.
Definition second_page : Reference.page :=
  Reference.mkPage JNull (JArr [event 3 "2024-01-01T00:00:03+00:00"]) 1.

(** [fresh_api] after a cycle whose latest event is of 00:00:02. *)
Definition fetched_api : AuthApi.t :=
  AuthApi.set_current_data_last_date fresh_api (Some "2024-01-01 00:00:02+00:00").

(** An issuing endpoint that answers the successive POSTs with the given
    outcomes, and a clock that shows the given readings (microseconds). *)
Definition scripted_issuer (outcomes : list post_outcome) (readings : list Z) : Issuer := {|
  requests_post := fun n _ _ => nth n outcomes PostFailed;
  datetime_now := fun n => nth n readings 0
|}.

Definition granted (token : string) : post_outcome :=
  PostResponse 200 (Some (JObj [("token", JStr token)])).

(** A provider with the refresh interval of 30 minutes and no token yet,
    and one holding the token [old] that expires at reading 1000. *)
Definition new_provider : DockerHub.t :=
  DockerHub.mk "user" "secret" 30 JNull None.
Definition old_provider : DockerHub.t :=
  DockerHub.mk "user" "secret" 30 (JStr "old") (Some 1000).

Definition quiet : DockerHub.World := DockerHub.mkWorld 0 0 [].

(** One cycle on [fresh_api] against the single-page upstream, with a
    shipper whose flush raises [flush]. *)
Definition run_cycle (flush : option exn) : @ApisManager.cycle (buffering flush) :=
  @ApisManager.__send_data_to_logzio libs one_page (buffering flush) 5 2 fresh_api [] [].

End Demo.

(* ===================================================================== *)
(** ** Further reference definitions and examples                         *)
(* ===================================================================== *)

Module Observations.

(** The filters whose key is not [name], in their order. *)
Definition other_filters (name : string) (filters : list ApiFilter.t) : list ApiFilter.t :=
  filter (fun f => negb (String.eqb (ApiFilter.key f) name)) filters.

(** The filters whose key is [name]. *)
Definition cursor_filters (name : string) (filters : list ApiFilter.t) : list ApiFilter.t :=
  filter (fun f => String.eqb (ApiFilter.key f) name) filters.

(** What a cycle keeps of a fetcher, in a form that composes: the start-date
    key, the filters with another key, and at most one filter with it
    where there was none. *)
Definition kept (api api' : AuthApi.t) : Prop :=
  AuthApi._start_date_name api' = AuthApi._start_date_name api /\
  other_filters (AuthApi._start_date_name api) (AuthApi._filters api')
  = other_filters (AuthApi._start_date_name api) (AuthApi._filters api) /\
  (List.length (cursor_filters (AuthApi._start_date_name api) (AuthApi._filters api'))
   <= Nat.max 1 (List.length (cursor_filters (AuthApi._start_date_name api)
                                (AuthApi._filters api))))%nat.

(** The place of a timestamp on the time line used by [<]. *)
Definition time_key (d : DateTime.datetime) : Z :=
  DateTime.instant d (match DateTime.tzinfo d with Some off => off | None => 0 end).

(** Whether a timestamp carries an offset. *)
Definition aware (d : DateTime.datetime) : bool :=
  match DateTime.tzinfo d with Some _ => true | None => false end.

Section WithLibs.
Context {libs : Libs}.

(** The timestamp the date loop reads from an event. *)
Definition date_of (self : AuthApi.t) (event : json) : result DateTime.datetime :=
  AuthApi.parse_value
    (AuthApi._get_json_path_value_from_data
       (ApiJsonPaths.data_date (AuthApi._json_paths self)) event).

End WithLibs.

Section WithShipper.
Context {shipper : LogzioShipper}.

(** The lines handed to the shipper one after the other, up to the first
    [add_log_to_send] that raises. *)
Fixpoint enqueue_all (s : shipper_state) (lines : list string)
    : shipper_state * option exn :=
  match lines with
  | [] => (s, None)
  | line :: rest =>
      match add_log_to_send s line with
      | (s', Some e) => (s', Some e)
      | (s', None) => enqueue_all s' rest
      end
  end.

End WithShipper.

Section WithIssuer.
Context {issuer : Issuer}.

(** [n] calls of [_get_jwt_token] one after the other, as successive
    [send_request]s make them: the results, and the provider and the
    outside after the last. *)
Fixpoint token_calls (n : nat) (self : DockerHub.t) (w : DockerHub.World)
    : list (result json) * DockerHub.t * DockerHub.World :=
  match n with
  | O => ([], self, w)
  | S n' =>
      let '(r, self', w') := DockerHub._get_jwt_token self w in
      let '(rs, self'', w'') := token_calls n' self' w' in
      (r :: rs, self'', w'')
  end.

End WithIssuer.

Section WithClock.
Context {issuer : Issuer}.

(** The expiry of the provider, if any, is not ahead of the next reading
    of the clock. *)
Definition expired_by (self : DockerHub.t) (w : DockerHub.World) : Prop :=
  forall expiry,
    DockerHub._token_expiry self = Some expiry ->
    expiry <= datetime_now (DockerHub.clock_reads w).

(** The refresh interval added to any reading of the clock is a
    [datetime]: no refresh fails on computing the expiry. *)
Definition interval_fits (self : DockerHub.t) : Prop :=
  forall k,
    DockerHub.representable
      (datetime_now k + DockerHub.minutes (DockerHub.refresh_token_interval self)) = true.

End WithClock.

(** A cached token always comes with an expiry. *)
Definition cache_consistent (self : DockerHub.t) : Prop :=
  truthy (DockerHub._jwt_token self) = true -> DockerHub._token_expiry self <> None.

(** The three exceptions on which the manager ends the process. *)
Definition fatal (e : exn) : Prop :=
  e = HTTPError 401 \/ e = InvalidURL \/ e = InvalidSchema.

End Observations.

Module DemoMore.

(** A body with no events and a link to a further page. *)
Definition empty_page : json :=
  JObj [("events", JArr []); ("next", JStr "https://api.example/events?page=again")].

Definition loads (content : string) : option json :=
  if String.eqb content "empty_page" then Some empty_page
  else if String.eqb content "no_events" then Some (JObj [("events", JArr []); ("next", JNull)])
  else if String.eqb content "numeric_data" then Some (JObj [("events", JNum 7)])
  else Demo.loads content.

#[export] Instance libs : Libs := {|
  json_loads := loads;
  json_dumps := Demo.dumps;
  jsonpath_find := Demo.find;
  parser_parse := DateTime.parse_iso
|}.

(** An upstream that answers every request with the same outcome. *)
Definition always (o : http_outcome) : Upstream := {|
  requests_get := fun _ _ => o
|}.

(** A shipper that takes no line: [add_log_to_send] raises [e]. *)
Definition rejecting (e : exn) : LogzioShipper := {|
  shipper_state := list string;
  add_log_to_send := fun s _ => (s, Some e);
  send_to_logzio := fun s => (s, None)
|}.

(** An endpoint that grants a token once, and one whose answer of 200
    has no token in it. *)
Definition granting : Issuer := Demo.scripted_issuer [Demo.granted "jwt"] [500; 900; 901].
Definition tokenless : Issuer :=
  Demo.scripted_issuer [PostResponse 200 (Some (JObj []))] [500].

(** A provider that caches nothing for any time, and an endpoint whose
    clock stands still. *)
Definition impatient_provider : DockerHub.t := DockerHub.mk "user" "secret" 0 JNull None.
Definition standing_clock : Issuer :=
  Demo.scripted_issuer [Demo.granted "first"; Demo.granted "second"] [].

(** A provider with no token yet and a refresh interval of 2200000000
    minutes (some 4183 years), and an endpoint whose clock shows the epoch
    at the first refresh and 140000000000000000 microseconds (in the year
    6406) from the second call on. *)
Definition patient_provider : DockerHub.t :=
  DockerHub.mk "user" "secret" 2200000000 JNull None.
Definition late_clock : Issuer :=
  Demo.scripted_issuer [Demo.granted "first"; Demo.granted "second"]
    [0; 140000000000000000; 140000000000000000].

(** A provider holding the token [old] that expired at reading 1000, and
    one with no token yet, whose refresh interval was set to 10000000000
    minutes; an endpoint that grants the token [new]. *)
Definition far_provider : DockerHub.t :=
  DockerHub.mk "user" "secret" 10000000000 (JStr "old") (Some 1000).
Definition far_new_provider : DockerHub.t :=
  DockerHub.mk "user" "secret" 10000000000 JNull None.
Definition renewing : Issuer := Demo.scripted_issuer [Demo.granted "new"] [2000; 2001].

Definition two_events : list json :=
  [Demo.event 1 "2024-01-01T00:00:01+00:00"; Demo.event 2 "2024-01-01T00:00:02+00:00"].

(** [Demo.fresh_api] after its first update. *)
Definition updated_api : AuthApi.t :=
  AuthApi.set_filters Demo.fetched_api
    [ApiFilter.mk "limit" "100"; ApiFilter.mk "from" "2024-01-01T00%3A00%3A03%2B00%3A00"].

End DemoMore.

(* ===================================================================== *)
(** ** src/apis_manager.py: the worker loop                               *)
(* ===================================================================== *)

Module ApisManagerLoop.

Section Loop.
Context {libs : Libs} {net : Upstream} {shipper : LogzioShipper}.

(** [__run_scheduled_tasks]: the cycle is run (the inner thread started
    and joined), then [self.event.wait(timeout=...)] decides; [waits] are
    the successive results of that call.  The result is the cycles run, in
    order, and whether the loop was left by [break]; it is [false] when the
    known waits are used up or a cycle did not end within its budget. *)
Fixpoint __run_scheduled_tasks (waits : list bool) (steps fuel : nat)
    (api : AuthApi.t) (w : AuthApi.World) (s : shipper_state)
    : list ApisManager.cycle * bool :=
  let c := ApisManager.__send_data_to_logzio steps fuel api w s in
  match ApisManager.cycle_end c with
  | OutOfFuel => ([c], false)
  | _ =>
      match waits with
      | [] => ([c], false)
      | true :: _ => ([c], true)
      | false :: rest =>
          let '(cs, broke) :=
            __run_scheduled_tasks rest steps fuel (ApisManager.api_after c)
              (ApisManager.world_after c) (ApisManager.shipper_after c) in
          (c :: cs, broke)
      end
  end.

End Loop.

End ApisManagerLoop.

(* ===================================================================== *)
(** ** src/apis/dockerhub/Dockerhub.py: the request parameters            *)
(* ===================================================================== *)

Module DockerHubParams.

(** [c in s] for a single character. *)
Fixpoint contains_char (c : ascii) (s : string) : bool :=
  match s with
  | EmptyString => false
  | String c' r => Ascii.eqb c c' || contains_char c r
  end.

Definition params_msg : string := "Failed to update request params".

(** [_initialize_params] as it acts on [self.url].  [from_date] is what
    [(datetime.now(UTC) - timedelta(days=...)).strftime(...)] gives, [None]
    when that computation raises; the [except] clause then logs and leaves
    the URL as it is.  The result is the URL and the errors logged. *)
Definition _initialize_params (days_back_fetch : Z) (from_date : option string)
    (url : string) : string * list string :=
  let finish (params : list (string * string)) :=
    let query_string :=
      Reference.join "&" (map (fun kv => fst kv ++ "=" ++ snd kv) params) in
    if contains_char "?"%char url
    then (url ++ "&" ++ query_string, [])
    else (url ++ "?" ++ query_string, []) in
  let params := [("page_size", "100")] in
  if days_back_fetch >? 0 then
    match from_date with
    | Some d => finish (params ++ [("from", d)])%list
    | None => (url, [params_msg])
    end
  else finish params.

(** How often a character occurs in a string. *)
Fixpoint count_char (c : ascii) (s : string) : nat :=
  match s with
  | EmptyString => O
  | String c' r => ((if Ascii.eqb c c' then 1 else 0) + count_char c r)%nat
  end.

End DockerHubParams.

(* ===================================================================== *)
(** ** src/apis_manager.py: reading the configuration                     *)
(* ===================================================================== *)

Module ApisManagerConfig.

(** The two exceptions the configuration code meets. *)
Inductive config_exn : Type :=
| KeyError
| ConfigTypeError.   (* TypeError *)

Inductive outcome (A : Type) : Type :=
| Val (a : A)
| Exc (e : config_exn).
Arguments Val {A} a.
Arguments Exc {A} e.

(** [d[k]] for a [str] key: a dict gives the value or [KeyError], anything
    else is not subscriptable by a string. *)
Definition getitem (d : json) (k : string) : outcome json :=
  match d with
  | JObj fields =>
      match Demo.dict_find k fields with
      | Some v => Val v
      | None => Exc KeyError
      end
  | _ => Exc ConfigTypeError
  end.

Definition is_str (k : string) (v : json) : bool :=
  match v with
  | JStr s => String.eqb s k
  | _ => false
  end.

(** [k in d] for a [str] key: a key of a dict, an element of a list, a
    substring of a string; other values are not containers. *)
Definition contains (k : string) (d : json) : outcome bool :=
  match d with
  | JObj fields =>
      Val (match Demo.dict_find k fields with Some _ => true | None => false end)
  | JArr items => Val (existsb (is_str k) items)
  | JStr s => Val (match String.index 0 k s with Some _ => true | None => false end)
  | _ => Exc ConfigTypeError
  end.

(** The items a [for] loop takes from a value. *)
Definition iterate (v : json) : outcome (list json) :=
  match v with
  | JArr items => Val items
  | JObj fields => Val (map (fun kv => JStr (fst kv)) fields)
  | JStr s => Val (chars s)
  | _ => Exc ConfigTypeError
  end.

Fixpoint string_times (n : nat) (s : string) : string :=
  match n with
  | O => ""
  | S n' => s ++ string_times n' s
  end.

Fixpoint list_times {A} (n : nat) (l : list A) : list A :=
  match n with
  | O => []
  | S n' => (l ++ list_times n' l)%list
  end.

(** [v * 60] *)
Definition times_60 (v : json) : outcome json :=
  match v with
  | JNum n => Val (JNum (n * 60))
  | JBool b => Val (JNum (if b then 60 else 0))
  | JStr s => Val (JStr (string_times 60 s))
  | JArr items => Val (JArr (list_times 60 items))
  | _ => Exc ConfigTypeError
  end.

(** [v == 0] *)
Definition is_zero (v : json) : bool :=
  match v with
  | JNum n => n =? 0
  | JBool b => negb b
  | _ => false
  end.

(** What [logger.error] is called with. *)
Inductive config_error : Type :=
| LogzioInvalid            (* logzio must have url and token *)
| IntervalMissing          (* settings must have time_interval *)
| IntervalNotInteger       (* time_interval must be whole positive integer *)
| ApiDataInvalid           (* auth_api must have type, id and key *)
| GeneralAuthInvalid       (* general auth_api must have url and json paths *)
| GeneralOAuthInvalid      (* general oauth_api must have urls and json paths *)
| InvalidAuthType (api_type : json)
| InvalidOAuthType (api_type : json).

(** The one fetcher the manager builds: [CiscoSecureX(api_id, api_key,
    api_filters)], kept as its arguments. *)
Inductive api_object : Type :=
| CiscoSecureX (api_id api_key : json) (api_filters : list json).

(** [__get_logzio_data] *)
Definition __get_logzio_data (config_data : json)
    : outcome (json * json) * list config_error :=
  let logzio_url := JNull in
  let logzio_token := JNull in
  match getitem config_data "logzio" with
  | Val logzio =>
      match getitem logzio "url" with
      | Val logzio_url =>
          match getitem logzio "token" with
          | Val logzio_token => (Val (logzio_url, logzio_token), [])
          | Exc KeyError => (Val (logzio_url, logzio_token), [LogzioInvalid])
          | Exc ConfigTypeError => (Exc ConfigTypeError, [])
          end
      | Exc KeyError => (Val (logzio_url, logzio_token), [LogzioInvalid])
      | Exc ConfigTypeError => (Exc ConfigTypeError, [])
      end
  | Exc KeyError => (Val (logzio_url, logzio_token), [LogzioInvalid])
  | Exc ConfigTypeError => (Exc ConfigTypeError, [])
  end.

(** [__get_time_interval]: both exceptions are caught. *)
Definition __get_time_interval (config_data : json) : json * list config_error :=
  let time_interval := JNum 0 in
  let missing := (time_interval, [IntervalMissing]) in
  let not_integer := (time_interval, [IntervalNotInteger]) in
  match getitem config_data "settings" with
  | Val settings =>
      match getitem settings "time_interval" with
      | Val minutes =>
          match times_60 minutes with
          | Val time_interval => (time_interval, [])
          | Exc KeyError => missing
          | Exc ConfigTypeError => not_integer
          end
      | Exc KeyError => missing
      | Exc ConfigTypeError => not_integer
      end
  | Exc KeyError => missing
  | Exc ConfigTypeError => not_integer
  end.

(** [__get_api_data] *)
Definition __get_api_data (api_data : json)
    : outcome (json * json * json) * list config_error :=
  let api_type := JNull in
  let api_id := JNull in
  let api_key := JNull in
  match getitem api_data "type" with
  | Val api_type =>
      match getitem api_data "id" with
      | Val api_id =>
          match getitem api_data "key" with
          | Val api_key => (Val (api_type, api_id, api_key), [])
          | Exc KeyError => (Val (api_type, api_id, api_key), [ApiDataInvalid])
          | Exc ConfigTypeError => (Exc ConfigTypeError, [])
          end
      | Exc KeyError => (Val (api_type, api_id, api_key), [ApiDataInvalid])
      | Exc ConfigTypeError => (Exc ConfigTypeError, [])
      end
  | Exc KeyError => (Val (api_type, api_id, api_key), [ApiDataInvalid])
  | Exc ConfigTypeError => (Exc ConfigTypeError, [])
  end.

(** The [for] loop of [__get_api_filters]: [None] is the early
    [return None]. *)
Fixpoint filters_loop (items : list json) (api_filters : list json)
    : outcome (option (list json)) :=
  match items with
  | [] => Val (Some api_filters)
  | api_filter :: rest =>
      match contains "key" api_filter with
      | Val false => Val None
      | Val true =>
          match contains "value" api_filter with
          | Val false => Val None
          | Val true => filters_loop rest (api_filters ++ [api_filter])%list
          | Exc e => Exc e
          end
      | Exc e => Exc e
      end
  end.

(** [__get_api_filters] *)
Definition __get_api_filters (api_data : json) : outcome (option (list json)) :=
  match contains "filters" api_data with
  | Val true =>
      match getitem api_data "filters" with
      | Val filters =>
          match iterate filters with
          | Val items => filters_loop items []
          | Exc e => Exc e
          end
      | Exc e => Exc e
      end
  | Val false => Val (Some [])
  | Exc e => Exc e
  end.

(** [__get_general_type_auth_api_data] *)
Definition __get_general_type_auth_api_data (auth_api_data : json)
    : outcome (json * json * json) * list config_error :=
  let api_url := JNull in
  let next_url_json_path := JNull in
  let data_json_path := JNull in
  match getitem auth_api_data "url" with
  | Val api_url =>
      match getitem auth_api_data "next_url_json_path" with
      | Val next_url_json_path =>
          match getitem auth_api_data "data_json_path" with
          | Val data_json_path =>
              (Val (api_url, next_url_json_path, data_json_path), [])
          | Exc KeyError =>
              (Val (api_url, next_url_json_path, data_json_path), [GeneralAuthInvalid])
          | Exc ConfigTypeError => (Exc ConfigTypeError, [])
          end
      | Exc KeyError =>
          (Val (api_url, next_url_json_path, data_json_path), [GeneralAuthInvalid])
      | Exc ConfigTypeError => (Exc ConfigTypeError, [])
      end
  | Exc KeyError =>
      (Val (api_url, next_url_json_path, data_json_path), [GeneralAuthInvalid])
  | Exc ConfigTypeError => (Exc ConfigTypeError, [])
  end.

(** [__get_auth_api] *)
Definition __get_auth_api (auth_api_data : json)
    : outcome (option api_object) * list config_error :=
  match __get_api_data auth_api_data with
  | (Exc e, logged) => (Exc e, logged)
  | (Val (api_type, api_id, api_key), logged) =>
      if is_None api_type || is_None api_id || is_None api_key then (Val None, logged)
      else
        match __get_api_filters auth_api_data with
        | Exc e => (Exc e, logged)
        | Val None => (Val None, logged)
        | Val (Some api_filters) =>
            if is_str "cisco_secure_x" api_type
            then (Val (Some (CiscoSecureX api_id api_key api_filters)), logged)
            else if is_str "general" api_type then
              match __get_general_type_auth_api_data auth_api_data with
              | (Exc e, logged') => (Exc e, (logged ++ logged')%list)
              | (Val (api_url, api_next_url_json_path, api_data_json_path), logged') =>
                  if is_None api_url || is_None api_next_url_json_path
                     || is_None api_data_json_path
                  then (Val None, (logged ++ logged')%list)
                  else (Val None, (logged ++ logged' ++ [InvalidAuthType api_type])%list)
              end
            else (Val None, (logged ++ [InvalidAuthType api_type])%list)
        end
  end.

(** The [for] loop of [__add_auth_apis] over the entries; the result is
    the value returned, [self.apis] and the errors logged. *)
Fixpoint add_loop (entries : list json) (apis : list api_object)
    : outcome bool * list api_object * list config_error :=
  match entries with
  | [] => (Val true, apis, [])
  | auth_api :: rest =>
      match __get_auth_api auth_api with
      | (Exc e, logged) => (Exc e, apis, logged)
      | (Val None, logged) => (Val false, apis, logged)
      | (Val (Some api), logged) =>
          let '(r, apis', logged') := add_loop rest (apis ++ [api])%list in
          (r, apis', (logged ++ logged')%list)
      end
  end.

(** [__add_auth_apis] *)
Definition __add_auth_apis (config_data : json) (apis : list api_object)
    : outcome bool * list api_object * list config_error :=
  match contains "auth_apis" config_data with
  | Val true =>
      match getitem config_data "auth_apis" with
      | Val auth_apis =>
          match iterate auth_apis with
          | Val entries => add_loop entries apis
          | Exc e => (Exc e, apis, [])
          end
      | Exc e => (Exc e, apis, [])
      end
  | Val false => (Val true, apis, [])
  | Exc e => (Exc e, apis, [])
  end.

(** The fields of the manager that reading the configuration sets. *)
Record manager : Type := mkManager {
  apis : list api_object;
  logzio_shipper : option (json * json);   (* LogzioShipper(url, token) *)
  time_interval : json
}.

(** The manager as [__init__] has it before the configuration is read. *)
Definition new_manager : manager := mkManager [] None (JNum 0).

(** [__read_data_from_config], on the value [yaml.safe_load] gave. *)
Definition __read_data_from_config (self : manager) (config_data : json)
    : outcome bool * manager * list config_error :=
  match __get_logzio_data config_data with
  | (Exc e, logged) => (Exc e, self, logged)
  | (Val (logzio_url, logzio_token), logged) =>
      if is_None logzio_url || is_None logzio_token then (Val false, self, logged)
      else
        let self := mkManager (apis self) (Some (logzio_url, logzio_token))
                      (time_interval self) in
        let '(interval, logged2) := __get_time_interval config_data in
        let self := mkManager (apis self) (logzio_shipper self) interval in
        if is_zero interval then (Val false, self, (logged ++ logged2)%list)
        else
          match __add_auth_apis config_data (apis self) with
          | (Exc e, apis', logged3) =>
              (Exc e, mkManager apis' (logzio_shipper self) (time_interval self),
               (logged ++ logged2 ++ logged3)%list)
          | (Val ok, apis', logged3) =>
              (Val ok, mkManager apis' (logzio_shipper self) (time_interval self),
               (logged ++ logged2 ++ logged3)%list)
          end
  end.

End ApisManagerConfig.

Module ConfigObservations.
Import ApisManagerConfig.

(** The entry of [auth_apis] from which the fetcher [a] is built: its type
    is [cisco_secure_x], it has an id and a key that are not [None], and
    its filters pass [__get_api_filters]. *)
Definition accepted (entry : json) (a : api_object) : Prop :=
  exists api_type api_id api_key api_filters,
    getitem entry "type" = Val api_type /\ is_str "cisco_secure_x" api_type = true /\
    getitem entry "id" = Val api_id /\ is_None api_id = false /\
    getitem entry "key" = Val api_key /\ is_None api_key = false /\
    __get_api_filters entry = Val (Some api_filters) /\
    a = CiscoSecureX api_id api_key api_filters.

(** The entries of [auth_apis], none when the key is absent. *)
Definition auth_entries (config_data : json) (entries : list json) : Prop :=
  (contains "auth_apis" config_data = Val false /\ entries = []) \/
  (contains "auth_apis" config_data = Val true /\
   exists auth_apis, getitem config_data "auth_apis" = Val auth_apis /\
                     iterate auth_apis = Val entries).

(** The parts of a configuration that reading it needs. *)
Definition well_formed (config_data : json) (url token interval : json)
    (entries : list json) (built : list api_object) : Prop :=
  (exists logzio, getitem config_data "logzio" = Val logzio /\
                  getitem logzio "url" = Val url /\ getitem logzio "token" = Val token) /\
  is_None url = false /\ is_None token = false /\
  (exists settings minutes,
      getitem config_data "settings" = Val settings /\
      getitem settings "time_interval" = Val minutes /\
      times_60 minutes = Val interval) /\
  is_zero interval = false /\
  auth_entries config_data entries /\
  Forall2 accepted entries built.

End ConfigObservations.

Module DemoConfig.
Import ApisManagerConfig.

Definition cisco_entry : json :=
  JObj [("type", JStr "cisco_secure_x"); ("id", JStr "client"); ("key", JStr "secret");
        ("filters", JArr [JObj [("key", JStr "limit"); ("value", JNum 100)]])].

(** A [general] entry with everything the code asks of it. *)
Definition general_entry : json :=
  JObj [("type", JStr "general"); ("id", JStr "client"); ("key", JStr "secret");
        ("url", JStr "https://api.example/events?");
        ("next_url_json_path", JStr "next"); ("data_json_path", JStr "events")].

Definition config (entries : list json) : json :=
  JObj [("logzio", JObj [("url", JStr "https://listener.logz.io:8071");
                         ("token", JStr "shipping-token")]);
        ("settings", JObj [("time_interval", JNum 5)]);
        ("auth_apis", JArr entries)].

End DemoConfig.

(* ===================================================================== *)
(** * Facts about the timestamp and quoting functions                     *)
(* ===================================================================== *)

Module DateTimeFacts.
Import DateTime.

Ltac boolZ :=
  repeat match goal with
  | H : _ && _ = true |- _ => apply andb_true_iff in H; destruct H
  | H : (_ <=? _) = true |- _ => apply Z.leb_le in H
  | H : (_ <? _) = true |- _ => apply Z.ltb_lt in H
  | H : (_ <? _) = false |- _ => apply Z.ltb_ge in H
  | H : (_ =? _) = true |- _ => apply Z.eqb_eq in H
  | H : (_ =? _) = false |- _ => apply Z.eqb_neq in H
  end.

Lemma append_assoc (a b c : string) : ((a ++ b) ++ c = a ++ (b ++ c))%string.
Proof. induction a as [|x a IH]; simpl; [reflexivity | now rewrite IH]. Qed.

Lemma append_nil_r (a : string) : (a ++ "" = a)%string.
Proof. induction a as [|x a IH]; simpl; [reflexivity | now rewrite IH]. Qed.

Lemma days_in_month_bounds y m : 28 <= days_in_month y m <= 31.
Proof.
  unfold days_in_month.
  destruct (m =? 2); [destruct (is_leap y); lia|].
  destruct ((m =? 4) || (m =? 6) || (m =? 9) || (m =? 11)); lia.
Qed.

Lemma digit_val_digit k : 0 <= k <= 9 -> digit_val (digit k) = Some k.
Proof.
  intros Hk.
  assert (E : k = 0 \/ k = 1 \/ k = 2 \/ k = 3 \/ k = 4 \/ k = 5 \/ k = 6 \/
              k = 7 \/ k = 8 \/ k = 9) by lia.
  repeat (destruct E as [E|E]; [subst k; reflexivity|]).
  subst k; reflexivity.
Qed.

Lemma read_digits_pad w : forall n acc rest,
  0 <= n < 10 ^ Z.of_nat w ->
  read_digits w acc (pad w n ++ rest) = Some (acc * 10 ^ Z.of_nat w + n, rest).
Proof.
  induction w as [|w IH]; intros n acc rest Hn.
  - simpl in *. f_equal. f_equal. lia.
  - cbn [pad read_digits append].
    assert (Hp : 0 < 10 ^ Z.of_nat w) by (apply Z.pow_pos_nonneg; lia).
    assert (Hs : 10 ^ Z.of_nat (S w) = 10 * 10 ^ Z.of_nat w).
    { rewrite Nat2Z.inj_succ, Z.pow_succ_r by lia. reflexivity. }
    rewrite Hs in Hn.
    assert (Hq : 0 <= n / 10 ^ Z.of_nat w <= 9).
    { split; [apply Z.div_pos; lia|].
      assert (n / 10 ^ Z.of_nat w < 10); [|lia].
      apply Z.div_lt_upper_bound; lia. }
    rewrite digit_val_digit by exact Hq.
    rewrite IH by (apply Z.mod_pos_bound; lia).
    f_equal. f_equal. rewrite Hs.
    pose proof (Z.div_mod n (10 ^ Z.of_nat w)). lia.
Qed.

Lemma read_digits_pad0 w n rest :
  0 <= n < 10 ^ Z.of_nat w ->
  read_digits w 0 (pad w n ++ rest) = Some (n, rest).
Proof. intros H. rewrite read_digits_pad by exact H. reflexivity. Qed.

Lemma read2 n rest :
  0 <= n <= 99 -> read_digits 2 0 (pad 2 n ++ rest) = Some (n, rest).
Proof. intros H. apply read_digits_pad0. change (10 ^ Z.of_nat 2) with 100. lia. Qed.

Lemma read4 n rest :
  0 <= n <= 9999 -> read_digits 4 0 (pad 4 n ++ rest) = Some (n, rest).
Proof. intros H. apply read_digits_pad0. change (10 ^ Z.of_nat 4) with 10000. lia. Qed.

Lemma read6 n rest :
  0 <= n <= 999999 -> read_digits 6 0 (pad 6 n ++ rest) = Some (n, rest).
Proof. intros H. apply read_digits_pad0. change (10 ^ Z.of_nat 6) with 1000000. lia. Qed.

Lemma read_tz_fmt tz : valid_tz tz = true -> read_tz (fmt_tz tz) = Some tz.
Proof.
  destruct tz as [off|]; [|reflexivity].
  unfold valid_tz, fmt_tz. intros H. boolZ.
  assert (Ha : 0 <= Z.abs off / 60 <= 99).
  { split; [apply Z.div_pos; lia|].
    assert (Z.abs off / 60 < 24); [apply Z.div_lt_upper_bound; lia | lia]. }
  assert (Hb : 0 <= Z.abs off mod 60 <= 99).
  { pose proof (Z.mod_pos_bound (Z.abs off) 60). lia. }
  pose proof (Z.div_mod (Z.abs off) 60) as Hdm.
  rewrite <- (append_nil_r (pad 2 (Z.abs off mod 60))).
  destruct (off <? 0) eqn:E; boolZ; cbn [append read_tz]; unfold read_offset;
    rewrite read2 by exact Ha; cbn [append expect Ascii.eqb Bool.eqb];
    rewrite read2 by exact Hb; f_equal; f_equal; lia.
Qed.

Lemma read_fraction_tz us tz :
  0 <= us <= 999999 -> valid_tz tz = true ->
  opt_bind (read_fraction ((if us =? 0 then "" else "." ++ pad 6 us) ++ fmt_tz tz))
    (fun '(us', s) => opt_bind (read_tz s) (fun tz' => Some (us', tz')))
  = Some (us, tz).
Proof.
  intros Hus Htz.
  destruct (us =? 0) eqn:E; boolZ.
  - subst us. cbn [append].
    assert (Hf : read_fraction (fmt_tz tz) = Some (0, fmt_tz tz)).
    { destruct tz as [off|]; [|reflexivity].
      unfold fmt_tz. destruct (off <? 0); reflexivity. }
    rewrite Hf. cbn [opt_bind]. rewrite read_tz_fmt by exact Htz. reflexivity.
  - cbn [append read_fraction]. rewrite read6 by exact Hus.
    cbn [opt_bind]. rewrite read_tz_fmt by exact Htz. reflexivity.
Qed.

(** Reading back what [isoformat] wrote, with either separator. *)
Lemma parse_iso_isoformat sep d :
  valid d = true -> sep = " "%char \/ sep = "T"%char ->
  parse_iso (isoformat sep d) = Some d.
Proof.
  intros Hv Hsep.
  pose proof Hv as Hv'.
  destruct d as [y mo da h mi se us tz].
  unfold valid in Hv'. cbn [year month day hour minute second microsecond tzinfo] in Hv'.
  boolZ.
  pose proof (days_in_month_bounds y mo).
  pose proof (read_fraction_tz us tz ltac:(lia) ltac:(assumption)) as Hft.
  unfold parse_iso, isoformat, fmt_date, fmt_time.
  cbn [year month day hour minute second microsecond tzinfo].
  repeat rewrite append_assoc. cbn [append].
  rewrite read4 by lia. cbn [opt_bind expect Ascii.eqb Bool.eqb].
  rewrite read2 by lia. cbn [opt_bind expect Ascii.eqb Bool.eqb].
  rewrite read2 by lia. cbn [opt_bind].
  assert (Hrs : forall r, read_sep (String sep r) = Some r).
  { intros r. destruct Hsep; subst sep; reflexivity. }
  rewrite Hrs. cbn [opt_bind].
  rewrite read2 by lia. cbn [opt_bind expect Ascii.eqb Bool.eqb].
  rewrite read2 by lia. cbn [opt_bind expect Ascii.eqb Bool.eqb].
  rewrite read2 by lia. cbn [opt_bind].
  destruct (read_fraction _) as [[us' s']|]; [|discriminate Hft].
  cbn [opt_bind] in *.
  destruct (read_tz s') as [tz'|]; [|discriminate Hft].
  cbn [opt_bind] in *. injection Hft as -> ->.
  rewrite Hv. reflexivity.
Qed.

Lemma add_second_valid d d' :
  valid d = true -> add_second d = Ok d' -> valid d' = true.
Proof.
  intros Hv Ha. pose proof Hv as Hv'.
  destruct d as [y mo da h mi se us tz].
  unfold valid in Hv'. unfold add_second in Ha.
  cbn [year month day hour minute second microsecond tzinfo] in *.
  boolZ.
  pose proof (days_in_month_bounds y mo).
  pose proof (days_in_month_bounds y (mo + 1)).
  pose proof (days_in_month_bounds (y + 1) 1).
  assert (Hand : forall a b, a = true -> b = true -> a && b = true)
    by (intros; subst; reflexivity).
  repeat match type of Ha with
  | (if ?c then _ else _) = _ => destruct c eqn:?
  end; try discriminate Ha; injection Ha as <-; boolZ;
  unfold valid; cbn [year month day hour minute second microsecond tzinfo];
  repeat apply Hand; try assumption;
  try (apply Z.leb_le; lia).
Qed.

(** *** One second later on the time line *)

Lemma days_before_year_succ y :
  days_before_year (y + 1) = days_before_year y + (if is_leap y then 366 else 365).
Proof.
  unfold days_before_year, is_leap. cbv zeta.
  replace (y + 1 - 1) with y by lia.
  destruct (Z.eqb_spec (y mod 4) 0), (Z.eqb_spec (y mod 100) 0),
           (Z.eqb_spec (y mod 400) 0);
    cbn [andb orb negb]; Z.div_mod_to_equations; lia.
Qed.

Lemma days_before_month_succ y m :
  1 <= m -> days_before_month y (m + 1) = days_before_month y m + days_in_month y m.
Proof.
  intros Hm. unfold days_before_month.
  replace (m + 1 - 1) with m by lia.
  replace (Z.to_nat m) with (S (Z.to_nat (m - 1))) by lia.
  cbn [days_before_month_aux]. f_equal. f_equal. lia.
Qed.

Lemma days_before_month_first y : days_before_month y 1 = 0.
Proof. reflexivity. Qed.

Lemma days_of_year y :
  days_before_month y 12 + days_in_month y 12 = if is_leap y then 366 else 365.
Proof.
  unfold days_before_month. change (Z.to_nat (12 - 1)) with 11%nat.
  unfold days_before_month_aux, days_in_month.
  generalize (is_leap y). intros []; reflexivity.
Qed.

(** [add_second] moves a valid timestamp by exactly one second of the time
    line and keeps its offset. *)
Lemma add_second_instant d d' off :
  valid d = true -> add_second d = Ok d' ->
  tzinfo d' = tzinfo d /\ instant d' off = instant d off + 1000000.
Proof.
  intros Hv Ha.
  destruct d as [y mo da h mi se us tz].
  unfold valid in Hv. unfold add_second in Ha.
  cbn [year month day hour minute second microsecond tzinfo] in *.
  boolZ.
  destruct (se <? 59) eqn:Ese; [injection Ha as <-; split; [reflexivity|] |].
  { unfold instant, toordinal.
    cbn [year month day hour minute second microsecond tzinfo]. lia. }
  destruct (mi <? 59) eqn:Emi; [injection Ha as <-; split; [reflexivity|] |].
  { boolZ. unfold instant, toordinal.
    cbn [year month day hour minute second microsecond tzinfo]. lia. }
  destruct (h <? 23) eqn:Eh; [injection Ha as <-; split; [reflexivity|] |].
  { boolZ. unfold instant, toordinal.
    cbn [year month day hour minute second microsecond tzinfo]. lia. }
  destruct (da <? days_in_month y mo) eqn:Eda; [injection Ha as <-; split; [reflexivity|] |].
  { boolZ. unfold instant, toordinal.
    cbn [year month day hour minute second microsecond tzinfo]. lia. }
  destruct (mo <? 12) eqn:Emo; [injection Ha as <-; split; [reflexivity|] |].
  { boolZ. unfold instant, toordinal.
    cbn [year month day hour minute second microsecond tzinfo].
    rewrite (days_before_month_succ y mo) by lia. lia. }
  destruct (y <? 9999) eqn:Ey; [injection Ha as <-; split; [reflexivity|] | discriminate Ha].
  boolZ. assert (mo = 12) by lia. subst mo.
  unfold instant, toordinal.
  cbn [year month day hour minute second microsecond tzinfo].
  rewrite days_before_year_succ, days_before_month_first, <- (days_of_year y). lia.
Qed.

End DateTimeFacts.

Module UrllibFacts.
Import Urllib.

Lemma safe_not_percent c : is_safe c = true -> Ascii.eqb c "%"%char = false.
Proof.
  destruct c as [[] [] [] [] [] [] [] []]; vm_compute; congruence.
Qed.

Lemma unquote_escape c r :
  unquote (String "%"%char
             (String (hex_digit (code c / 16))
                (String (hex_digit (code c mod 16)) r)))
  = String c (unquote r).
Proof.
  cbn [unquote].
  change (Ascii.eqb "%"%char "%"%char) with true. cbv iota.
  destruct c as [[] [] [] [] [] [] [] []]; reflexivity.
Qed.

(** Percent-decoding undoes percent-encoding. *)
Lemma unquote_quote s : unquote (quote s) = s.
Proof.
  induction s as [|c r IH]; [reflexivity|].
  cbn [quote]. destruct (is_safe c) eqn:E.
  - cbn [unquote]. rewrite (safe_not_percent c E). now rewrite IH.
  - rewrite unquote_escape. now rewrite IH.
Qed.

(** [replace(' ', 'T')] leaves digits alone. *)
Lemma replace_digit k :
  0 <= k <= 9 ->
  (if Ascii.eqb (DateTime.digit k) " "%char then "T"%char else DateTime.digit k)
  = DateTime.digit k.
Proof.
  intros Hk.
  assert (E : k = 0 \/ k = 1 \/ k = 2 \/ k = 3 \/ k = 4 \/ k = 5 \/ k = 6 \/
              k = 7 \/ k = 8 \/ k = 9) by lia.
  repeat (destruct E as [E|E]; [subst k; reflexivity|]).
  subst k; reflexivity.
Qed.

Lemma replace_pad w : forall n,
  0 <= n < 10 ^ Z.of_nat w ->
  replace_space_T (DateTime.pad w n) = DateTime.pad w n.
Proof.
  induction w as [|w IH]; intros n Hn; [reflexivity|].
  cbn [DateTime.pad replace_space_T].
  assert (Hp : 0 < 10 ^ Z.of_nat w) by (apply Z.pow_pos_nonneg; lia).
  assert (Hs : 10 ^ Z.of_nat (S w) = 10 * 10 ^ Z.of_nat w).
  { rewrite Nat2Z.inj_succ, Z.pow_succ_r by lia. reflexivity. }
  rewrite Hs in Hn.
  rewrite replace_digit.
  - rewrite IH by (apply Z.mod_pos_bound; lia). reflexivity.
  - split; [apply Z.div_pos; lia|].
    assert (n / 10 ^ Z.of_nat w < 10); [apply Z.div_lt_upper_bound; lia | lia].
Qed.

Lemma replace_append a b :
  replace_space_T (a ++ b) = (replace_space_T a ++ replace_space_T b)%string.
Proof. induction a as [|c a IH]; cbn; [reflexivity | now rewrite IH]. Qed.

Lemma replace_pad2 n : 0 <= n <= 99 -> replace_space_T (DateTime.pad 2 n) = DateTime.pad 2 n.
Proof. intros H. apply replace_pad. change (10 ^ Z.of_nat 2) with 100. lia. Qed.

Lemma replace_fmt_tz tz :
  DateTime.valid_tz tz = true ->
  replace_space_T (DateTime.fmt_tz tz) = DateTime.fmt_tz tz.
Proof.
  destruct tz as [off|]; [|reflexivity].
  unfold DateTime.valid_tz, DateTime.fmt_tz. intros H. DateTimeFacts.boolZ.
  assert (Ha : 0 <= Z.abs off / 60 <= 99).
  { split; [apply Z.div_pos; lia|].
    assert (Z.abs off / 60 < 24); [apply Z.div_lt_upper_bound; lia | lia]. }
  assert (Hb : 0 <= Z.abs off mod 60 <= 99).
  { pose proof (Z.mod_pos_bound (Z.abs off) 60). lia. }
  repeat rewrite replace_append.
  rewrite !replace_pad2 by assumption.
  destruct (off <? 0); reflexivity.
Qed.

(** On a valid timestamp, [str(d).replace(' ', 'T')] is [d.isoformat('T')]. *)
Lemma replace_str d :
  DateTime.valid d = true ->
  replace_space_T (DateTime.str d) = DateTime.isoformat "T"%char d.
Proof.
  intros Hv. pose proof Hv as Hv'.
  destruct d as [y mo da h mi se us tz].
  unfold DateTime.valid in Hv'.
  cbn [DateTime.year DateTime.month DateTime.day DateTime.hour DateTime.minute
       DateTime.second DateTime.microsecond DateTime.tzinfo] in Hv'.
  DateTimeFacts.boolZ.
  pose proof (DateTimeFacts.days_in_month_bounds y mo).
  unfold DateTime.str, DateTime.isoformat, DateTime.fmt_date, DateTime.fmt_time.
  cbn [DateTime.year DateTime.month DateTime.day DateTime.hour DateTime.minute
       DateTime.second DateTime.microsecond DateTime.tzinfo].
  rewrite replace_append. cbn [replace_space_T].
  repeat rewrite replace_append.
  rewrite !replace_pad2 by lia.
  rewrite replace_fmt_tz by assumption.
  assert (Hyear : replace_space_T (DateTime.pad 4 y) = DateTime.pad 4 y).
  { apply replace_pad. change (10 ^ Z.of_nat 4) with 10000. lia. }
  rewrite Hyear.
  destruct (us =? 0).
  - reflexivity.
  - rewrite replace_append.
    assert (Hus : replace_space_T (DateTime.pad 6 us) = DateTime.pad 6 us).
    { apply replace_pad. change (10 ^ Z.of_nat 6) with 1000000. lia. }
    rewrite Hus. reflexivity.
Qed.

Example str_of_aware_datetime :
  DateTime.str (DateTime.mkDatetime 2024 1 1 0 0 2 0 (Some 0)) = "2024-01-01 00:00:02+00:00".
Proof. reflexivity. Qed.

Example parse_iso_with_fraction_and_offset :
  DateTime.parse_iso "2024-01-01T00:00:03.000120-05:30"
  = Some (DateTime.mkDatetime 2024 1 1 0 0 3 120 (Some (-330))).
Proof. reflexivity. Qed.

Example add_second_rolls_over :
  DateTime.add_second (DateTime.mkDatetime 2023 12 31 23 59 59 7 None)
  = Ok (DateTime.mkDatetime 2024 1 1 0 0 0 7 None)
  /\ DateTime.add_second (DateTime.mkDatetime 2024 2 28 23 59 59 0 None)
  = Ok (DateTime.mkDatetime 2024 2 29 0 0 0 0 None)
  /\ DateTime.add_second (DateTime.mkDatetime 9999 12 31 23 59 59 0 None)
  = Raise OverflowError.
Proof. repeat split. Qed.

Example quote_timestamp :
  quote "2024-01-01T00:00:03+00:00" = "2024-01-01T00%3A00%3A03%2B00%3A00".
Proof. reflexivity. Qed.

End UrllibFacts.

(* ===================================================================== *)
(** * The paginating fetcher                                              *)
(* ===================================================================== *)

Module AuthApiFacts.
Import AuthApi Reference.

Section Facts.
Context {libs : Libs} {net : Upstream}.

Lemma join_cons sep x y rest :
  join sep (x :: y :: rest) = (x ++ sep ++ join sep (y :: rest))%string.
Proof. reflexivity. Qed.

Lemma build_loop_query : forall filters api_url,
  _build_api_url_loop filters api_url (Z.of_nat (List.length filters))
  = (api_url ++ query filters)%string.
Proof.
  induction filters as [|f rest IH]; intros api_url.
  - cbn. now rewrite DateTimeFacts.append_nil_r.
  - cbn [_build_api_url_loop List.length].
    replace (Z.of_nat (S (List.length rest)) - 1) with (Z.of_nat (List.length rest)) by lia.
    rewrite IH. unfold query.
    destruct rest as [|g rest'].
    + cbn. rewrite !DateTimeFacts.append_nil_r. reflexivity.
    + replace (Z.of_nat (List.length (g :: rest')) >? 0) with true
        by (symmetry; apply Z.gtb_lt; cbn [List.length]; lia).
      cbn [map]. rewrite join_cons.
      generalize (join "&" (key_value g :: map key_value rest')). intros q.
      unfold key_value. repeat rewrite DateTimeFacts.append_assoc. reflexivity.
Qed.

(** C3 (as amended): for every fetcher, the request URL is the configured
    base URL followed directly by the filters as [key=value] pairs in list
    order, one [&] between consecutive pairs and none after the last; no
    [?] is inserted, and with no filters the result is the base URL. *)
Theorem build_api_url_query (self : t) :
  _build_api_url self = (_url self ++ query (_filters self))%string
  /\ _build_api_url (set_filters self []) = _url self.
Proof.
  split.
  - unfold _build_api_url. apply build_loop_query.
  - reflexivity.
Qed.

Lemma overwrite_spec name v : forall filters,
  match overwrite_start_date name v filters with
  | Some after =>
      exists pre f post,
        filters = (pre ++ f :: post)%list /\ ApiFilter.key f = name /\
        Forall (fun g => ApiFilter.key g <> name) pre /\
        after = (pre ++ ApiFilter.mk name v :: post)%list
  | None => Forall (fun g => ApiFilter.key g <> name) filters
  end.
Proof.
  induction filters as [|f rest IH]; cbn [overwrite_start_date].
  - constructor.
  - destruct (String.eqb (ApiFilter.key f) name) eqn:E; cbn [negb].
    + apply String.eqb_eq in E. exists [], f, rest. rewrite E.
      repeat split; constructor.
    + apply String.eqb_neq in E.
      destruct (overwrite_start_date name v rest) as [after|].
      * destruct IH as (pre & g & post & -> & Hk & Hpre & ->).
        exists (f :: pre), g, post. repeat split; try assumption.
        constructor; assumption.
      * constructor; assumption.
Qed.

Lemma get_last_start_date_app name v : forall pre post,
  Forall (fun g => ApiFilter.key g <> name) pre ->
  get_last_start_date_loop name (pre ++ ApiFilter.mk name v :: post) = Some v.
Proof.
  induction pre as [|f pre IH]; intros post H; cbn.
  - rewrite String.eqb_refl. reflexivity.
  - inversion H as [|? ? Hf Hpre]; subst.
    apply String.eqb_neq in Hf. rewrite Hf. cbn. apply IH. assumption.
Qed.

Lemma update_sets_cursor self v :
  _get_new_start_date self = Ok v ->
  exists self',
    update_start_date_filter self = Ok self' /\
    cursor_set (_start_date_name self) v (_filters self) (_filters self') /\
    get_last_start_date self' = Some v /\
    _current_data_last_date self' = _current_data_last_date self.
Proof.
  intros Hv. unfold update_start_date_filter. rewrite Hv.
  pose proof (overwrite_spec (_start_date_name self) v (_filters self)) as Ho.
  destruct (overwrite_start_date _ _ _) as [after|].
  - destruct Ho as (pre & f & post & E & Hk & Hpre & ->).
    eexists. split; [reflexivity|]. cbn.
    split; [left; exists pre, f, post; auto|].
    split; [|reflexivity].
    unfold get_last_start_date. cbn. apply get_last_start_date_app. assumption.
  - eexists. split; [reflexivity|]. cbn.
    split; [right; auto|]. split; [|reflexivity].
    unfold get_last_start_date. cbn. apply get_last_start_date_app. assumption.
Qed.


(** *** Requests and pages *)

Lemma response_world self url w :
  snd (_get_response_from_api self url w) = (w ++ [url])%list.
Proof.
  unfold _get_response_from_api.
  destruct (requests_get _ _) as [st c|e]; [|reflexivity].
  destruct ((400 <=? st) && (st <? 600)); [|reflexivity].
  destruct ((st =? 400) || (st =? 401)); reflexivity.
Qed.

Lemma data_world self url w :
  snd (_get_data_from_api self url w) = (w ++ [url])%list.
Proof.
  unfold _get_data_from_api.
  pose proof (response_world self url w) as H.
  destruct (_get_response_from_api self url w) as [[c| |] w']; cbn in *; assumption.
Qed.

Lemma length_chars s : List.length (chars s) = String.length s.
Proof. induction s as [|c r IH]; cbn; [reflexivity | now rewrite IH]. Qed.

Lemma py_len_iter v c : py_len v = Ok c -> c = Z.of_nat (List.length (py_iter v)).
Proof.
  destruct v; cbn; intros H; try discriminate H; injection H as <-.
  - now rewrite length_chars.
  - reflexivity.
  - now rewrite length_map.
Qed.

Lemma fetched_count self w url p :
  fetched self w url p -> page_count p = Z.of_nat (List.length (py_iter (page_events p))).
Proof.
  unfold fetched, _get_data_from_api.
  destruct (_get_response_from_api self url w) as [[c| |] w']; cbn; try discriminate.
  destruct (json_loads c) as [jd|]; [|discriminate].
  destruct (is_None _); [discriminate|].
  destruct (py_len _) as [n| |] eqn:L; cbn; try discriminate.
  intros H; injection H as _ <- <-. apply py_len_iter; exact L.
Qed.

Lemma events_of_app ps qs : events_of (ps ++ qs) = (events_of ps ++ events_of qs)%list.
Proof. unfold events_of. now rewrite map_app, concat_app. Qed.

Lemma count_of_app ps qs : count_of (ps ++ qs) = count_of ps + count_of qs.
Proof.
  unfold count_of. induction ps as [|p ps IH]; cbn; [reflexivity | rewrite IH; lia].
Qed.

Lemma count_of_length self : forall ps w url seen w' url' seen',
  follows self w url seen ps w' url' seen' ->
  count_of ps = Z.of_nat (List.length (events_of ps)) /\ seen' = seen + count_of ps.
Proof.
  induction 1 as [|w url seen p ps w' url' seen' Hp Hc Hf [IH1 IH2]].
  - cbn. split; lia.
  - change (events_of (p :: ps)) with (py_iter (page_events p) ++ events_of ps)%list.
    change (count_of (p :: ps)) with (page_count p + count_of ps).
    rewrite length_app, Nat2Z.inj_add, <- IH1.
    rewrite <- (fetched_count self w url p Hp). split; lia.
Qed.

(** The requests made while following [ps], and the one about to be made,
    are the first URL and then the links of the pages, in order. *)
Lemma follows_world self : forall ps w url seen w' url' seen',
  follows self w url seen ps w' url' seen' ->
  (w' ++ [url'] = w ++ url :: map page_next ps)%list /\
  List.length w' = (List.length w + List.length ps)%nat.
Proof.
  induction 1 as [|w url seen p ps w' url' seen' Hp Hc Hf [IH1 IH2]].
  - cbn. split; [reflexivity | lia].
  - rewrite IH1, IH2. rewrite <- app_assoc, length_app. cbn. split; [reflexivity | lia].
Qed.

(** The loop on pages that are followed: it consumes one unit of fuel per
    page and carries on from the link of the last one. *)
Lemma loop_follows self : forall ps w url seen w' url' seen',
  follows self w url seen ps w' url' seen' ->
  forall fuel total,
    _get_total_data_loop (List.length ps + fuel) self url total seen w
    = _get_total_data_loop fuel self url' (total ++ events_of ps) seen' w'.
Proof.
  induction 1 as [|w url seen p ps w' url' seen' Hp Hc Hf IH]; intros fuel total.
  - cbn. now rewrite app_nil_r.
  - cbn [List.length Nat.add _get_total_data_loop].
    unfold fetched in Hp. pose proof (data_world self url w) as Hw.
    destruct (_get_data_from_api self url w) as [r w1]. cbn in Hp, Hw. subst r w1.
    cbv zeta. rewrite Hc. rewrite IH.
    change (events_of (p :: ps)) with (py_iter (page_events p) ++ events_of ps)%list.
    now rewrite app_assoc.
Qed.

(** The loop on a page that ends the walk. *)
Lemma loop_last self w url seen p fuel total :
  fetched self w url p ->
  is_None (page_next p) || (seen + page_count p >=? 2500) = true ->
  _get_total_data_loop (S fuel) self url total seen w
  = (Ok ((total ++ py_iter (page_events p))%list, seen + page_count p), (w ++ [url])%list).
Proof.
  intros Hp Hc. cbn [_get_total_data_loop].
  unfold fetched in Hp. pose proof (data_world self url w) as Hw.
  destruct (_get_data_from_api self url w) as [r w1]. cbn in Hp, Hw. subst r w1.
  cbv zeta. rewrite Hc. reflexivity.
Qed.

(** The loop on a page request that fails. *)
Lemma loop_raise self w url seen e fuel total :
  fst (_get_data_from_api self url w) = Raise e ->
  _get_total_data_loop (S fuel) self url total seen w = (Raise e, (w ++ [url])%list).
Proof.
  intros Hp. cbn [_get_total_data_loop].
  pose proof (data_world self url w) as Hw.
  destruct (_get_data_from_api self url w) as [r w1]. cbn in Hp, Hw. subst r w1.
  reflexivity.
Qed.

(** *** The generator *)

Lemma last_date_step_total self ev ld : last_date_step self ev ld <> OutOfFuel.
Proof.
  unfold last_date_step.
  destruct (is_None _); [discriminate|].
  unfold parse_value.
  destruct (_get_json_path_value_from_data _ ev); cbn; try discriminate.
  destruct (parser_parse s) as [d|]; cbn; [|discriminate].
  destruct ld as [l|]; [|discriminate].
  unfold DateTime.lt.
  destruct (DateTime.tzinfo l), (DateTime.tzinfo d); cbn; try discriminate;
    match goal with |- context [?a <? ?b] => destruct (a <? b) end; discriminate.
Qed.

Lemma last_date_loop_total self : forall data last_date,
  _get_last_date_loop self data last_date <> OutOfFuel.
Proof.
  induction data as [|ev rest IH]; intros ld; cbn [_get_last_date_loop].
  - discriminate.
  - pose proof (last_date_step_total self ev ld) as H.
    destruct (last_date_step self ev ld); cbn; [apply IH | discriminate | contradiction].
Qed.

Lemma last_date_loop_app self : forall pre rest ld,
  _get_last_date_loop self (pre ++ rest) ld
  = Py.bind (_get_last_date_loop self pre ld) (_get_last_date_loop self rest).
Proof.
  induction pre as [|ev pre IH]; intros rest ld; cbn [_get_last_date_loop app].
  - reflexivity.
  - destruct (last_date_step self ev ld); cbn; [apply IH | reflexivity | reflexivity].
Qed.

Lemma last_date_step_missing self ev ld :
  jsonpath_find (ApiJsonPaths.data_date (_json_paths self)) ev = [] ->
  last_date_step self ev ld = Raise ApiError.
Proof.
  intros H. unfold last_date_step, _get_json_path_value_from_data. rewrite H. reflexivity.
Qed.

Lemma resume_end self total :
  exists fin self',
    gen_resume self total [] = (fin, self') /\
    (fin = StopIteration \/ exists e, fin = Throw e).
Proof.
  unfold gen_resume, _get_last_date_in_data.
  pose proof (last_date_loop_total self total None) as H.
  destruct (_get_last_date_loop self total None) as [ld|e|].
  - eexists _, _. split; [reflexivity | left; reflexivity].
  - eexists _, _. split; [reflexivity | right; eexists; reflexivity].
  - contradiction.
Qed.

Lemma collect_suspended self total w fuel : forall pending steps,
  (List.length pending < steps)%nat ->
  collect steps fuel self (GenSuspended total pending) w
  = (map json_dumps pending, fst (gen_resume self total []),
     snd (gen_resume self total []), w).
Proof.
  induction pending as [|ev rest IH]; intros steps Hs.
  - destruct steps as [|steps]; [cbn in Hs; lia|].
    cbn [collect gen_next map].
    destruct (resume_end self total) as (fin & self' & E & [->| [e ->]]);
      rewrite E; reflexivity.
  - destruct steps as [|steps]; [cbn in Hs; lia|].
    cbn [collect gen_next gen_resume map].
    rewrite IH by (cbn in Hs; lia). reflexivity.
Qed.

Lemma collect_created self w fuel steps total n w' :
  _get_total_data_from_api fuel self w = (Ok (total, n), w') ->
  (List.length total < steps)%nat ->
  exists fin self',
    collect steps fuel self GenCreated w = (map json_dumps total, fin, self', w') /\
    (fin = StopIteration \/ exists e, fin = Throw e).
Proof.
  intros Ht Hs.
  destruct steps as [|steps]; [lia|].
  cbn [collect gen_next]. rewrite Ht.
  destruct total as [|ev rest].
  - eexists _, _. split; [reflexivity | left; reflexivity].
  - cbn [gen_resume map].
    rewrite collect_suspended by (cbn in Hs; lia).
    destruct (resume_end self (ev :: rest)) as (fin & self' & E & Hfin).
    rewrite E. cbn [fst snd]. eexists _, _. split; [reflexivity | exact Hfin].
Qed.

(** C2: when the walk from the request URL follows the pages [ps] and then
    fetches a page [p] that ends it (no next link, or the events so far
    reach 2500, whatever its next link), [fetch_data] yields the
    serialized events of [ps] and of [p] in page order and in their order
    within each page, as many as the page counts add up to, makes one
    request per page and none after [p], and ends without running out of
    steps. *)
Theorem fetch_data_yields_pages (self : t) (w w' : World) (url' : json) (seen' : Z)
    (ps : list page) (p : page) (steps fuel : nat) :
  follows self w (JStr (_build_api_url self)) 0 ps w' url' seen' ->
  fetched self w' url' p ->
  is_None (page_next p) || (seen' + page_count p >=? 2500) = true ->
  (List.length ps < fuel)%nat ->
  (List.length (events_of (ps ++ [p])) < steps)%nat ->
  exists fin self',
    collect steps fuel self GenCreated w
    = (map json_dumps (events_of (ps ++ [p])), fin, self',
       (w ++ JStr (_build_api_url self) :: map page_next ps)%list) /\
    (fin = StopIteration \/ exists e, fin = Throw e) /\
    Z.of_nat (List.length (map json_dumps (events_of (ps ++ [p])))) = count_of (ps ++ [p]) /\
    Forall (fun q => page_count q = Z.of_nat (List.length (py_iter (page_events q))))
      (ps ++ [p]).
Proof.
  intros Hf Hp Hc Hfuel Hsteps.
  destruct (count_of_length self _ _ _ _ _ _ _ Hf) as [Hn Hseen].
  destruct (follows_world self _ _ _ _ _ _ _ Hf) as [Hw _].
  assert (Ht : _get_total_data_from_api fuel self w
               = (Ok (events_of (ps ++ [p]), count_of (ps ++ [p])),
                  (w ++ JStr (_build_api_url self) :: map page_next ps)%list)).
  { unfold _get_total_data_from_api.
    replace fuel with (List.length ps + S (fuel - S (List.length ps)))%nat by lia.
    rewrite (loop_follows self _ _ _ _ _ _ _ Hf).
    rewrite (loop_last self _ _ _ p _ _ Hp Hc).
    rewrite Hw, events_of_app, count_of_app, Hseen. cbn.
    rewrite app_nil_r. repeat f_equal. lia. }
  destruct (collect_created self w fuel steps _ _ _ Ht Hsteps) as (fin & self' & Hcol & Hfin).
  exists fin, self'. repeat split; try assumption.
  - rewrite length_map, events_of_app, count_of_app, length_app, Nat2Z.inj_add, <- Hn.
    cbn. unfold events_of. cbn. rewrite app_nil_r.
    rewrite (fetched_count self _ _ _ Hp). lia.
  - apply Forall_app. split.
    + clear - Hf. induction Hf as [|w url seen q qs w' url' seen' Hq _ _ IH];
        constructor; [exact (fetched_count self _ _ _ Hq) | exact IH].
    + constructor; [exact (fetched_count self _ _ _ Hp) | constructor].
Qed.

Lemma last_date_step_exn self ev ld e :
  last_date_step self ev ld = Raise e -> date_exn e.
Proof.
  unfold last_date_step, date_exn.
  destruct (is_None _); [intros H; injection H as <-; auto|].
  unfold parse_value.
  destruct (_get_json_path_value_from_data _ ev); cbn;
    try (intros H; injection H as <-; auto).
  destruct (parser_parse s) as [d|]; cbn; [|intros H; injection H as <-; auto].
  destruct ld as [l|]; [|discriminate].
  unfold DateTime.lt.
  destruct (DateTime.tzinfo l), (DateTime.tzinfo d); cbn;
    try (intros H; injection H as <-; auto);
    match goal with |- context [?a <? ?b] => destruct (a <? b) end; discriminate.
Qed.

Lemma last_date_loop_exn self e : forall data ld,
  _get_last_date_loop self data ld = Raise e -> date_exn e.
Proof.
  induction data as [|ev rest IH]; intros ld; cbn [_get_last_date_loop].
  - discriminate.
  - destruct (last_date_step self ev ld) as [ld'|e'|] eqn:E; cbn.
    + apply IH.
    + intros H; injection H as <-. exact (last_date_step_exn self ev ld e' E).
    + discriminate.
Qed.

Lemma last_date_step_some self ev ld r :
  last_date_step self ev ld = Ok r -> exists T, r = Some T.
Proof.
  unfold last_date_step.
  destruct (is_None _); [discriminate|].
  destruct (parse_value _) as [d| |]; cbn; try discriminate.
  destruct ld as [l|]; [|intros H; injection H as <-; eexists; reflexivity].
  destruct (DateTime.lt l d) as [[]| |]; cbn; try discriminate;
    intros H; injection H as <-; eexists; reflexivity.
Qed.

Lemma last_date_loop_some self : forall data ld r,
  _get_last_date_loop self data ld = Ok r ->
  data <> [] \/ ld <> None ->
  exists T, r = Some T.
Proof.
  induction data as [|ev rest IH]; intros ld r; cbn [_get_last_date_loop].
  - intros H [Hd | Hl]; [contradiction|]. injection H as <-.
    destruct ld as [T|]; [eexists; reflexivity | contradiction].
  - destruct (last_date_step self ev ld) as [ld'| |] eqn:E; cbn; try discriminate.
    destruct (last_date_step_some self ev ld ld' E) as [T ->].
    intros H _. apply (IH (Some T) r H). right. discriminate.
Qed.

(** A generator that finishes over at least one event stores [str(T)] for
    a timestamp [T]: the last date that [update_start_date_filter] reads. *)
Lemma generator_stores_last_date self total self' :
  gen_resume self total [] = (StopIteration, self') ->
  total <> [] ->
  exists T, _current_data_last_date self' = Some (DateTime.str T).
Proof.
  unfold gen_resume, _get_last_date_in_data.
  destruct (_get_last_date_loop self total None) as [ld|e|] eqn:E; try discriminate.
  intros H Hne. injection H as <-.
  destruct (last_date_loop_some self total None ld E (or_introl Hne)) as [T ->].
  exists T. reflexivity.
Qed.

(** What resuming the generator at the loop head can do. *)
Lemma gen_resume_cases self total pending :
  match gen_resume self total pending with
  | (Yield item g, self') =>
      self' = self /\
      exists ev rest, pending = ev :: rest /\ g = GenSuspended total rest
  | (StopIteration, self') =>
      pending = [] /\ exists d, self' = set_current_data_last_date self (Some d)
  | (Throw e, self') => self' = self /\ pending = [] /\ date_exn e
  | (Starved, _) => False
  end.
Proof.
  destruct pending as [|ev rest]; cbn [gen_resume].
  - unfold _get_last_date_in_data.
    pose proof (last_date_loop_total self total None) as Ht.
    destruct (_get_last_date_loop self total None) as [ld|e|] eqn:E.
    + split; [reflexivity | eexists; reflexivity].
    + repeat split. exact (last_date_loop_exn self e total None E).
    + contradiction.
  - split; [reflexivity | eexists _, _; split; reflexivity].
Qed.

(** A [next()] never touches the filters or the start-date key. *)
Lemma gen_next_config fuel self g w :
  _filters (snd (fst (gen_next fuel self g w))) = _filters self /\
  _start_date_name (snd (fst (gen_next fuel self g w))) = _start_date_name self.
Proof.
  assert (R : forall total pending,
             _filters (snd (gen_resume self total pending)) = _filters self /\
             _start_date_name (snd (gen_resume self total pending)) = _start_date_name self).
  { intros total pending. pose proof (gen_resume_cases self total pending) as H.
    destruct (gen_resume self total pending) as [[item g'| |e|] self']; cbn.
    - destruct H as [-> _]. split; reflexivity.
    - destruct H as (_ & d & ->). split; reflexivity.
    - destruct H as (-> & _). split; reflexivity.
    - contradiction. }
  destruct g as [|total pending|]; cbn [gen_next].
  - destruct (_get_total_data_from_api fuel self w) as [[[total n]|e|] w']; cbn;
      try (split; reflexivity).
    destruct total as [|ev rest]; [split; reflexivity|].
    pose proof (R (ev :: rest) (ev :: rest)) as H.
    destruct (gen_resume self (ev :: rest) (ev :: rest)) as [st self']. exact H.
  - pose proof (R total pending) as H.
    destruct (gen_resume self total pending) as [st self']. exact H.
  - split; reflexivity.
Qed.

(** *** Failing page requests *)

Lemma response_api_error self url w status content :
  requests_get (List.length w) url = Response status content ->
  status = 400 \/ status = 401 ->
  fst (_get_data_from_api self url w) = Raise ApiError.
Proof.
  intros Hr Hs. unfold _get_data_from_api, _get_response_from_api. rewrite Hr.
  destruct Hs; subst status; reflexivity.
Qed.

Lemma response_http_error self url w status content :
  requests_get (List.length w) url = Response status content ->
  400 <= status < 600 -> status <> 400 -> status <> 401 ->
  fst (_get_data_from_api self url w) = Raise (HTTPError status).
Proof.
  intros Hr Hs H400 H401. unfold _get_data_from_api, _get_response_from_api. rewrite Hr.
  replace ((400 <=? status) && (status <? 600)) with true
    by (symmetry; apply andb_true_iff; split; [apply Z.leb_le | apply Z.ltb_lt]; lia).
  apply Z.eqb_neq in H400, H401. rewrite H400, H401. reflexivity.
Qed.

Lemma response_transport_error self url w e :
  requests_get (List.length w) url = Failed e ->
  fst (_get_data_from_api self url w) = Raise (exn_of_transport e).
Proof.
  intros Hr. unfold _get_data_from_api, _get_response_from_api. rewrite Hr. reflexivity.
Qed.

Lemma response_no_data self url w status content body :
  requests_get (List.length w) url = Response status content ->
  (400 <=? status) && (status <? 600) = false ->
  json_loads content = Some body ->
  jsonpath_find (ApiJsonPaths.data (_json_paths self)) body = [] ->
  fst (_get_data_from_api self url w) = Raise ApiError.
Proof.
  intros Hr Hs Hl Hf. unfold _get_data_from_api, _get_response_from_api.
  rewrite Hr, Hs, Hl.
  assert (E : _get_json_path_value_from_data (ApiJsonPaths.data (_json_paths self)) body
              = JNull)
    by (unfold _get_json_path_value_from_data; rewrite Hf; reflexivity).
  rewrite E. reflexivity.
Qed.

(** A page request that fails after the pages [ps] were followed makes the
    first [next()] of the generator raise, with nothing yielded and the
    fetcher as it was. *)
Lemma gen_next_raise self w ps w' url' seen' fuel e :
  follows self w (JStr (_build_api_url self)) 0 ps w' url' seen' ->
  (List.length ps < fuel)%nat ->
  fst (_get_data_from_api self url' w') = Raise e ->
  gen_next fuel self GenCreated w = (Throw e, self, (w' ++ [url'])%list).
Proof.
  intros Hf Hfuel He. cbn [gen_next]. unfold _get_total_data_from_api.
  replace fuel with (List.length ps + S (fuel - S (List.length ps)))%nat by lia.
  rewrite (loop_follows self _ _ _ _ _ _ _ Hf).
  rewrite (loop_raise self _ _ _ e _ _ He). reflexivity.
Qed.

(** C8: for every page request of [fetch_data] (the request of [url'],
    reached after following the pages [ps]): a response with status 400 or
    401 makes the generator raise [ApiError]; a response with any other
    error status makes it raise the [HTTPError] itself; an error of the
    transport makes it raise that error, which is not an [ApiError]. *)
Theorem page_request_errors (self : t) (w w' : World) (url' : json) (seen' : Z)
    (ps : list page) (fuel : nat) :
  follows self w (JStr (_build_api_url self)) 0 ps w' url' seen' ->
  (List.length ps < fuel)%nat ->
  (forall status content,
      requests_get (List.length w') url' = Response status content ->
      status = 400 \/ status = 401 ->
      gen_next fuel self GenCreated w = (Throw ApiError, self, (w' ++ [url'])%list))
  /\
  (forall status content,
      requests_get (List.length w') url' = Response status content ->
      400 <= status < 600 -> status <> 400 -> status <> 401 ->
      gen_next fuel self GenCreated w
      = (Throw (HTTPError status), self, (w' ++ [url'])%list))
  /\
  (forall e,
      requests_get (List.length w') url' = Failed e ->
      gen_next fuel self GenCreated w
      = (Throw (exn_of_transport e), self, (w' ++ [url'])%list)
      /\ exn_of_transport e <> ApiError).
Proof.
  intros Hf Hfuel. repeat split.
  - intros status content Hr Hs.
    apply (gen_next_raise self w ps w' url' seen' fuel _ Hf Hfuel).
    exact (response_api_error self url' w' status content Hr Hs).
  - intros status content Hr Hs H400 H401.
    apply (gen_next_raise self w ps w' url' seen' fuel _ Hf Hfuel).
    exact (response_http_error self url' w' status content Hr Hs H400 H401).
  - apply (gen_next_raise self w ps w' url' seen' fuel _ Hf Hfuel).
    exact (response_transport_error self url' w' e H).
  - destruct e; discriminate.
Qed.

(** C9 (as amended): a page whose body has no match for the [data] path
    makes the generator raise [ApiError] at once; an event without a match
    for the [data_date] path makes the generator raise after the events
    were yielded, and never finish normally: the exception is [ApiError]
    when the events before that one went through the date loop without
    error, and otherwise the error of the earlier event. *)
Theorem missing_path_raises (self : t) (w w' : World) (url' : json) (seen' : Z)
    (ps : list page) (fuel : nat) :
  (forall status content body,
      follows self w (JStr (_build_api_url self)) 0 ps w' url' seen' ->
      (List.length ps < fuel)%nat ->
      requests_get (List.length w') url' = Response status content ->
      (400 <=? status) && (status <? 600) = false ->
      json_loads content = Some body ->
      jsonpath_find (ApiJsonPaths.data (_json_paths self)) body = [] ->
      gen_next fuel self GenCreated w = (Throw ApiError, self, (w' ++ [url'])%list))
  /\
  (forall pre event post,
      jsonpath_find (ApiJsonPaths.data_date (_json_paths self)) event = [] ->
      exists e,
        _get_last_date_in_data self (pre ++ event :: post) = Raise e /\
        gen_resume self (pre ++ event :: post) [] = (Throw e, self) /\
        (forall last_date,
            _get_last_date_loop self pre None = Ok last_date -> e = ApiError) /\
        (forall e', _get_last_date_loop self pre None = Raise e' -> e = e')).
Proof.
  split.
  - intros status content body Hf Hfuel Hr Hs Hl Hd.
    apply (gen_next_raise self w ps w' url' seen' fuel _ Hf Hfuel).
    exact (response_no_data self url' w' status content body Hr Hs Hl Hd).
  - intros pre event post Hd.
    unfold gen_resume, _get_last_date_in_data.
    rewrite last_date_loop_app.
    pose proof (last_date_loop_total self pre None) as Ht.
    destruct (_get_last_date_loop self pre None) as [ld|e|]; [| |contradiction].
    + cbn [Py.bind _get_last_date_loop].
      rewrite (last_date_step_missing self event ld Hd). cbn [Py.bind].
      exists ApiError. repeat split; congruence.
    + cbn [Py.bind]. exists e. repeat split; congruence.
Qed.

End Facts.

#[local] Existing Instance Demo.libs.

(** The claim of C3 as written fails: with base [https://api.example/events]
    the URL built is the base followed at once by [limit=100&from=...],
    not base, [?], filters. *)
Lemma build_api_url_no_question_mark :
  _build_api_url Demo.bare_api
    = "https://api.example/eventslimit=100&from=2024-01-01T00:00:00Z"
  /\ _build_api_url Demo.bare_api
     <> (_url Demo.bare_api ++ "?" ++ query (_filters Demo.bare_api))%string.
Proof. split; [reflexivity | discriminate]. Qed.


(** The first page of the example upstreams is followed. *)
Lemma demo_follows_first_page (net : Upstream) :
  @requests_get net 0%nat Demo.first_url = Response 200 "page1" ->
  follows Demo.fresh_api [] (JStr (_build_api_url Demo.fresh_api)) 0
    [Demo.first_page] [Demo.first_url] Demo.second_url 2.
Proof.
  intros H.
  apply (follows_cons Demo.fresh_api [] Demo.first_url 0 Demo.first_page []).
  - unfold fetched, _get_data_from_api, _get_response_from_api.
    cbn [List.length]. rewrite H. reflexivity.
  - reflexivity.
  - apply follows_nil.
Qed.

(** Two pages of two and one events. *)
Lemma fetch_data_yields_pages_witness :
  exists fin self',
    @collect Demo.libs Demo.two_pages 5 2 Demo.fresh_api GenCreated []
    = (["event 1"; "event 2"; "event 3"], fin, self', [Demo.first_url; Demo.second_url]) /\
    (fin = StopIteration \/ exists e, fin = Throw e) /\
    3 = count_of [Demo.first_page; Demo.second_page] /\
    Forall (fun q => page_count q = Z.of_nat (List.length (py_iter (page_events q))))
      [Demo.first_page; Demo.second_page].
Proof.
  exact (@fetch_data_yields_pages Demo.libs Demo.two_pages Demo.fresh_api
           [] [Demo.first_url] Demo.second_url 2 [Demo.first_page] Demo.second_page 5 2
           (demo_follows_first_page Demo.two_pages eq_refl)
           eq_refl eq_refl (le_n 2) (le_n_S _ _ (le_S _ _ (le_n 3)))).
Defined.

(** A page that takes the count from 2499 to 2501 is kept whole, and its
    link is not followed: two requests, 2501 items. *)
Example cap_checked_after_page :
  match @collect Demo.libs Demo.over_the_cap 3000 10 Demo.fresh_api GenCreated [] with
  | (items, fin, _, requests) =>
      List.length items = 2501%nat /\ fin = StopIteration /\
      requests = [Demo.first_url; JStr "https://api.example/events?page=1"]
  end.
Proof. vm_compute. repeat split. Qed.

(** A second page answered with 401, with 503, and not answered. *)
Lemma page_request_errors_witness :
  @gen_next Demo.libs Demo.then_unauthorized 2 Demo.fresh_api GenCreated []
    = (Throw ApiError, Demo.fresh_api, [Demo.first_url; Demo.second_url])
  /\ @gen_next Demo.libs Demo.then_unavailable 2 Demo.fresh_api GenCreated []
    = (Throw (HTTPError 503), Demo.fresh_api, [Demo.first_url; Demo.second_url])
  /\ @gen_next Demo.libs Demo.then_unreachable 2 Demo.fresh_api GenCreated []
    = (Throw ConnectionError, Demo.fresh_api, [Demo.first_url; Demo.second_url]).
Proof.
  split; [|split].
  - exact (proj1 (@page_request_errors Demo.libs Demo.then_unauthorized Demo.fresh_api
             [] [Demo.first_url] Demo.second_url 2 [Demo.first_page] 2
             (demo_follows_first_page Demo.then_unauthorized eq_refl) (le_n 2))
             401 "" eq_refl (or_intror eq_refl)).
  - refine (proj1 (proj2 (@page_request_errors Demo.libs Demo.then_unavailable Demo.fresh_api
             [] [Demo.first_url] Demo.second_url 2 [Demo.first_page] 2
             (demo_follows_first_page Demo.then_unavailable eq_refl) (le_n 2)))
             503 "" eq_refl _ _ _); [lia | discriminate | discriminate].
  - exact (proj1 (proj2 (proj2 (@page_request_errors Demo.libs Demo.then_unreachable
             Demo.fresh_api
             [] [Demo.first_url] Demo.second_url 2 [Demo.first_page] 2
             (demo_follows_first_page Demo.then_unreachable eq_refl) (le_n 2)))
             TConnectionError eq_refl)).
Defined.

(** The claim of C9 as written fails: the second event has no match for
    the date path, yet the exception raised is the [TypeError] of the
    first event, whose date is a number. *)
Lemma missing_date_not_always_api_error :
  jsonpath_find "ts" (JObj [("id", JNum 2)]) = []
  /\ @collect Demo.libs Demo.with_numeric_dates 5 2 Demo.fresh_api GenCreated []
     = (["event 1"; "event 2"], Throw TypeError, Demo.fresh_api, [Demo.first_url])
  /\ TypeError <> ApiError.
Proof. split; [reflexivity | split; [reflexivity | discriminate]]. Qed.

(** A second page without [events], and a second event without [ts]. *)
Lemma missing_path_raises_witness :
  @gen_next Demo.libs Demo.then_no_data 2 Demo.fresh_api GenCreated []
    = (Throw ApiError, Demo.fresh_api, [Demo.first_url; Demo.second_url])
  /\ exists e,
      _get_last_date_in_data Demo.fresh_api
        ([Demo.event 1 "2024-01-01T00:00:01+00:00"] ++ JObj [("id", JNum 2)] :: [])
      = Raise e /\ e = ApiError.
Proof.
  pose proof (@missing_path_raises Demo.libs Demo.then_no_data Demo.fresh_api
                [] [Demo.first_url] Demo.second_url 2 [Demo.first_page] 2) as [Ha Hb].
  split.
  - exact (Ha 200 "no_data" _ (demo_follows_first_page Demo.then_no_data eq_refl)
             (le_n 2) eq_refl eq_refl eq_refl eq_refl).
  - destruct (Hb [Demo.event 1 "2024-01-01T00:00:01+00:00"] (JObj [("id", JNum 2)]) []
                eq_refl) as (e & He & _ & Hok & _).
    exists e. split; [exact He | exact (Hok _ eq_refl)].
Defined.

End AuthApiFacts.

(* ===================================================================== *)
(** * The token provider                                                  *)
(* ===================================================================== *)

Module DockerHubFacts.
Import DockerHub Reference.

Section Facts.
Context {issuer : Issuer}.

Lemma refresh_posts self w :
  posts (snd (refresh self w)) = S (posts w).
Proof.
  unfold refresh.
  destruct (requests_post _ _ _) as [|st body]; [reflexivity|].
  destruct ((400 <=? st) && (st <? 600)); [reflexivity|].
  destruct body as [[]|]; try reflexivity.
  cbv zeta. destruct (representable _); reflexivity.
Qed.

Lemma refresh_failure self w :
  refresh_fails (requests_post (posts w) (dockerhub_user self) (dockerhub_token self)) ->
  refresh self w = (Ok JNull, self, error_logged failure_msg (post_made w)).
Proof.
  unfold refresh, refresh_fails.
  destruct (requests_post _ _ _) as [|st body]; [reflexivity|].
  intros [Hs | ->].
  - replace ((400 <=? st) && (st <? 600)) with true
      by (symmetry; apply andb_true_iff; split; [apply Z.leb_le | apply Z.ltb_lt]; lia).
    reflexivity.
  - destruct ((400 <=? st) && (st <? 600)); reflexivity.
Qed.

Lemma not_error_status status :
  ~ 400 <= status < 600 -> (400 <=? status) && (status <? 600) = false.
Proof.
  intros Hs. apply andb_false_iff.
  destruct (Z.leb_spec 400 status); [right; apply Z.ltb_ge; lia | left; reflexivity].
Qed.

Lemma refresh_success self w status fields :
  requests_post (posts w) (dockerhub_user self) (dockerhub_token self)
  = PostResponse status (Some (JObj fields)) ->
  ~ 400 <= status < 600 ->
  representable (datetime_now (clock_reads w) + minutes (refresh_token_interval self))
  = true ->
  refresh self w
  = (Ok (dict_get "token" fields),
     mk (dockerhub_user self) (dockerhub_token self) (refresh_token_interval self)
        (dict_get "token" fields)
        (Some (datetime_now (clock_reads w) + minutes (refresh_token_interval self))),
     clock_read (post_made w)).
Proof.
  intros Hp Hs Hr. unfold refresh. rewrite Hp, (not_error_status status Hs).
  cbv zeta. cbn [clock_reads post_made]. rewrite Hr. reflexivity.
Qed.

(** The sum of the clock and the interval is out of range: the token of
    the response is stored, the expiry is not, and [OverflowError], which
    the [except] clause does not catch, leaves the call. *)
Lemma refresh_overflow self w status fields :
  requests_post (posts w) (dockerhub_user self) (dockerhub_token self)
  = PostResponse status (Some (JObj fields)) ->
  ~ 400 <= status < 600 ->
  representable (datetime_now (clock_reads w) + minutes (refresh_token_interval self))
  = false ->
  refresh self w
  = (Raise OverflowError,
     mk (dockerhub_user self) (dockerhub_token self) (refresh_token_interval self)
        (dict_get "token" fields) (_token_expiry self),
     clock_read (post_made w)).
Proof.
  intros Hp Hs Hr. unfold refresh. rewrite Hp, (not_error_status status Hs).
  cbv zeta. cbn [clock_reads post_made]. rewrite Hr. reflexivity.
Qed.

(** With no usable cache the call is the refresh, after the clock was read
    if there is a token to check. *)
Lemma unusable_refresh self w :
  cache_unusable self (datetime_now (clock_reads w)) ->
  _get_jwt_token self w
  = refresh self (if truthy (_jwt_token self) then clock_read w else w).
Proof.
  unfold cache_unusable, _get_jwt_token.
  intros [Hf | (Ht & expiry & He & Hle)].
  - rewrite Hf. reflexivity.
  - rewrite Ht, He. apply Z.ltb_ge in Hle. rewrite Hle. reflexivity.
Qed.

(** C5 (as amended): when the cache is of no use and the refresh attempt
    fails (the POST raises, the response has a 4xx or 5xx status, or its
    body does not decode), [_get_jwt_token] makes the one POST, logs the
    failure and returns [None]; the cached token and expiry stay as they
    were. *)
Theorem refresh_failure_returns_none (self : t) (w : World) :
  cache_unusable self (datetime_now (clock_reads w)) ->
  refresh_fails (requests_post (posts w) (dockerhub_user self) (dockerhub_token self)) ->
  exists w',
    _get_jwt_token self w = (Ok JNull, self, w') /\
    posts w' = S (posts w) /\
    errors_logged w' = (errors_logged w ++ [failure_msg])%list.
Proof.
  intros Hc Hf. rewrite (unusable_refresh self w Hc).
  destruct (truthy (_jwt_token self)).
  - rewrite (refresh_failure self (clock_read w) Hf).
    eexists. split; [reflexivity | split; reflexivity].
  - rewrite (refresh_failure self w Hf).
    eexists. split; [reflexivity | split; reflexivity].
Qed.

(** C6 (as amended): (reuse) a call made while a token is cached and the
    clock is before its expiry returns that token, leaves the provider as
    it is and makes no POST; so a call that obtains a token followed by a
    call within the interval makes exactly one POST between them, and both
    return the same token.  (expiry) a call made with a cached token at or
    after its expiry makes one more POST and, when that POST is answered
    with a token and the clock plus the refresh interval is a [datetime]
    (between [datetime.min] and [datetime.max]), replaces the cached token
    and the expiry together. *)
Theorem token_reuse_and_expiry (self : t) (w : World) :
  (forall expiry,
      truthy (_jwt_token self) = true ->
      _token_expiry self = Some expiry ->
      datetime_now (clock_reads w) < expiry ->
      _get_jwt_token self w = (Ok (_jwt_token self), self, clock_read w) /\
      posts (clock_read w) = posts w)
  /\
  (forall status fields,
      truthy (_jwt_token self) = false ->
      requests_post (posts w) (dockerhub_user self) (dockerhub_token self)
      = PostResponse status (Some (JObj fields)) ->
      ~ 400 <= status < 600 ->
      truthy (dict_get "token" fields) = true ->
      representable
        (datetime_now (clock_reads w) + minutes (refresh_token_interval self)) = true ->
      datetime_now (S (clock_reads w))
      < datetime_now (clock_reads w) + minutes (refresh_token_interval self) ->
      exists self1 w1 w2,
        _get_jwt_token self w = (Ok (dict_get "token" fields), self1, w1) /\
        _get_jwt_token self1 w1 = (Ok (dict_get "token" fields), self1, w2) /\
        posts w2 = S (posts w))
  /\
  (forall expiry,
      truthy (_jwt_token self) = true ->
      _token_expiry self = Some expiry ->
      expiry <= datetime_now (clock_reads w) ->
      posts (snd (_get_jwt_token self w)) = S (posts w) /\
      forall status fields,
        requests_post (posts w) (dockerhub_user self) (dockerhub_token self)
        = PostResponse status (Some (JObj fields)) ->
        ~ 400 <= status < 600 ->
        representable
          (datetime_now (S (clock_reads w)) + minutes (refresh_token_interval self))
        = true ->
        exists self' w',
          _get_jwt_token self w = (Ok (dict_get "token" fields), self', w') /\
          _jwt_token self' = dict_get "token" fields /\
          _token_expiry self'
          = Some (datetime_now (S (clock_reads w)) + minutes (refresh_token_interval self))).
Proof.
  repeat split.
  - unfold _get_jwt_token. rewrite H, H0.
    apply Z.ltb_lt in H1. rewrite H1. reflexivity.
  - intros status fields Hf Hp Hs Ht Hr Hnow.
    assert (Hc : cache_unusable self (datetime_now (clock_reads w))) by (left; exact Hf).
    eexists _, _, _. split; [|split].
    + rewrite (unusable_refresh self w Hc), Hf.
      exact (refresh_success self w status fields Hp Hs Hr).
    + unfold _get_jwt_token. cbn [_jwt_token _token_expiry clock_reads clock_read post_made].
      rewrite Ht. apply Z.ltb_lt in Hnow. rewrite Hnow. reflexivity.
    + reflexivity.
  - assert (Hc : cache_unusable self (datetime_now (clock_reads w)))
      by (right; split; [assumption | eexists; split; eassumption]).
    rewrite (unusable_refresh self w Hc), H. rewrite refresh_posts. reflexivity.
  - intros status fields Hp Hs Hr.
    assert (Hc : cache_unusable self (datetime_now (clock_reads w)))
      by (right; split; [assumption | eexists; split; eassumption]).
    rewrite (unusable_refresh self w Hc), H.
    rewrite (refresh_success self (clock_read w) status fields Hp Hs Hr).
    eexists _, _. split; [reflexivity | split; reflexivity].
Qed.

End Facts.

(** The claim of C5 as written fails: with the token [old] cached and
    expired, a refresh that fails returns [None], not [old]; and a response
    with the status 300 and a token in its body is not a failure for the
    code, which replaces the cache. *)
Lemma refresh_failure_loses_old_token :
  @_get_jwt_token (Demo.scripted_issuer [PostFailed] [2000]) Demo.old_provider Demo.quiet
  = (Ok JNull, Demo.old_provider, mkWorld 1 1 ["Failed to get JWT token"])
  /\ Ok JNull <> Ok (_jwt_token Demo.old_provider)
  /\ @_get_jwt_token
       (Demo.scripted_issuer [PostResponse 300 (Some (JObj [("token", JStr "new")]))]
          [2000; 2001])
       Demo.old_provider Demo.quiet
     = (Ok (JStr "new"), mk "user" "secret" 30 (JStr "new") (Some 1800002001),
        mkWorld 1 2 []).
Proof. split; [reflexivity | split; [discriminate | reflexivity]]. Qed.

(** The claim of C6 as written fails in its last clause when the clock
    plus the refresh interval is past [datetime.max]: the call at or after
    the expiry makes its POST and replaces the token, but not the expiry,
    and ends in [OverflowError].  First on a provider that obtained its
    first token at the epoch with an interval of 2200000000 minutes and is
    called again in the year 6406; then on a provider whose interval was
    set to 10000000000 minutes after the token [old] was cached.  And a
    call after the expiry whose POST is answered with a 503 replaces
    neither. *)
Lemma token_replaced_without_expiry :
  @Observations.token_calls DemoMore.late_clock 2 DemoMore.patient_provider Demo.quiet
  = ([Ok (JStr "first"); Raise OverflowError],
     mk "user" "secret" 2200000000 (JStr "second") (Some 132000000000000000),
     mkWorld 2 3 [])
  /\ 132000000000000000 <= @datetime_now DemoMore.late_clock 1
  /\ @_get_jwt_token DemoMore.renewing DemoMore.far_provider Demo.quiet
     = (Raise OverflowError, mk "user" "secret" 10000000000 (JStr "new") (Some 1000),
        mkWorld 1 2 [])
  /\ _token_expiry DemoMore.far_provider = Some 1000
  /\ 1000 <= @datetime_now DemoMore.renewing 0
  /\ @_get_jwt_token (Demo.scripted_issuer [PostResponse 503 None] [2000])
       Demo.old_provider Demo.quiet
     = (Ok JNull, Demo.old_provider, mkWorld 1 1 [failure_msg]).
Proof.
  split; [reflexivity|]. split; [cbn; lia|]. split; [reflexivity|].
  split; [reflexivity|]. split; [cbn; lia | reflexivity].
Qed.

(** An expired token and a 503 from the issuing endpoint. *)
Lemma refresh_failure_returns_none_witness :
  exists w',
    @_get_jwt_token (Demo.scripted_issuer [PostResponse 503 None] [2000])
      Demo.old_provider Demo.quiet
    = (Ok JNull, Demo.old_provider, w') /\
    posts w' = 1%nat /\ errors_logged w' = ["Failed to get JWT token"].
Proof.
  refine (@refresh_failure_returns_none
            (Demo.scripted_issuer [PostResponse 503 None] [2000])
            Demo.old_provider Demo.quiet _ _).
  - right. split; [reflexivity|]. exists 1000. split; [reflexivity | cbn; lia].
  - left. cbn. lia.
Defined.

(** A first token reused at reading 900, and an expired one replaced. *)
Lemma token_reuse_and_expiry_witness :
  (exists self1 w1 w2,
      @_get_jwt_token (Demo.scripted_issuer [Demo.granted "jwt"] [500; 900])
        Demo.new_provider Demo.quiet = (Ok (JStr "jwt"), self1, w1) /\
      @_get_jwt_token (Demo.scripted_issuer [Demo.granted "jwt"] [500; 900])
        self1 w1 = (Ok (JStr "jwt"), self1, w2) /\
      posts w2 = 1%nat)
  /\
  (exists self' w',
      @_get_jwt_token (Demo.scripted_issuer [Demo.granted "jwt"] [1000; 1001])
        Demo.old_provider Demo.quiet = (Ok (JStr "jwt"), self', w') /\
      _jwt_token self' = JStr "jwt" /\
      _token_expiry self' = Some (1001 + 1800000000)).
Proof.
  split.
  - refine (proj1 (proj2 (@token_reuse_and_expiry
              (Demo.scripted_issuer [Demo.granted "jwt"] [500; 900])
              Demo.new_provider Demo.quiet))
              200 [("token", JStr "jwt")] eq_refl eq_refl _ eq_refl eq_refl _); cbn; lia.
  - refine (proj2 (proj2 (proj2 (@token_reuse_and_expiry
              (Demo.scripted_issuer [Demo.granted "jwt"] [1000; 1001])
              Demo.old_provider Demo.quiet))
              1000 eq_refl eq_refl _)
              200 [("token", JStr "jwt")] eq_refl _ eq_refl); cbn; lia.
Defined.

End DockerHubFacts.

(* ===================================================================== *)
(** * The manager's cycle                                                 *)
(* ===================================================================== *)

Module ApisManagerFacts.
Import ApisManager Reference.

Section Facts.
Context {libs : Libs} {net : Upstream} {shipper : LogzioShipper}.

(** The [try] block leaves the filters and the start-date key alone. *)
Lemma for_data_config fuel : forall steps g st r st',
  for_data steps fuel g st = (r, st') ->
  AuthApi._filters (try_api st') = AuthApi._filters (try_api st) /\
  AuthApi._start_date_name (try_api st') = AuthApi._start_date_name (try_api st).
Proof.
  induction steps as [|steps IH]; intros g st r st'; cbn [for_data].
  - intros H; injection H as _ <-. split; reflexivity.
  - pose proof (AuthApiFacts.gen_next_config fuel (try_api st) g (try_world st)) as Hc.
    destruct (AuthApi.gen_next fuel (try_api st) g (try_world st)) as [[step api'] w'].
    cbn [fst snd] in Hc.
    destruct step as [item g'| |e|].
    + destruct (add_log_to_send (try_shipper st) item) as [s' [e|]].
      * intros H; injection H as _ <-. exact Hc.
      * intros H. apply IH in H. cbn [try_api] in H.
        destruct H as [H1 H2]. rewrite H1, H2. exact Hc.
    + intros H; injection H as _ <-. exact Hc.
    + intros H; injection H as _ <-. exact Hc.
    + intros H; injection H as _ <-. exact Hc.
Qed.

Lemma try_block_config steps fuel api w s r st :
  try_block steps fuel api w s = (r, st) ->
  AuthApi._filters (try_api st) = AuthApi._filters api /\
  AuthApi._start_date_name (try_api st) = AuthApi._start_date_name api.
Proof.
  unfold try_block.
  destruct (for_data steps fuel AuthApi.GenCreated (mkTry api w s false)) as [r0 st0] eqn:E.
  apply for_data_config in E. cbn [try_api] in E.
  destruct r0.
  - destruct (send_to_logzio (try_shipper st0)) as [s' [e|]];
      intros H; injection H as _ <-; exact E.
  - intros H; injection H as _ <-; exact E.
  - intros H; injection H as _ <-; exact E.
Qed.


(** A sink HTTP error other than 401 leaves [is_data_sent_successfully]
    at [True]: the update is called exactly when an event was seen. *)
Lemma http_error_keeps_success_flag steps fuel api w s status st :
  try_block steps fuel api w s = (Raised (HTTPError status), st) ->
  status <> 401 ->
  update_called (__send_data_to_logzio steps fuel api w s) = is_data_exist st.
Proof.
  intros Ht Hs. unfold __send_data_to_logzio. rewrite Ht.
  apply Z.eqb_neq in Hs. rewrite Hs. unfold after_try.
  rewrite andb_true_r.
  destruct (is_data_exist st); [|reflexivity].
  destruct (AuthApi.update_start_date_filter (try_api st)); reflexivity.
Qed.

(** *** When the update is called *)

Lemma for_data_suspended fuel :
  (forall s x, snd (add_log_to_send s x) = None) ->
  forall steps total pending st r st',
    for_data steps fuel (AuthApi.GenSuspended total pending) st = (r, st') ->
    is_data_exist st = true ->
    match r with
    | Completed =>
        is_data_exist st' = true /\
        exists d, AuthApi._current_data_last_date (try_api st') = Some d
    | Raised e => date_exn e
    | TryStarved => True
    end.
Proof.
  intros Hadd.
  induction steps as [|steps IH]; intros total pending st r st'; cbn [for_data].
  - intros H _; injection H as <- _. exact I.
  - cbn [AuthApi.gen_next].
    pose proof (AuthApiFacts.gen_resume_cases (try_api st) total pending) as Hc.
    destruct (AuthApi.gen_resume (try_api st) total pending) as [step api'].
    destruct step as [item g'| |e|].
    + destruct Hc as (-> & ev & rest & -> & ->).
      pose proof (Hadd (try_shipper st) item) as Hs.
      destruct (add_log_to_send (try_shipper st) item) as [s' o]. cbn in Hs. subst o.
      intros H _. exact (IH _ _ _ _ _ H eq_refl).
    + destruct Hc as (_ & d & ->).
      intros H Hex; injection H as <- <-. cbn. split; [exact Hex | eexists; reflexivity].
    + destruct Hc as (_ & _ & Hd). intros H _; injection H as <- _. exact Hd.
    + contradiction.
Qed.

Lemma for_data_created fuel steps api w s r st' :
  (forall s x, snd (add_log_to_send s x) = None) ->
  for_data steps fuel AuthApi.GenCreated (mkTry api w s false) = (r, st') ->
  is_data_exist st' = true ->
  match r with
  | Completed => exists d, AuthApi._current_data_last_date (try_api st') = Some d
  | Raised e => date_exn e
  | TryStarved => True
  end.
Proof.
  intros Hadd. destruct steps as [|steps]; cbn [for_data].
  - intros H _; injection H as <- _. exact I.
  - cbn [AuthApi.gen_next try_api try_world try_shipper is_data_exist].
    destruct (AuthApi._get_total_data_from_api fuel api w) as [[[total n]|e|] w'].
    + destruct total as [|ev rest].
      * intros H Hex; injection H as _ <-. discriminate Hex.
      * cbn [AuthApi.gen_resume].
        pose proof (Hadd s (json_dumps ev)) as Hs.
        destruct (add_log_to_send s (json_dumps ev)) as [s' o]. cbn in Hs. subst o.
        intros H _.
        pose proof (for_data_suspended fuel Hadd _ _ _ _ _ _ H eq_refl) as Hr.
        destruct r; [exact (proj2 Hr) | exact Hr | exact I].
    + intros H Hex; injection H as _ <-. discriminate Hex.
    + intros H _; injection H as <- _. exact I.
Qed.

Lemma after_try_called st logged flag :
  update_called (after_try st logged flag) = is_data_exist st && flag /\
  (is_data_exist st && flag = true ->
   cycle_end (after_try st logged flag)
   = Py.bind (AuthApi.update_start_date_filter (try_api st)) (fun _ => Ok tt)).
Proof.
  unfold after_try. destruct (is_data_exist st && flag).
  - destruct (AuthApi.update_start_date_filter (try_api st)); split; reflexivity.
  - split; [reflexivity | discriminate].
Qed.

(** [update_start_date_filter] on a fetcher that never stored a last date
    raises ([TypeError]) instead of returning; and with a shipper whose
    [add_log_to_send] does not raise, a cycle calls
    [update_start_date_filter] only after the loop over [fetch_data] ran to
    its end with at least one event seen, on a fetcher that has a last date
    stored. *)
Theorem update_needs_last_date :
  (forall self : AuthApi.t,
      AuthApi._current_data_last_date self = None ->
      AuthApi.update_start_date_filter self = Raise TypeError)
  /\
  (forall steps fuel api w s,
      (forall s x, snd (add_log_to_send s x) = None) ->
      update_called (__send_data_to_logzio steps fuel api w s) = true ->
      exists st,
        for_data steps fuel AuthApi.GenCreated (mkTry api w s false) = (Completed, st) /\
        is_data_exist st = true /\
        (exists d, AuthApi._current_data_last_date (try_api st) = Some d) /\
        cycle_end (__send_data_to_logzio steps fuel api w s)
        = Py.bind (AuthApi.update_start_date_filter (try_api st)) (fun _ => Ok tt)).
Proof.
  split.
  - intros self H. unfold AuthApi.update_start_date_filter, AuthApi._get_new_start_date.
    rewrite H. reflexivity.
  - intros steps fuel api w s Hadd.
    unfold __send_data_to_logzio, try_block.
    destruct (for_data steps fuel AuthApi.GenCreated (mkTry api w s false)) as [r st] eqn:E.
    pose proof (for_data_created fuel steps api w s r st Hadd E) as Hr.
    destruct r as [|e|].
    + assert (Hgo : forall logged s',
                 update_called (after_try (mkTry (try_api st) (try_world st) s'
                                             (is_data_exist st)) logged true) = true ->
                 exists st0, (Completed, st) = (Completed, st0) /\
                   is_data_exist st0 = true /\
                   (exists d, AuthApi._current_data_last_date (try_api st0) = Some d) /\
                   cycle_end (after_try (mkTry (try_api st) (try_world st) s'
                                            (is_data_exist st)) logged true)
                   = Py.bind (AuthApi.update_start_date_filter (try_api st0))
                       (fun _ => Ok tt)).
      { intros logged s' Hu.
        destruct (after_try_called (mkTry (try_api st) (try_world st) s' (is_data_exist st))
                    logged true) as [Hc Hend].
        rewrite Hc in Hu. cbn [is_data_exist try_api] in *.
        exists st. split; [reflexivity|].
        assert (Hex : is_data_exist st = true)
          by (rewrite andb_true_r in Hu; exact Hu).
        split; [exact Hex|]. split; [exact (Hr Hex) | exact (Hend Hu)]. }
      destruct (send_to_logzio (try_shipper st)) as [s' [e|]].
      * destruct e; cbn match; try (intros Hu; discriminate Hu);
          try (intros Hu; exfalso; revert Hu; unfold after_try;
               cbn [is_data_exist]; rewrite andb_false_r; discriminate).
        destruct (status =? 401); [intros Hu; discriminate Hu | apply Hgo].
      * apply Hgo.
    + intros Hu. exfalso.
      assert (Hflag : forall logged, update_called (after_try st logged true) = true ->
                        is_data_exist st = true).
      { intros logged H. destruct (after_try_called st logged true) as [Hc _].
        rewrite Hc, andb_true_r in H. exact H. }
      assert (Hoff : forall logged, update_called (after_try st logged false) = false).
      { intros logged. destruct (after_try_called st logged false) as [Hc _].
        rewrite Hc, andb_false_r. reflexivity. }
      destruct e; cbn match in Hu; try discriminate Hu;
        try (rewrite Hoff in Hu; discriminate Hu).
      destruct (status =? 401); [discriminate Hu|].
      destruct (Hr (Hflag _ Hu)) as [H | [H | H]]; discriminate H.
    + intros Hu. discriminate Hu.
Qed.

End Facts.

#[local] Existing Instance Demo.libs.

(** C1 fails on the code: the single-page upstream yields two events, the
    flush raises an HTTP 500, and the cycle logs the failure, sends no
    SIGTERM and calls [update_start_date_filter]: the cursor moves from
    [2024-01-01T00:00:00Z] to one second past the last event. *)
Theorem cursor_advances_after_sink_http_500 :
  update_called (Demo.run_cycle (Some (HTTPError 500))) = true /\
  sigterm_sent (Demo.run_cycle (Some (HTTPError 500))) = false /\
  errors_logged (Demo.run_cycle (Some (HTTPError 500))) = [failed_msg] /\
  AuthApi.get_last_start_date Demo.fresh_api = Some "2024-01-01T00:00:00Z" /\
  AuthApi.get_last_start_date (api_after (Demo.run_cycle (Some (HTTPError 500))))
  = Some "2024-01-01T00%3A00%3A03%2B00%3A00".
Proof. repeat split. Qed.

(** The sibling clause, for any other exception of the flush, does clear
    the flag: the cursor stays. *)
Example cursor_kept_after_sink_connection_error :
  update_called (Demo.run_cycle (Some ConnectionError)) = false /\
  AuthApi.get_last_start_date (api_after (Demo.run_cycle (Some ConnectionError)))
  = Some "2024-01-01T00:00:00Z".
Proof. repeat split. Qed.

(** And a cycle whose flush succeeds advances it. *)
Example cursor_advances_after_delivery :
  update_called (Demo.run_cycle None) = true /\
  shipper_after (Demo.run_cycle None) = ["event 1"; "event 2"] /\
  AuthApi.get_last_start_date (api_after (Demo.run_cycle None))
  = Some "2024-01-01T00%3A00%3A03%2B00%3A00".
Proof. repeat split. Qed.


(** C10: the state the claim calls unreachable is reached, through the
    [except requests.HTTPError] clause, which leaves
    [is_data_sent_successfully] true.  On a fetcher that never stored a
    last date, with a shipper whose [add_log_to_send] raises an HTTP 500 on
    the first line, the [try] block ends in that error with
    [is_data_exist] set and before [fetch_data] stores a last date; the
    cycle logs, calls [update_start_date_filter], and the [TypeError] of
    the missing last date leaves [__send_data_to_logzio] with the filters
    as they were.  With a flush that raises an HTTP 500 the update is
    called as well, although the delivery failed. *)
Theorem update_reached_without_last_date :
  AuthApi._current_data_last_date Demo.fresh_api = None
  /\ @try_block Demo.libs Demo.one_page (DemoMore.rejecting (HTTPError 500))
       5 2 Demo.fresh_api [] []
     = (Raised (HTTPError 500),
        @mkTry (DemoMore.rejecting (HTTPError 500)) Demo.fresh_api [Demo.first_url] []
          true)
  /\ AuthApi.update_start_date_filter Demo.fresh_api = Raise TypeError
  /\ @__send_data_to_logzio Demo.libs Demo.one_page (DemoMore.rejecting (HTTPError 500))
       5 2 Demo.fresh_api [] []
     = @mkCycle (DemoMore.rejecting (HTTPError 500)) Demo.fresh_api [Demo.first_url] []
         false [failed_msg] true (Raise TypeError)
  /\ @send_to_logzio (Demo.buffering (Some (HTTPError 500))) ["event 1"; "event 2"]
     = (["event 1"; "event 2"], Some (HTTPError 500))
  /\ update_called (Demo.run_cycle (Some (HTTPError 500))) = true.
Proof. repeat split. Qed.

(** The update is called although the flush raised an HTTP 500, so
    delivery had not succeeded. *)
Lemma update_called_after_failed_delivery :
  @send_to_logzio (Demo.buffering (Some (HTTPError 500))) ["event 1"; "event 2"]
  = (["event 1"; "event 2"], Some (HTTPError 500))
  /\ update_called (Demo.run_cycle (Some (HTTPError 500))) = true.
Proof. split; reflexivity. Qed.

(** A fetcher that never fetched, and a cycle that delivers two events. *)
Lemma update_needs_last_date_witness :
  AuthApi.update_start_date_filter Demo.fresh_api = Raise TypeError
  /\ exists st,
      @for_data Demo.libs Demo.one_page (Demo.buffering None) 5 2 AuthApi.GenCreated
        (@mkTry (Demo.buffering None) Demo.fresh_api [] [] false) = (Completed, st) /\
      is_data_exist st = true /\
      (exists d, AuthApi._current_data_last_date (try_api st) = Some d) /\
      cycle_end (Demo.run_cycle None)
      = Py.bind (AuthApi.update_start_date_filter (try_api st)) (fun _ => Ok tt).
Proof.
  split.
  - exact (proj1 (@update_needs_last_date Demo.libs Demo.one_page (Demo.buffering None))
             Demo.fresh_api eq_refl).
  - exact (proj2 (@update_needs_last_date Demo.libs Demo.one_page (Demo.buffering None))
             5%nat 2%nat Demo.fresh_api [] [] (fun _ _ => eq_refl) eq_refl).
Defined.

End ApisManagerFacts.

(* ===================================================================== *)
(** * More on the paginating fetcher                                      *)
(* ===================================================================== *)

Module AuthApiMore.
Import AuthApi Reference Observations.

Section Facts.
Context {libs : Libs} {net : Upstream}.

(** *** The cursor filter *)

Lemma lookup_app name f : forall pre post,
  Forall (fun g => ApiFilter.key g <> name) pre ->
  ApiFilter.key f = name ->
  get_last_start_date_loop name (pre ++ f :: post) = Some (ApiFilter.value f).
Proof.
  induction pre as [|g pre IH]; intros post Hpre Hf; cbn.
  - rewrite Hf, String.eqb_refl. reflexivity.
  - inversion Hpre as [|? ? Hg Hpre']; subst.
    apply String.eqb_neq in Hg. rewrite Hg. cbn. apply IH; [assumption | reflexivity].
Qed.

Lemma lookup_none name : forall filters,
  get_last_start_date_loop name filters = None <->
  Forall (fun g => ApiFilter.key g <> name) filters.
Proof.
  induction filters as [|g rest IH]; cbn.
  - split; [constructor | reflexivity].
  - destruct (String.eqb (ApiFilter.key g) name) eqn:E; cbn.
    + apply String.eqb_eq in E. split; [discriminate|].
      intros H. inversion H; subst. contradiction.
    + apply String.eqb_neq in E. rewrite IH. split.
      * intros H. constructor; assumption.
      * intros H. inversion H; assumption.
Qed.

Lemma overwrite_app name v f : forall pre post,
  Forall (fun g => ApiFilter.key g <> name) pre ->
  ApiFilter.key f = name ->
  overwrite_start_date name v (pre ++ f :: post)
  = Some (pre ++ ApiFilter.mk name v :: post)%list.
Proof.
  induction pre as [|g pre IH]; intros post Hpre Hf; cbn.
  - rewrite Hf, String.eqb_refl. reflexivity.
  - inversion Hpre as [|? ? Hg Hpre']; subst.
    apply String.eqb_neq in Hg. rewrite Hg. cbn. rewrite IH; [reflexivity | assumption | reflexivity].
Qed.

Lemma overwrite_none name v : forall filters,
  Forall (fun g => ApiFilter.key g <> name) filters ->
  overwrite_start_date name v filters = None.
Proof.
  induction filters as [|g rest IH]; intros H; cbn; [reflexivity|].
  inversion H as [|? ? Hg Hrest]; subst.
  apply String.eqb_neq in Hg. rewrite Hg. cbn. rewrite IH by assumption. reflexivity.
Qed.

Lemma other_filters_app name a b :
  other_filters name (a ++ b) = (other_filters name a ++ other_filters name b)%list.
Proof. unfold other_filters. apply filter_app. Qed.

Lemma other_filters_skip name f rest :
  ApiFilter.key f = name ->
  other_filters name (f :: rest) = other_filters name rest.
Proof.
  intros Hf. unfold other_filters. cbn [filter]. rewrite Hf, String.eqb_refl. reflexivity.
Qed.

Lemma other_filters_cursor_set name v before after :
  cursor_set name v before after ->
  other_filters name after = other_filters name before.
Proof.
  intros [(pre & f & post & -> & Hf & _ & ->) | (_ & ->)].
  - rewrite !other_filters_app.
    rewrite (other_filters_skip name f post Hf).
    rewrite (other_filters_skip name (ApiFilter.mk name v) post eq_refl). reflexivity.
  - rewrite other_filters_app.
    rewrite (other_filters_skip name (ApiFilter.mk name v) [] eq_refl).
    apply app_nil_r.
Qed.

(** What an update that returns has done to the filters. *)
Lemma update_shape self self' :
  update_start_date_filter self = Ok self' ->
  exists v,
    _get_new_start_date self = Ok v /\
    self' = set_filters self (_filters self') /\
    cursor_set (_start_date_name self) v (_filters self) (_filters self').
Proof.
  unfold update_start_date_filter.
  destruct (_get_new_start_date self) as [v|e|] eqn:E; try discriminate.
  pose proof (AuthApiFacts.overwrite_spec (_start_date_name self) v (_filters self)) as Ho.
  destruct (overwrite_start_date _ _ _) as [after|].
  - destruct Ho as (pre & f & post & Eb & Hk & Hpre & ->).
    intros H; injection H as <-. exists v. cbn.
    split; [reflexivity|]. split; [reflexivity|]. left. exists pre, f, post. auto.
  - intros H; injection H as <-. exists v. cbn.
    split; [reflexivity|]. split; [reflexivity|]. right. auto.
Qed.

(** X1: an update that returns can be repeated without effect: calling
    [update_start_date_filter] again, with no fetch in between, returns the
    same fetcher. *)
Theorem update_twice_is_update_once (self self' : t) :
  update_start_date_filter self = Ok self' ->
  update_start_date_filter self' = Ok self'.
Proof.
  intros H. destruct (update_shape self self' H) as (v & Hv & Hs & Hc).
  assert (Hv' : _get_new_start_date self' = Ok v).
  { rewrite Hs. destruct self. exact Hv. }
  assert (Ho : overwrite_start_date (_start_date_name self) v (_filters self')
               = Some (_filters self')).
  { destruct Hc as [(pre & f & post & _ & _ & Hpre & ->) | (Hall & ->)].
    - apply overwrite_app; [assumption | reflexivity].
    - apply overwrite_app; [assumption | reflexivity]. }
  unfold update_start_date_filter. rewrite Hv'.
  replace (_start_date_name self') with (_start_date_name self)
    by (rewrite Hs; reflexivity).
  rewrite Ho. rewrite Hs. reflexivity.
Qed.

(** X2: after an update that returns, [get_last_start_date] gives the new
    start date; the filters with another key are the same, in the same
    order; and the list has the same length when a cursor filter was there
    and one more when it was not. *)
Theorem update_then_lookup (self self' : t) :
  update_start_date_filter self = Ok self' ->
  (exists v, _get_new_start_date self = Ok v /\ get_last_start_date self' = Some v) /\
  other_filters (_start_date_name self) (_filters self')
  = other_filters (_start_date_name self) (_filters self) /\
  List.length (_filters self')
  = match get_last_start_date self with
    | Some _ => List.length (_filters self)
    | None => S (List.length (_filters self))
    end.
Proof.
  intros H. destruct (update_shape self self' H) as (v & Hv & Hs & Hc).
  repeat split.
  - exists v. split; [exact Hv|].
    unfold get_last_start_date.
    replace (_start_date_name self') with (_start_date_name self)
      by (rewrite Hs; reflexivity).
    destruct Hc as [(pre & f & post & _ & _ & Hpre & ->) | (Hall & ->)];
      apply (lookup_app _ (ApiFilter.mk (_start_date_name self) v));
      try assumption; reflexivity.
  - exact (other_filters_cursor_set _ _ _ _ Hc).
  - unfold get_last_start_date.
    destruct Hc as [(pre & f & post & Eb & Hf & Hpre & ->) | (Hall & ->)].
    + rewrite Eb, (lookup_app _ f pre post Hpre Hf), !length_app. reflexivity.
    + rewrite (proj2 (lookup_none _ _) Hall), length_app. cbn. lia.
Qed.

(** X3: [get_last_start_date] returns [None] exactly when no filter has
    the start-date key, and otherwise the value of the first filter that
    has it. *)
Theorem last_start_date_first_match (self : t) :
  (get_last_start_date self = None <->
   Forall (fun g => ApiFilter.key g <> _start_date_name self) (_filters self)) /\
  (forall v, get_last_start_date self = Some v ->
     exists pre f post,
       _filters self = (pre ++ f :: post)%list /\
       Forall (fun g => ApiFilter.key g <> _start_date_name self) pre /\
       ApiFilter.key f = _start_date_name self /\ ApiFilter.value f = v).
Proof.
  split; [apply lookup_none|].
  unfold get_last_start_date. generalize (_start_date_name self) as name.
  intros name. induction (_filters self) as [|g rest IH]; intros v; cbn.
  - discriminate.
  - destruct (String.eqb (ApiFilter.key g) name) eqn:E; cbn.
    + apply String.eqb_eq in E. intros H; injection H as <-.
      exists [], g, rest. repeat split; [constructor | exact E].
    + apply String.eqb_neq in E. intros H.
      destruct (IH v H) as (pre & f & post & -> & Hpre & Hf & Hv).
      exists (g :: pre), f, post. repeat split; try assumption.
      constructor; assumption.
Qed.

(** *** What a fetch leaves alone *)

Lemma loop_world_grows self : forall fuel url total seen w,
  exists reqs, snd (_get_total_data_loop fuel self url total seen w) = (w ++ reqs)%list.
Proof.
  induction fuel as [|fuel IH]; intros url total seen w; cbn [_get_total_data_loop].
  - exists []. cbn. now rewrite app_nil_r.
  - pose proof (AuthApiFacts.data_world self url w) as Hw.
    destruct (_get_data_from_api self url w) as [[[[next ev] c]|e|] w1]; cbn in Hw; subst w1.
    + cbv zeta. destruct (is_None next || (seen + c >=? 2500)).
      * exists [url]. reflexivity.
      * destruct (IH next (total ++ py_iter ev)%list (seen + c) (w ++ [url])%list)
          as [reqs Hr].
        exists (url :: reqs). rewrite Hr, <- app_assoc. reflexivity.
    + exists [url]. reflexivity.
    + exists [url]. reflexivity.
Qed.

Lemma gen_resume_same self total pending :
  exists ld, snd (gen_resume self total pending) = set_current_data_last_date self ld.
Proof.
  pose proof (AuthApiFacts.gen_resume_cases self total pending) as H.
  destruct (gen_resume self total pending) as [[item g| |e|] self']; cbn.
  - destruct H as [-> _]. exists (_current_data_last_date self). destruct self; reflexivity.
  - destruct H as (_ & d & ->). eexists; reflexivity.
  - destruct H as (-> & _). exists (_current_data_last_date self). destruct self; reflexivity.
  - contradiction.
Qed.

Lemma gen_next_same fuel self g w :
  (exists ld, snd (fst (gen_next fuel self g w)) = set_current_data_last_date self ld) /\
  (exists reqs, snd (gen_next fuel self g w) = (w ++ reqs)%list).
Proof.
  assert (Hself : exists ld, self = set_current_data_last_date self ld)
    by (exists (_current_data_last_date self); destruct self; reflexivity).
  destruct g as [|total pending|]; cbn [gen_next].
  - unfold _get_total_data_from_api.
    destruct (loop_world_grows self fuel (JStr (_build_api_url self)) [] 0 w) as [reqs Hr].
    destruct (_get_total_data_loop fuel self _ [] 0 w) as [[[total n]|e|] w']; cbn in Hr;
      subst w'; cbn; try (split; [exact Hself | eexists; reflexivity]).
    destruct total as [|ev rest]; cbn; [split; [exact Hself | eexists; reflexivity]|].
    split; [exact Hself | eexists; reflexivity].
  - destruct (gen_resume_same self total pending) as [ld Hld].
    destruct (gen_resume self total pending) as [st self']. cbn in *.
    split; [exists ld; exact Hld | exists []; now rewrite app_nil_r].
  - cbn. split; [exact Hself | exists []; now rewrite app_nil_r].
Qed.

(** X4: whatever the upstream answers and however the generator ends,
    driving [fetch_data] changes nothing of the fetcher but the stored last
    date: the filters, the cursor and the request URL are as before, and
    the requests already made stay in the log. *)
Theorem fetch_leaves_filters (steps fuel : nat) (self : t) (g : generator) (w : World)
    (items : list string) (fin : gen_step) (self' : t) (w' : World) :
  collect steps fuel self g w = (items, fin, self', w') ->
  self' = set_current_data_last_date self (_current_data_last_date self') /\
  _filters self' = _filters self /\
  get_last_start_date self' = get_last_start_date self /\
  _build_api_url self' = _build_api_url self /\
  exists reqs, w' = (w ++ reqs)%list.
Proof.
  intros H.
  assert (Hmain : (exists ld, self' = set_current_data_last_date self ld) /\
                  exists reqs, w' = (w ++ reqs)%list).
  { revert self g w items fin self' w' H.
    induction steps as [|steps IH]; intros self g w items fin self' w'; cbn [collect].
    - intros H; injection H as _ _ <- <-.
      split; [exists (_current_data_last_date self); destruct self; reflexivity
             | exists []; now rewrite app_nil_r].
    - destruct (gen_next_same fuel self g w) as [[ld Hld] [reqs Hreqs]].
      destruct (gen_next fuel self g w) as [[step self1] w1]. cbn in Hld, Hreqs. subst self1 w1.
      destruct step as [item g'| |e|];
        try (intros H; injection H as _ _ <- <-;
             split; [exists ld; reflexivity | exists reqs; reflexivity]).
      destruct (collect steps fuel _ g' _) as [[[items2 fin2] self2] w2] eqn:E.
      intros H; injection H as _ _ <- <-.
      destruct (IH _ _ _ _ _ _ _ E) as [[ld2 Hld2] [reqs2 Hreqs2]].
      split.
      + exists ld2. rewrite Hld2. reflexivity.
      + exists (reqs ++ reqs2)%list. rewrite Hreqs2, app_assoc. reflexivity. }
  destruct Hmain as [[ld ->] Hw]. repeat split; try reflexivity. exact Hw.
Qed.

(** The total of a walk: the pages followed, then the page that ends it. *)
Lemma total_of_walk self w w' url' seen' ps p fuel :
  follows self w (JStr (_build_api_url self)) 0 ps w' url' seen' ->
  fetched self w' url' p ->
  is_None (page_next p) || (seen' + page_count p >=? 2500) = true ->
  (List.length ps < fuel)%nat ->
  _get_total_data_from_api fuel self w
  = (Ok (events_of (ps ++ [p]), count_of (ps ++ [p])),
     (w ++ JStr (_build_api_url self) :: map page_next ps)%list).
Proof.
  intros Hf Hp Hc Hfuel.
  destruct (AuthApiFacts.count_of_length self _ _ _ _ _ _ _ Hf) as [Hn Hseen].
  destruct (AuthApiFacts.follows_world self _ _ _ _ _ _ _ Hf) as [Hw _].
  unfold _get_total_data_from_api.
  replace fuel with (List.length ps + S (fuel - S (List.length ps)))%nat by lia.
  rewrite (AuthApiFacts.loop_follows self _ _ _ _ _ _ _ Hf).
  rewrite (AuthApiFacts.loop_last self _ _ _ p _ _ Hp Hc).
  rewrite Hw, AuthApiFacts.events_of_app, AuthApiFacts.count_of_app, Hseen. cbn.
  rewrite app_nil_r. repeat f_equal. lia.
Qed.

(** X5: a walk that ends without a single event makes [fetch_data] stop at
    the first [next()]: nothing is yielded and the fetcher, its stored last
    date included, is as it was. *)
Theorem fetch_without_events (self : t) (w w' : World) (url' : json) (seen' : Z)
    (ps : list page) (p : page) (steps fuel : nat) :
  follows self w (JStr (_build_api_url self)) 0 ps w' url' seen' ->
  fetched self w' url' p ->
  is_None (page_next p) || (seen' + page_count p >=? 2500) = true ->
  events_of (ps ++ [p]) = [] ->
  (List.length ps < fuel)%nat ->
  (0 < steps)%nat ->
  collect steps fuel self GenCreated w
  = ([], StopIteration, self, (w ++ JStr (_build_api_url self) :: map page_next ps)%list).
Proof.
  intros Hf Hp Hc He Hfuel Hsteps.
  destruct steps as [|steps]; [lia|].
  cbn [collect gen_next].
  rewrite (total_of_walk self w w' url' seen' ps p fuel Hf Hp Hc Hfuel), He.
  reflexivity.
Qed.

(** *** The last date *)

Lemma lt_spec a b r :
  DateTime.lt a b = Ok r -> r = (time_key a <? time_key b) /\ aware a = aware b.
Proof.
  unfold DateTime.lt, time_key, aware.
  destruct (DateTime.tzinfo a), (DateTime.tzinfo b); try discriminate;
    intros H; injection H as <-; split; reflexivity.
Qed.

Lemma lt_not_later a b :
  aware a = aware b -> time_key b <= time_key a -> DateTime.lt a b = Ok false.
Proof.
  unfold DateTime.lt, time_key, aware.
  destruct (DateTime.tzinfo a), (DateTime.tzinfo b); try discriminate;
    intros _ H; f_equal; apply Z.ltb_ge; exact H.
Qed.

Lemma last_date_step_spec self ev ld ld' :
  last_date_step self ev ld = Ok ld' ->
  exists d,
    date_of self ev = Ok d /\
    match ld with
    | None => ld' = Some d
    | Some m =>
        aware m = aware d /\
        ((time_key m < time_key d /\ ld' = Some d) \/
         (time_key d <= time_key m /\ ld' = Some m))
    end.
Proof.
  unfold last_date_step, date_of.
  destruct (is_None _); [discriminate|].
  destruct (parse_value _) as [d| |]; cbn; try discriminate.
  exists d. split; [reflexivity|].
  destruct ld as [m|]; [|injection H as <-; reflexivity].
  destruct (DateTime.lt m d) as [r| |] eqn:E; cbn in H; try discriminate.
  destruct (lt_spec m d r E) as [-> Ha]. split; [exact Ha|].
  destruct (time_key m <? time_key d) eqn:L; injection H as <-.
  - left. split; [apply Z.ltb_lt; exact L | reflexivity].
  - right. split; [apply Z.ltb_ge; exact L | reflexivity].
Qed.

Lemma last_date_loop_max self : forall data ld r,
  _get_last_date_loop self data ld = Ok r ->
  (data <> [] \/ ld <> None) ->
  exists T,
    r = Some T /\
    (ld = Some T \/ exists ev, In ev data /\ date_of self ev = Ok T) /\
    (forall m, ld = Some m -> aware m = aware T /\ time_key m <= time_key T) /\
    (forall ev, In ev data ->
       exists d, date_of self ev = Ok d /\ aware d = aware T /\ time_key d <= time_key T).
Proof.
  induction data as [|ev rest IH]; intros ld r; cbn [_get_last_date_loop].
  - intros H [Hd | Hl]; [contradiction|]. injection H as <-.
    destruct ld as [T|]; [|contradiction].
    exists T. repeat split.
    + left; reflexivity.
    + injection H as <-; reflexivity.
    + injection H as <-; lia.
    + intros ev [].
  - destruct (last_date_step self ev ld) as [ld'| |] eqn:E; cbn; try discriminate.
    intros H _.
    destruct (last_date_step_spec self ev ld ld' E) as (d & Hd & Hcase).
    assert (Hne : rest <> [] \/ ld' <> None).
    { right. destruct ld as [m|]; [destruct Hcase as [_ [[_ ->] | [_ ->]]] | subst ld'];
        discriminate. }
    destruct (IH ld' r H Hne) as (T & -> & Hin & Hprev & Hall).
    exists T. split; [reflexivity|].
    destruct ld as [m|].
    + destruct Hcase as [Ha [[Hlt ->] | [Hle ->]]].
      * destruct (Hprev d eq_refl) as [HaT HkT].
        repeat split.
        -- right. destruct Hin as [Hin | (ev' & Hev & Hd')].
           ++ injection Hin as <-. exists ev. split; [left; reflexivity | exact Hd].
           ++ exists ev'. split; [right; exact Hev | exact Hd'].
        -- injection H0 as <-. congruence.
        -- injection H0 as <-. lia.
        -- intros ev' [<- | Hev]; [exists d; auto | exact (Hall ev' Hev)].
      * destruct (Hprev m eq_refl) as [HaT HkT].
        repeat split.
        -- destruct Hin as [Hin | (ev' & Hev & Hd')].
           ++ left. exact Hin.
           ++ right. exists ev'. split; [right; exact Hev | exact Hd'].
        -- injection H0 as <-. exact HaT.
        -- injection H0 as <-. exact HkT.
        -- intros ev' [<- | Hev]; [|exact (Hall ev' Hev)].
           exists d. repeat split; [exact Hd | congruence | lia].
    + subst ld'. destruct (Hprev d eq_refl) as [HaT HkT].
      repeat split.
      * right. destruct Hin as [Hin | (ev' & Hev & Hd')].
        -- injection Hin as <-. exists ev. split; [left; reflexivity | exact Hd].
        -- exists ev'. split; [right; exact Hev | exact Hd'].
      * discriminate.
      * discriminate.
      * intros ev' [<- | Hev]; [exists d; auto | exact (Hall ev' Hev)].
Qed.

(** X6: when [_get_last_date_in_data] returns on a non-empty list of
    events, what it returns is [str(T)] for the timestamp [T] of one of the
    events, and no event has a later timestamp: every event has a date that
    parses and [T < date] is false for it. *)
Theorem last_date_is_latest (self : t) (data : list json) (s : string) :
  _get_last_date_in_data self data = Ok s ->
  data <> [] ->
  exists T,
    s = DateTime.str T /\
    (exists ev, In ev data /\ date_of self ev = Ok T) /\
    (forall ev, In ev data ->
       exists d, date_of self ev = Ok d /\ DateTime.lt T d = Ok false).
Proof.
  unfold _get_last_date_in_data.
  destruct (_get_last_date_loop self data None) as [r| |] eqn:E; try discriminate.
  intros H Hne. injection H as <-.
  destruct (last_date_loop_max self data None r E (or_introl Hne))
    as (T & -> & Hin & _ & Hall).
  exists T. split; [reflexivity|]. split.
  - destruct Hin as [Hin | Hin]; [discriminate | exact Hin].
  - intros ev Hev. destruct (Hall ev Hev) as (d & Hd & Ha & Hk).
    exists d. split; [exact Hd|]. apply lt_not_later; [symmetry; exact Ha | exact Hk].
Qed.

(** *** Bounds of the walk *)

Lemma follows_cap self : forall ps w url seen w' url' seen',
  follows self w url seen ps w' url' seen' ->
  seen' = seen + count_of ps /\
  Z.of_nat (List.length ps) <= count_of ps + Z.of_nat (List.length
     (filter (fun q => match py_iter (page_events q) with [] => true | _ => false end) ps)) /\
  (ps <> [] -> seen' < 2500).
Proof.
  induction 1 as [|w url seen p ps w' url' seen' Hp Hc Hf (IH1 & IH2 & IH3)].
  - cbn. repeat split; [lia | lia | intros H; contradiction].
  - change (count_of (p :: ps)) with (page_count p + count_of ps).
    pose proof (AuthApiFacts.fetched_count self w url p Hp) as Hn.
    apply orb_false_iff in Hc. destruct Hc as [_ Hc].
    assert (Hlt : seen + page_count p < 2500).
    { destruct (seen + page_count p >=? 2500) eqn:E; [discriminate|].
      rewrite Z.geb_leb in E. apply Z.leb_gt in E. exact E. }
    repeat split.
    + lia.
    + cbn [List.length filter].
      destruct (py_iter (page_events p)) as [|x xs]; cbn [List.length] in *; lia.
    + intros _. destruct ps as [|q qs].
      * inversion Hf; subst. exact Hlt.
      * apply IH3. discriminate.
Qed.

(** X7: the events of one fetch are fewer than 2500 plus the size of the
    page that ends the walk: the pages before it stay below the cap. *)
Theorem fetch_size_bounded (self : t) (w w' : World) (url' : json) (seen' : Z)
    (ps : list page) (p : page) :
  follows self w (JStr (_build_api_url self)) 0 ps w' url' seen' ->
  fetched self w' url' p ->
  Z.of_nat (List.length (events_of (ps ++ [p])))
  < 2500 + Z.of_nat (List.length (py_iter (page_events p))).
Proof.
  intros Hf Hp.
  destruct (follows_cap self _ _ _ _ _ _ _ Hf) as (Hseen & _ & Hcap).
  destruct (AuthApiFacts.count_of_length self _ _ _ _ _ _ _ Hf) as [Hn _].
  assert (He : events_of [p] = py_iter (page_events p))
    by (unfold events_of; cbn; apply app_nil_r).
  rewrite AuthApiFacts.events_of_app, length_app, Nat2Z.inj_add, <- Hn, He.
  destruct ps as [|q qs].
  - change (count_of []) with 0. lia.
  - specialize (Hcap ltac:(discriminate)). lia.
Qed.

(** X8: when every page that is followed holds at least one event, fewer
    than 2500 pages are followed: one fetch makes at most 2500 requests. *)
Theorem fetch_requests_bounded (self : t) (w w' : World) (url' : json) (seen' : Z)
    (ps : list page) :
  follows self w (JStr (_build_api_url self)) 0 ps w' url' seen' ->
  Forall (fun q => py_iter (page_events q) <> []) ps ->
  (List.length ps < 2500)%nat /\ (List.length (w' ++ [url']) <= List.length w + 2500)%nat.
Proof.
  intros Hf Hall.
  destruct (follows_cap self _ _ _ _ _ _ _ Hf) as (Hseen & Hlen & Hcap).
  destruct (AuthApiFacts.follows_world self _ _ _ _ _ _ _ Hf) as [_ Hw].
  assert (Hz : filter (fun q => match py_iter (page_events q) with
                                | [] => true | _ => false end) ps = []).
  { clear - Hall. induction Hall as [|q qs Hq _ IH]; [reflexivity|].
    cbn. destruct (py_iter (page_events q)); [contradiction | exact IH]. }
  rewrite Hz in Hlen. cbn in Hlen.
  assert (Hps : (List.length ps < 2500)%nat).
  { destruct ps as [|q qs]; [cbn; lia|].
    specialize (Hcap ltac:(discriminate)). lia. }
  split; [exact Hps|]. rewrite length_app, Hw. cbn. lia.
Qed.

(** X9: an upstream whose every page is empty and carries a next link
    keeps the loop of [_get_total_data_from_api] going: whatever the
    budget, the loop has not returned when it is used up, and it has made
    as many requests as the budget allowed. *)
Theorem endless_empty_pages (self : t) :
  (forall w url, exists p,
      fetched self w url p /\ page_count p = 0 /\ is_None (page_next p) = false) ->
  forall fuel w,
    fst (_get_total_data_from_api fuel self w) = OutOfFuel /\
    List.length (snd (_get_total_data_from_api fuel self w)) = (List.length w + fuel)%nat /\
    fst (fst (gen_next fuel self GenCreated w)) = Starved.
Proof.
  intros Hup.
  assert (Hloop : forall fuel url total w,
             fst (_get_total_data_loop fuel self url total 0 w) = OutOfFuel /\
             List.length (snd (_get_total_data_loop fuel self url total 0 w))
             = (List.length w + fuel)%nat).
  { induction fuel as [|fuel IH]; intros url total w; cbn [_get_total_data_loop].
    - cbn. split; [reflexivity | lia].
    - destruct (Hup w url) as (p & Hp & Hc & Hn).
      unfold fetched in Hp. pose proof (AuthApiFacts.data_world self url w) as Hw.
      destruct (_get_data_from_api self url w) as [r w1]. cbn in Hp, Hw. subst r w1.
      cbv zeta. rewrite Hn, Hc. cbn [orb].
      replace (0 + 0 >=? 2500) with false by reflexivity.
      destruct (IH (page_next p) (total ++ py_iter (page_events p))%list (w ++ [url])%list)
        as [H1 H2].
      change (0 + 0) with 0. rewrite H1, H2, length_app. cbn. split; [reflexivity | lia]. }
  intros fuel w. unfold _get_total_data_from_api.
  destruct (Hloop fuel (JStr (_build_api_url self)) [] w) as [H1 H2].
  repeat split; try assumption.
  cbn [gen_next]. unfold _get_total_data_from_api.
  destruct (_get_total_data_loop fuel self _ [] 0 w) as [r w1]. cbn in H1. subst r.
  reflexivity.
Qed.


End Facts.

#[local] Existing Instance Demo.libs.

(** The update of the example fetcher, repeated. *)
Lemma update_twice_is_update_once_witness :
  update_start_date_filter DemoMore.updated_api = Ok DemoMore.updated_api.
Proof.
  exact (update_twice_is_update_once Demo.fetched_api DemoMore.updated_api eq_refl).
Defined.

(** The update of the example fetcher, then the lookup. *)
Lemma update_then_lookup_witness :
  (exists v, _get_new_start_date Demo.fetched_api = Ok v /\
             get_last_start_date DemoMore.updated_api = Some v) /\
  other_filters "from" (_filters DemoMore.updated_api)
  = other_filters "from" (_filters Demo.fetched_api) /\
  List.length (_filters DemoMore.updated_api) = 2%nat.
Proof.
  exact (update_then_lookup Demo.fetched_api DemoMore.updated_api eq_refl).
Defined.

(** The cursor of the example fetcher is its second filter. *)
Lemma last_start_date_first_match_witness :
  exists pre f post,
    _filters Demo.fresh_api = (pre ++ f :: post)%list /\
    Forall (fun g => ApiFilter.key g <> "from") pre /\
    ApiFilter.key f = "from" /\ ApiFilter.value f = "2024-01-01T00:00:00Z".
Proof.
  exact (proj2 (last_start_date_first_match Demo.fresh_api) _ eq_refl).
Defined.

(** A fetch of two pages leaves the example fetcher's filters alone. *)
Lemma fetch_leaves_filters_witness :
  set_current_data_last_date Demo.fresh_api (Some "2024-01-01 00:00:03+00:00")
  = set_current_data_last_date Demo.fresh_api (Some "2024-01-01 00:00:03+00:00") /\
  _filters (set_current_data_last_date Demo.fresh_api (Some "2024-01-01 00:00:03+00:00"))
  = _filters Demo.fresh_api /\
  get_last_start_date
    (set_current_data_last_date Demo.fresh_api (Some "2024-01-01 00:00:03+00:00"))
  = get_last_start_date Demo.fresh_api /\
  _build_api_url
    (set_current_data_last_date Demo.fresh_api (Some "2024-01-01 00:00:03+00:00"))
  = _build_api_url Demo.fresh_api /\
  exists reqs, [Demo.first_url; Demo.second_url] = ([] ++ reqs)%list.
Proof.
  exact (@fetch_leaves_filters Demo.libs Demo.two_pages 5 2 Demo.fresh_api GenCreated []
           ["event 1"; "event 2"; "event 3"] StopIteration
           (set_current_data_last_date Demo.fresh_api (Some "2024-01-01 00:00:03+00:00"))
           [Demo.first_url; Demo.second_url] eq_refl).
Defined.

(** A single page without events. *)
Lemma fetch_without_events_witness :
  @collect DemoMore.libs (DemoMore.always (Response 200 "no_events")) 1 1
    Demo.fresh_api GenCreated []
  = ([], StopIteration, Demo.fresh_api, [Demo.first_url]).
Proof.
  exact (@fetch_without_events DemoMore.libs (DemoMore.always (Response 200 "no_events"))
           Demo.fresh_api [] [] (JStr (_build_api_url Demo.fresh_api)) 0 []
           (mkPage JNull (JArr []) 0) 1 1
           (follows_nil Demo.fresh_api [] _ 0) eq_refl eq_refl eq_refl (le_n 1) (le_n 1)).
Defined.

(** The later of two events. *)
Lemma last_date_is_latest_witness :
  exists T,
    "2024-01-01 00:00:02+00:00" = DateTime.str T /\
    (exists ev, In ev DemoMore.two_events /\ date_of Demo.fresh_api ev = Ok T) /\
    (forall ev, In ev DemoMore.two_events ->
       exists d, date_of Demo.fresh_api ev = Ok d /\ DateTime.lt T d = Ok false).
Proof.
  refine (last_date_is_latest Demo.fresh_api DemoMore.two_events
            "2024-01-01 00:00:02+00:00" eq_refl _).
  discriminate.
Defined.

(** The two pages of the example. *)
Lemma fetch_size_bounded_witness :
  Z.of_nat (List.length (events_of ([Demo.first_page] ++ [Demo.second_page])))
  < 2500 + Z.of_nat (List.length (py_iter (page_events Demo.second_page))).
Proof.
  refine (@fetch_size_bounded Demo.libs Demo.two_pages Demo.fresh_api
            [] [Demo.first_url] Demo.second_url 2 [Demo.first_page] Demo.second_page
            (AuthApiFacts.demo_follows_first_page Demo.two_pages eq_refl) _).
  reflexivity.
Defined.

Lemma fetch_requests_bounded_witness :
  (List.length [Demo.first_page] < 2500)%nat /\
  (List.length ([Demo.first_url] ++ [Demo.second_url]) <= List.length (@nil json) + 2500)%nat.
Proof.
  refine (@fetch_requests_bounded Demo.libs Demo.two_pages Demo.fresh_api
            [] [Demo.first_url] Demo.second_url 2 [Demo.first_page]
            (AuthApiFacts.demo_follows_first_page Demo.two_pages eq_refl) _).
  constructor; [discriminate | constructor].
Defined.

(** An upstream that answers every request with the empty page. *)
Lemma endless_empty_pages_witness :
  fst (@_get_total_data_from_api DemoMore.libs
         (DemoMore.always (Response 200 "empty_page")) 7 Demo.fresh_api []) = OutOfFuel /\
  List.length (snd (@_get_total_data_from_api DemoMore.libs
         (DemoMore.always (Response 200 "empty_page")) 7 Demo.fresh_api [])) = 7%nat /\
  fst (fst (@gen_next DemoMore.libs (DemoMore.always (Response 200 "empty_page")) 7
              Demo.fresh_api GenCreated [])) = Starved.
Proof.
  refine (@endless_empty_pages DemoMore.libs (DemoMore.always (Response 200 "empty_page"))
            Demo.fresh_api _ 7%nat []).
  intros w url.
  exists (mkPage (JStr "https://api.example/events?page=again") (JArr []) 0).
  repeat split.
Defined.


End AuthApiMore.

(* ===================================================================== *)
(** * More on the manager's cycle                                         *)
(* ===================================================================== *)

Module ApisManagerMore.
Import ApisManager Reference Observations.

Section Facts.
Context {libs : Libs} {net : Upstream} {shipper : LogzioShipper}.

Lemma update_raises self e :
  AuthApi.update_start_date_filter self = Raise e ->
  e = TypeError \/ e = ValueError \/ e = OverflowError.
Proof.
  unfold AuthApi.update_start_date_filter, AuthApi._get_new_start_date.
  destruct (AuthApi._current_data_last_date self) as [s|];
    [|intros H; injection H as <-; auto].
  destruct (parser_parse s) as [d|]; [|intros H; injection H as <-; auto].
  unfold DateTime.add_second.
  repeat match goal with
  | |- context [if ?c then _ else _] => destruct c
  end;
  try (destruct (AuthApi.overwrite_start_date _ _ _); discriminate).
  intros H; injection H as <-; auto.
Qed.

Lemma after_try_quiet st logged flag :
  sigterm_sent (after_try st logged flag) = false /\
  errors_logged (after_try st logged flag) = logged /\
  shipper_after (after_try st logged flag) = try_shipper st /\
  world_after (after_try st logged flag) = try_world st.
Proof.
  unfold after_try. destruct (is_data_exist st && flag).
  - destruct (AuthApi.update_start_date_filter (try_api st)); repeat split.
  - repeat split.
Qed.

Lemma after_try_end st logged flag e :
  cycle_end (after_try st logged flag) = Raise e ->
  update_called (after_try st logged flag) = true /\
  AuthApi.update_start_date_filter (try_api st) = Raise e.
Proof.
  unfold after_try. destruct (is_data_exist st && flag); [|discriminate].
  destruct (AuthApi.update_start_date_filter (try_api st)) eqn:E; cbn; try discriminate.
  intros H; injection H as <-. split; reflexivity.
Qed.


(** X12: a cycle sends SIGTERM exactly when its [try] block ended with an
    HTTP 401, an invalid-URL or an invalid-scheme error. *)
Theorem sigterm_iff_fatal (steps fuel : nat) (api : AuthApi.t) (w : AuthApi.World)
    (s : shipper_state) :
  sigterm_sent (__send_data_to_logzio steps fuel api w s) = true <->
  exists e st, try_block steps fuel api w s = (Raised e, st) /\ fatal e.
Proof.
  unfold __send_data_to_logzio, fatal.
  destruct (try_block steps fuel api w s) as [[|e0|] st].
  - rewrite (proj1 (after_try_quiet _ _ _)). split; [discriminate|].
    intros (e & st' & H & _). discriminate H.
  - split.
    + destruct e0; cbn match; try rewrite (proj1 (after_try_quiet _ _ _));
        try discriminate.
      * destruct (status =? 401) eqn:E;
          [|rewrite (proj1 (after_try_quiet _ _ _)); discriminate].
        apply Z.eqb_eq in E. subst status. intros _. eexists _, _. split; [reflexivity | auto].
      * intros _. eexists _, _. split; [reflexivity | auto].
      * intros _. eexists _, _. split; [reflexivity | auto].
    + intros (e & st' & H & He). injection H as -> ->.
      destruct He as [-> | [-> | ->]]; reflexivity.
  - split; [discriminate|]. intros (e & st' & H & _). discriminate H.
Qed.

(** A page request that raises ends the [try] block at once. *)
Lemma try_block_page_raise steps fuel api w ps w' url' seen' e s :
  follows api w (JStr (AuthApi._build_api_url api)) 0 ps w' url' seen' ->
  (List.length ps < fuel)%nat -> (0 < steps)%nat ->
  fst (AuthApi._get_data_from_api api url' w') = Raise e ->
  try_block steps fuel api w s = (Raised e, mkTry api (w' ++ [url'])%list s false).
Proof.
  intros Hf Hfuel Hsteps He. unfold try_block.
  destruct steps as [|steps]; [lia|]. cbn [for_data try_api try_world].
  rewrite (AuthApiFacts.gen_next_raise api w ps w' url' seen' fuel e Hf Hfuel He).
  reflexivity.
Qed.

(** X13: an error status of the upstream, the 401 included, does not end
    the process: when a page request is answered with a 4xx or 5xx status
    the manager writes its one error line (the line the fetcher writes to
    its own logger before raising is not part of [errors_logged]), sends
    no SIGTERM, hands nothing to the shipper, calls no update and returns
    with the fetcher as it was. *)
Theorem upstream_error_status_is_not_fatal (steps fuel : nat) (api : AuthApi.t)
    (w w' : AuthApi.World) (url' : json) (seen' : Z) (ps : list page)
    (s : shipper_state) (status : Z) (content : string) :
  follows api w (JStr (AuthApi._build_api_url api)) 0 ps w' url' seen' ->
  (List.length ps < fuel)%nat -> (0 < steps)%nat ->
  requests_get (List.length w') url' = Response status content ->
  400 <= status < 600 ->
  __send_data_to_logzio steps fuel api w s
  = mkCycle api (w' ++ [url'])%list s false [failed_msg] false (Ok tt).
Proof.
  intros Hf Hfuel Hsteps Hr Hs.
  assert (He : exists e, fst (AuthApi._get_data_from_api api url' w') = Raise e /\
                         (e = ApiError \/ (e = HTTPError status /\ status <> 401))).
  { destruct (Z.eq_dec status 400) as [E400|N400];
      [|destruct (Z.eq_dec status 401) as [E401|N401]].
    - exists ApiError. split; [|left; reflexivity].
      exact (AuthApiFacts.response_api_error api url' w' status content Hr (or_introl E400)).
    - exists ApiError. split; [|left; reflexivity].
      exact (AuthApiFacts.response_api_error api url' w' status content Hr (or_intror E401)).
    - exists (HTTPError status). split; [|right; split; [reflexivity | exact N401]].
      exact (AuthApiFacts.response_http_error api url' w' status content Hr Hs N400 N401). }
  destruct He as (e & He & Hcase).
  unfold __send_data_to_logzio.
  rewrite (try_block_page_raise steps fuel api w ps w' url' seen' e s Hf Hfuel Hsteps He).
  destruct Hcase as [-> | [-> Hn]].
  - reflexivity.
  - apply Z.eqb_neq in Hn. rewrite Hn. reflexivity.
Qed.

(** X14: an invalid URL or an invalid scheme met by a page request (as
    with a next link the transport refuses) ends the process like a broken
    destination: the cycle logs, sends SIGTERM and returns without an
    update. *)
Theorem upstream_invalid_url_is_fatal (steps fuel : nat) (api : AuthApi.t)
    (w w' : AuthApi.World) (url' : json) (seen' : Z) (ps : list page)
    (s : shipper_state) (t : transport_error) :
  follows api w (JStr (AuthApi._build_api_url api)) 0 ps w' url' seen' ->
  (List.length ps < fuel)%nat -> (0 < steps)%nat ->
  requests_get (List.length w') url' = Failed t ->
  t = TInvalidURL \/ t = TInvalidSchema ->
  __send_data_to_logzio steps fuel api w s
  = mkCycle api (w' ++ [url'])%list s true [failed_msg] false (Ok tt).
Proof.
  intros Hf Hfuel Hsteps Hr Ht.
  pose proof (AuthApiFacts.response_transport_error api url' w' t Hr) as He.
  unfold __send_data_to_logzio.
  rewrite (try_block_page_raise steps fuel api w ps w' url' seen' _ s Hf Hfuel Hsteps He).
  destruct Ht as [-> | ->]; reflexivity.
Qed.

(** *** The lines handed to the shipper *)

Lemma for_data_lines fuel total : forall pending steps api w s,
  (List.length pending < steps)%nat ->
  for_data steps fuel (AuthApi.GenSuspended total pending) (mkTry api w s true)
  = match enqueue_all s (map json_dumps pending) with
    | (s', Some e) => (Raised e, mkTry api w s' true)
    | (s', None) =>
        match AuthApi.gen_resume api total [] with
        | (AuthApi.Throw e, api') => (Raised e, mkTry api' w s' true)
        | (AuthApi.Starved, api') => (TryStarved, mkTry api' w s' true)
        | (_, api') => (Completed, mkTry api' w s' true)
        end
    end.
Proof.
  induction pending as [|ev rest IH]; intros steps api w s Hs.
  - destruct steps as [|steps]; [cbn in Hs; lia|].
    cbn [for_data AuthApi.gen_next try_api try_world try_shipper is_data_exist
         map enqueue_all].
    pose proof (AuthApiFacts.gen_resume_cases api total []) as Hc.
    destruct (AuthApi.gen_resume api total []) as [[item g| |e|] api'].
    + destruct Hc as (_ & ev & rest & H & _). discriminate H.
    + reflexivity.
    + reflexivity.
    + contradiction.
  - destruct steps as [|steps]; [cbn in Hs; lia|].
    cbn [for_data AuthApi.gen_next AuthApi.gen_resume try_api try_world try_shipper
         is_data_exist map enqueue_all].
    destruct (add_log_to_send s (json_dumps ev)) as [s' [e|]]; [reflexivity|].
    apply IH. cbn in Hs. lia.
Qed.

(** X15: in a cycle whose fetch gives at least one event, whose date loop
    returns and whose shipper takes every line and the flush, the shipper
    is handed the serialized events in their order, then flushed, and only
    then the update is run, on the fetcher that holds the new last date. *)
Theorem cycle_delivers_then_updates (steps fuel : nat) (api : AuthApi.t)
    (w w' : AuthApi.World) (url' : json) (seen' : Z) (ps : list page) (p : page)
    (s s1 s2 : shipper_state) (d : string) :
  follows api w (JStr (AuthApi._build_api_url api)) 0 ps w' url' seen' ->
  fetched api w' url' p ->
  is_None (page_next p) || (seen' + page_count p >=? 2500) = true ->
  events_of (ps ++ [p]) <> [] ->
  AuthApi._get_last_date_in_data api (events_of (ps ++ [p])) = Ok d ->
  enqueue_all s (map json_dumps (events_of (ps ++ [p]))) = (s1, None) ->
  send_to_logzio s1 = (s2, None) ->
  (List.length ps < fuel)%nat ->
  (List.length (events_of (ps ++ [p])) < steps)%nat ->
  __send_data_to_logzio steps fuel api w s
  = after_try
      (mkTry (AuthApi.set_current_data_last_date api (Some d))
         (w ++ JStr (AuthApi._build_api_url api) :: map page_next ps)%list s2 true)
      [] true
  /\ update_called (__send_data_to_logzio steps fuel api w s) = true
  /\ shipper_after (__send_data_to_logzio steps fuel api w s) = s2
  /\ errors_logged (__send_data_to_logzio steps fuel api w s) = []
  /\ sigterm_sent (__send_data_to_logzio steps fuel api w s) = false.
Proof.
  intros Hf Hp Hc Hne Hd Hq Hsend Hfuel Hsteps.
  assert (Hrun : __send_data_to_logzio steps fuel api w s
                 = after_try
                     (mkTry (AuthApi.set_current_data_last_date api (Some d))
                        (w ++ JStr (AuthApi._build_api_url api) :: map page_next ps)%list
                        s2 true) [] true).
  { unfold __send_data_to_logzio, try_block.
    destruct steps as [|steps]; [lia|].
    cbn [for_data AuthApi.gen_next try_api try_world try_shipper is_data_exist].
    rewrite (AuthApiMore.total_of_walk api w w' url' seen' ps p fuel Hf Hp Hc Hfuel).
    destruct (events_of (ps ++ [p])) as [|ev rest] eqn:E; [contradiction|].
    cbn [AuthApi.gen_resume].
    cbn [map enqueue_all] in Hq.
    destruct (add_log_to_send s (json_dumps ev)) as [s' [e|]]; [discriminate Hq|].
    rewrite for_data_lines by (cbn in Hsteps; lia).
    rewrite Hq. cbn [AuthApi.gen_resume]. rewrite Hd.
    cbn [try_shipper try_api try_world is_data_exist]. rewrite Hsend. reflexivity. }
  rewrite Hrun. destruct (after_try_quiet
    (mkTry (AuthApi.set_current_data_last_date api (Some d))
       (w ++ JStr (AuthApi._build_api_url api) :: map page_next ps)%list s2 true) [] true)
    as (Hq1 & Hq2 & Hq3 & _).
  repeat split; try assumption.
  unfold after_try. cbn [is_data_exist andb].
  destruct (AuthApi.update_start_date_filter _); reflexivity.
Qed.

(** X16: a cycle whose fetch gives no event still flushes the shipper,
    and calls no update: the fetcher is as it was. *)
Theorem cycle_without_events (steps fuel : nat) (api : AuthApi.t)
    (w w' : AuthApi.World) (url' : json) (seen' : Z) (ps : list page) (p : page)
    (s : shipper_state) :
  follows api w (JStr (AuthApi._build_api_url api)) 0 ps w' url' seen' ->
  fetched api w' url' p ->
  is_None (page_next p) || (seen' + page_count p >=? 2500) = true ->
  events_of (ps ++ [p]) = [] ->
  (List.length ps < fuel)%nat -> (0 < steps)%nat ->
  shipper_after (__send_data_to_logzio steps fuel api w s) = fst (send_to_logzio s) /\
  update_called (__send_data_to_logzio steps fuel api w s) = false /\
  api_after (__send_data_to_logzio steps fuel api w s) = api /\
  (snd (send_to_logzio s) = None ->
   __send_data_to_logzio steps fuel api w s
   = mkCycle api (w ++ JStr (AuthApi._build_api_url api) :: map page_next ps)%list
       (fst (send_to_logzio s)) false [] false (Ok tt)).
Proof.
  intros Hf Hp Hc He Hfuel Hsteps.
  unfold __send_data_to_logzio, try_block.
  destruct steps as [|steps]; [lia|].
  cbn [for_data AuthApi.gen_next try_api try_world try_shipper is_data_exist].
  rewrite (AuthApiMore.total_of_walk api w w' url' seen' ps p fuel Hf Hp Hc Hfuel), He.
  cbn [try_shipper try_api try_world is_data_exist].
  destruct (send_to_logzio s) as [s' [e|]]; cbn [fst snd].
  - repeat split; try discriminate;
      destruct e; cbn; try reflexivity; destruct (status =? 401); reflexivity.
  - repeat split.
Qed.

(** *** What a cycle does to the filters *)

Lemma after_try_filters st logged flag :
  other_filters (AuthApi._start_date_name (try_api st))
    (AuthApi._filters (api_after (after_try st logged flag)))
  = other_filters (AuthApi._start_date_name (try_api st)) (AuthApi._filters (try_api st)) /\
  (List.length (AuthApi._filters (api_after (after_try st logged flag)))
   <= S (List.length (AuthApi._filters (try_api st))))%nat /\
  AuthApi._start_date_name (api_after (after_try st logged flag))
  = AuthApi._start_date_name (try_api st) /\
  (update_called (after_try st logged flag) = false ->
   AuthApi._filters (api_after (after_try st logged flag)) = AuthApi._filters (try_api st)).
Proof.
  unfold after_try. destruct (is_data_exist st && flag).
  - destruct (AuthApi.update_start_date_filter (try_api st)) as [api'|e|] eqn:E; cbn;
      try (repeat split; try reflexivity; lia).
    destruct (AuthApiMore.update_shape _ _ E) as (v & _ & Hs & Hc).
    repeat split.
    + exact (AuthApiMore.other_filters_cursor_set _ _ _ _ Hc).
    + destruct Hc as [(pre & f & post & -> & _ & _ & ->) | (_ & ->)];
        rewrite !length_app; cbn; lia.
    + rewrite Hs. reflexivity.
    + discriminate.
  - cbn. repeat split; try reflexivity; lia.
Qed.

Lemma cycle_filters steps fuel api w s :
  other_filters (AuthApi._start_date_name api)
    (AuthApi._filters (api_after (__send_data_to_logzio steps fuel api w s)))
  = other_filters (AuthApi._start_date_name api) (AuthApi._filters api) /\
  (List.length (AuthApi._filters (api_after (__send_data_to_logzio steps fuel api w s)))
   <= S (List.length (AuthApi._filters api)))%nat /\
  AuthApi._start_date_name (api_after (__send_data_to_logzio steps fuel api w s))
  = AuthApi._start_date_name api /\
  (update_called (__send_data_to_logzio steps fuel api w s) = false ->
   AuthApi._filters (api_after (__send_data_to_logzio steps fuel api w s))
   = AuthApi._filters api).
Proof.
  unfold __send_data_to_logzio.
  destruct (try_block steps fuel api w s) as [r st] eqn:E.
  destruct (ApisManagerFacts.try_block_config steps fuel api w s r st E) as [Hf Hn].
  assert (Hgo : forall logged flag,
    other_filters (AuthApi._start_date_name api)
      (AuthApi._filters (api_after (after_try st logged flag)))
    = other_filters (AuthApi._start_date_name api) (AuthApi._filters api) /\
    (List.length (AuthApi._filters (api_after (after_try st logged flag)))
     <= S (List.length (AuthApi._filters api)))%nat /\
    AuthApi._start_date_name (api_after (after_try st logged flag))
    = AuthApi._start_date_name api /\
    (update_called (after_try st logged flag) = false ->
     AuthApi._filters (api_after (after_try st logged flag)) = AuthApi._filters api)).
  { intros logged flag.
    destruct (after_try_filters st logged flag) as (H1 & H2 & H3 & H4).
    rewrite Hn, Hf in *. auto. }
  assert (Hstay : forall (c : cycle), api_after c = try_api st ->
    other_filters (AuthApi._start_date_name api) (AuthApi._filters (api_after c))
    = other_filters (AuthApi._start_date_name api) (AuthApi._filters api) /\
    (List.length (AuthApi._filters (api_after c))
     <= S (List.length (AuthApi._filters api)))%nat /\
    AuthApi._start_date_name (api_after c) = AuthApi._start_date_name api /\
    (update_called c = false -> AuthApi._filters (api_after c) = AuthApi._filters api)).
  { intros c ->. rewrite Hf, Hn. repeat split; auto. }
  destruct r as [|e|].
  - apply Hgo.
  - destruct e; cbn match; try apply Hgo; try (apply Hstay; reflexivity).
    destruct (status =? 401); [apply Hstay; reflexivity | apply Hgo].
  - apply Hstay. reflexivity.
Qed.

(** X17: whatever a cycle meets, it leaves every filter with another key
    than the start-date key as it was and in its place, adds at most one
    filter, and changes no filter at all when it calls no update. *)
Theorem cycle_keeps_other_filters (steps fuel : nat) (api : AuthApi.t)
    (w : AuthApi.World) (s : shipper_state) :
  other_filters (AuthApi._start_date_name api)
    (AuthApi._filters (api_after (__send_data_to_logzio steps fuel api w s)))
  = other_filters (AuthApi._start_date_name api) (AuthApi._filters api) /\
  (List.length (AuthApi._filters (api_after (__send_data_to_logzio steps fuel api w s)))
   <= S (List.length (AuthApi._filters api)))%nat /\
  (update_called (__send_data_to_logzio steps fuel api w s) = false ->
   AuthApi._filters (api_after (__send_data_to_logzio steps fuel api w s))
   = AuthApi._filters api).
Proof.
  destruct (cycle_filters steps fuel api w s) as (H1 & H2 & _ & H4). auto.
Qed.

(** *** The worker loop *)

Lemma cursor_filters_none name : forall filters,
  Forall (fun g => ApiFilter.key g <> name) filters -> cursor_filters name filters = [].
Proof.
  induction filters as [|g rest IH]; intros H; [reflexivity|].
  inversion H as [|? ? Hg Hrest]; subst. unfold cursor_filters. cbn.
  apply String.eqb_neq in Hg. rewrite Hg. apply IH. assumption.
Qed.

Lemma cursor_filters_app name a b :
  cursor_filters name (a ++ b) = (cursor_filters name a ++ cursor_filters name b)%list.
Proof. unfold cursor_filters. apply filter_app. Qed.

Lemma cursor_filters_cons name f rest :
  ApiFilter.key f = name ->
  cursor_filters name (f :: rest) = f :: cursor_filters name rest.
Proof.
  intros Hf. unfold cursor_filters. cbn. rewrite Hf, String.eqb_refl. reflexivity.
Qed.

Lemma cursor_set_count name v before after :
  cursor_set name v before after ->
  List.length (cursor_filters name after)
  = Nat.max 1 (List.length (cursor_filters name before)).
Proof.
  intros [(pre & f & post & -> & Hf & Hpre & ->) | (Hall & ->)].
  - rewrite !cursor_filters_app, (cursor_filters_none name pre Hpre).
    rewrite (cursor_filters_cons name f post Hf).
    rewrite (cursor_filters_cons name (ApiFilter.mk name v) post eq_refl). cbn. lia.
  - rewrite cursor_filters_app, (cursor_filters_none name before Hall).
    rewrite (cursor_filters_cons name (ApiFilter.mk name v) [] eq_refl). reflexivity.
Qed.

Lemma split_length name filters :
  List.length filters
  = (List.length (cursor_filters name filters) + List.length (other_filters name filters))%nat.
Proof.
  unfold cursor_filters, other_filters.
  symmetry. apply (filter_length (fun f => String.eqb (ApiFilter.key f) name)).
Qed.

Lemma kept_trans a b c : kept a b -> kept b c -> kept a c.
Proof.
  intros (N1 & O1 & C1) (N2 & O2 & C2). rewrite N1 in *.
  repeat split; [congruence | congruence | lia].
Qed.

Lemma after_try_kept st logged flag : kept (try_api st) (api_after (after_try st logged flag)).
Proof.
  unfold after_try, kept. destruct (is_data_exist st && flag).
  - destruct (AuthApi.update_start_date_filter (try_api st)) as [api'|e|] eqn:E;
      cbn [api_after]; try (repeat split; apply Nat.le_max_r).
    destruct (AuthApiMore.update_shape _ _ E) as (v & _ & Hs & Hc).
    repeat split.
    + rewrite Hs. reflexivity.
    + exact (AuthApiMore.other_filters_cursor_set _ _ _ _ Hc).
    + rewrite (cursor_set_count _ _ _ _ Hc). apply le_n.
  - cbn [api_after]. repeat split; apply Nat.le_max_r.
Qed.

Lemma cycle_kept steps fuel api w s :
  kept api (api_after (__send_data_to_logzio steps fuel api w s)).
Proof.
  unfold __send_data_to_logzio.
  destruct (try_block steps fuel api w s) as [r st] eqn:E.
  destruct (ApisManagerFacts.try_block_config steps fuel api w s r st E) as [Hf Hn].
  assert (Hst : kept api (try_api st)).
  { unfold kept. rewrite Hf, Hn. repeat split; lia. }
  assert (Hgo : forall logged flag, kept api (api_after (after_try st logged flag))).
  { intros logged flag. exact (kept_trans _ _ _ Hst (after_try_kept st logged flag)). }
  destruct r as [|e|].
  - apply Hgo.
  - destruct e; cbn match; try apply Hgo; try exact Hst.
    destruct (status =? 401); [exact Hst | apply Hgo].
  - exact Hst.
Qed.

(** X18: over the whole life of a worker, however many cycles it runs and
    whatever they meet, every cycle leaves the filters with another key
    than the start-date key as they were at the start, and the filter list
    at most one longer than at the start: the cursor is appended once and
    overwritten afterwards. *)
Theorem worker_keeps_filters (waits : list bool) (steps fuel : nat) (api : AuthApi.t)
    (w : AuthApi.World) (s : shipper_state) :
  Forall (fun c =>
            other_filters (AuthApi._start_date_name api) (AuthApi._filters (api_after c))
            = other_filters (AuthApi._start_date_name api) (AuthApi._filters api) /\
            (List.length (AuthApi._filters (api_after c))
             <= S (List.length (AuthApi._filters api)))%nat)
    (fst (ApisManagerLoop.__run_scheduled_tasks waits steps fuel api w s)).
Proof.
  assert (Hall : forall waits api0 w0 s0,
             kept api api0 ->
             Forall (fun c => kept api (api_after c))
               (fst (ApisManagerLoop.__run_scheduled_tasks waits steps fuel api0 w0 s0))).
  { clear waits w s. induction waits as [|set rest IH]; intros api0 w0 s0 H0;
      cbn [ApisManagerLoop.__run_scheduled_tasks];
      pose proof (kept_trans _ _ _ H0 (cycle_kept steps fuel api0 w0 s0)) as Hc.
    - destruct (cycle_end _); cbn; (constructor; [exact Hc | constructor]).
    - destruct (cycle_end _); cbn; try (constructor; [exact Hc | constructor]);
        destruct set; cbn; try (constructor; [exact Hc | constructor]);
        match goal with
        | |- context [ApisManagerLoop.__run_scheduled_tasks rest steps fuel ?a ?b ?c] =>
            pose proof (IH a b c Hc) as Hr;
            destruct (ApisManagerLoop.__run_scheduled_tasks rest steps fuel a b c)
              as [cs broke]
        end; cbn in *; constructor; assumption. }
  assert (H0 : kept api api) by (unfold kept; repeat split; lia).
  eapply Forall_impl; [|exact (Hall waits api w s H0)].
  intros c (_ & Ho & Hc). split; [exact Ho|].
  rewrite (split_length (AuthApi._start_date_name api) (AuthApi._filters (api_after c))).
  rewrite (split_length (AuthApi._start_date_name api) (AuthApi._filters api)).
  rewrite Ho. lia.
Qed.

End Facts.

#[local] Existing Instance Demo.libs.

(** A flush that raises an HTTP 401 ends the [try] block with a fatal
    error. *)
Lemma sigterm_iff_fatal_witness :
  exists e st,
    @try_block Demo.libs Demo.one_page (Demo.buffering (Some (HTTPError 401))) 5 2
      Demo.fresh_api [] [] = (Raised e, st) /\ fatal e.
Proof.
  exact (proj1 (@sigterm_iff_fatal Demo.libs Demo.one_page
                  (Demo.buffering (Some (HTTPError 401))) 5 2 Demo.fresh_api [] [])
           eq_refl).
Defined.

(** A flush that cannot connect: no update, the filters as they were. *)
Lemma cycle_keeps_other_filters_witness :
  AuthApi._filters (api_after (Demo.run_cycle (Some ConnectionError)))
  = AuthApi._filters Demo.fresh_api.
Proof.
  exact (proj2 (proj2 (@cycle_keeps_other_filters Demo.libs Demo.one_page
                         (Demo.buffering (Some ConnectionError)) 5 2 Demo.fresh_api [] []))
           eq_refl).
Defined.


(** A second page answered with 401. *)
Lemma upstream_error_status_is_not_fatal_witness :
  @__send_data_to_logzio Demo.libs Demo.then_unauthorized (Demo.buffering None)
    5 2 Demo.fresh_api [] []
  = @mkCycle (Demo.buffering None) Demo.fresh_api [Demo.first_url; Demo.second_url] []
      false [failed_msg] false (Ok tt).
Proof.
  refine (@upstream_error_status_is_not_fatal Demo.libs Demo.then_unauthorized
            (Demo.buffering None) 5 2 Demo.fresh_api [] [Demo.first_url] Demo.second_url 2
            [Demo.first_page] [] 401 ""
            (AuthApiFacts.demo_follows_first_page Demo.then_unauthorized eq_refl)
            (le_n 2) _ eq_refl _); lia.
Defined.

(** A first request that the transport refuses for its scheme. *)
Lemma upstream_invalid_url_is_fatal_witness :
  @__send_data_to_logzio Demo.libs (DemoMore.always (Failed TInvalidSchema))
    (Demo.buffering None) 5 2 Demo.fresh_api [] []
  = @mkCycle (Demo.buffering None) Demo.fresh_api [Demo.first_url] []
      true [failed_msg] false (Ok tt).
Proof.
  refine (@upstream_invalid_url_is_fatal Demo.libs (DemoMore.always (Failed TInvalidSchema))
            (Demo.buffering None) 5 2 Demo.fresh_api [] []
            (JStr (AuthApi._build_api_url Demo.fresh_api)) 0 [] [] TInvalidSchema
            (follows_nil Demo.fresh_api [] _ 0) _ _ eq_refl (or_intror eq_refl)); cbn; lia.
Defined.

(** The single page of two events, delivered. *)
Lemma cycle_delivers_then_updates_witness :
  update_called (Demo.run_cycle None) = true /\
  shipper_after (Demo.run_cycle None) = ["event 1"; "event 2"] /\
  errors_logged (Demo.run_cycle None) = [] /\
  sigterm_sent (Demo.run_cycle None) = false.
Proof.
  refine (proj2 (@cycle_delivers_then_updates Demo.libs Demo.one_page (Demo.buffering None)
            5 2 Demo.fresh_api [] [] (JStr (AuthApi._build_api_url Demo.fresh_api)) 0 []
            (mkPage JNull (JArr DemoMore.two_events) 2)
            [] ["event 1"; "event 2"] ["event 1"; "event 2"] "2024-01-01 00:00:02+00:00"
            (follows_nil Demo.fresh_api [] _ 0) eq_refl eq_refl _ eq_refl eq_refl eq_refl
            _ _)); [discriminate | cbn; lia | cbn; lia].
Defined.

(** A single page without events: the flush is made all the same. *)
Lemma cycle_without_events_witness :
  @__send_data_to_logzio DemoMore.libs (DemoMore.always (Response 200 "no_events"))
    (Demo.buffering None) 1 1 Demo.fresh_api [] ["kept line"]
  = @mkCycle (Demo.buffering None) Demo.fresh_api [Demo.first_url] ["kept line"]
      false [] false (Ok tt).
Proof.
  refine (proj2 (proj2 (proj2 (@cycle_without_events DemoMore.libs
            (DemoMore.always (Response 200 "no_events")) (Demo.buffering None)
            1 1 Demo.fresh_api [] [] (JStr (AuthApi._build_api_url Demo.fresh_api)) 0 []
            (mkPage JNull (JArr []) 0) ["kept line"]
            (follows_nil Demo.fresh_api [] _ 0) eq_refl eq_refl eq_refl _ _))) eq_refl);
    cbn; lia.
Defined.

End ApisManagerMore.

(* ===================================================================== *)
(** * More on the token provider                                          *)
(* ===================================================================== *)

Module DockerHubMore.
Import DockerHub Reference Observations.

Section Facts.
Context {issuer : Issuer}.

Lemma refresh_cases self w :
  let '(r, self', w') := refresh self w in
  posts w' = S (posts w) /\
  ((r = Ok JNull /\ self' = self) \/
   (r = Raise AttributeError /\ self' = self) \/
   (r = Raise OverflowError /\
      representable
        (datetime_now (clock_reads w) + minutes (refresh_token_interval self)) = false) \/
   (exists expiry, r = Ok (_jwt_token self') /\ _token_expiry self' = Some expiry /\
      refresh_token_interval self' = refresh_token_interval self /\
      expiry = datetime_now (clock_reads w) + minutes (refresh_token_interval self) /\
      clock_reads w' = S (clock_reads w))).
Proof.
  unfold refresh.
  destruct (requests_post _ _ _) as [|st body];
    [split; [reflexivity | left; split; reflexivity]|].
  destruct ((400 <=? st) && (st <? 600));
    [split; [reflexivity | left; split; reflexivity]|].
  destruct body as [[| | | | |fields]|];
    try (split; [reflexivity | right; left; split; reflexivity]).
  - cbv zeta. cbn [clock_reads post_made].
    destruct (representable _) eqn:Er.
    + split; [reflexivity|]. right. right. right. eexists. repeat split.
    + split; [reflexivity|]. right. right. left. split; reflexivity.
  - split; [reflexivity | left; split; reflexivity].
Qed.

Lemma interval_fits_same self self' :
  refresh_token_interval self' = refresh_token_interval self ->
  interval_fits self -> interval_fits self'.
Proof. intros E H k. rewrite E. apply H. Qed.

(** One call on a consistent provider. *)
Lemma call_consistent self w :
  cache_consistent self -> interval_fits self ->
  let '(r, self', w') := _get_jwt_token self w in
  (r = Raise AttributeError \/ exists v, r = Ok v) /\
  (posts w' <= S (posts w))%nat /\ (posts w <= posts w')%nat /\
  cache_consistent self' /\ interval_fits self'.
Proof.
  intros Hc Hfit. unfold _get_jwt_token.
  assert (Hr : forall w0, posts w0 = posts w ->
             let '(r, self', w') := refresh self w0 in
             (r = Raise AttributeError \/ exists v, r = Ok v) /\
             (posts w' <= S (posts w))%nat /\ (posts w <= posts w')%nat /\
             cache_consistent self' /\ interval_fits self').
  { intros w0 Hw0. pose proof (refresh_cases self w0) as H.
    destruct (refresh self w0) as [[r self'] w'].
    destruct H as [Hp [[-> ->] | [[-> ->] | [[_ Hover] | (expiry & -> & He & Hi & _)]]]].
    - repeat split; try lia; try assumption; eauto.
    - repeat split; try lia; try assumption; eauto.
    - rewrite (Hfit (clock_reads w0)) in Hover. discriminate Hover.
    - split; [eauto|]. split; [lia|]. split; [lia|]. split.
      + intros _. rewrite He. discriminate.
      + exact (interval_fits_same self self' Hi Hfit). }
  destruct (truthy (_jwt_token self)) eqn:Ht.
  - destruct (_token_expiry self) as [expiry|] eqn:He; [|exfalso; exact (Hc Ht He)].
    destruct (datetime_now (clock_reads w) <? expiry).
    + repeat split; cbn; try lia; eauto.
    + apply Hr. reflexivity.
  - apply Hr. reflexivity.
Qed.

(** X19: starting from a provider whose cached token, if any, has an
    expiry (as the new provider, which has neither), and whose refresh
    interval can be added to every reading of the clock without leaving
    the range of [datetime], any number of calls of [_get_jwt_token] keeps
    it so: no call fails on the comparison with a missing expiry; a call
    returns a value or lets through the [AttributeError] of a response
    body that is not a dict, and makes at most one POST. *)
Theorem token_calls_are_safe (n : nat) (self : t) (w : World) :
  cache_consistent self ->
  interval_fits self ->
  Forall (fun r => r = Raise AttributeError \/ exists v, r = Ok v)
    (fst (fst (token_calls n self w))) /\
  (posts (snd (token_calls n self w)) <= posts w + n)%nat /\
  cache_consistent (snd (fst (token_calls n self w))).
Proof.
  revert self w. induction n as [|n IH]; intros self w Hc Hfit; cbn [token_calls].
  - cbn. repeat split; [constructor | lia | exact Hc].
  - pose proof (call_consistent self w Hc Hfit) as H1.
    destruct (_get_jwt_token self w) as [[r self1] w1].
    destruct H1 as (Hr & Hp & _ & Hc1 & Hfit1).
    specialize (IH self1 w1 Hc1 Hfit1).
    destruct (token_calls n self1 w1) as [[rs self2] w2]. cbn in *.
    destruct IH as (Hrs & Hp2 & Hc2).
    repeat split; [constructor; assumption | lia | exact Hc2].
Qed.

(** X20: a response that is accepted but carries no token (or an empty
    one) is stored like any other when the expiry can be computed (the
    refresh interval added to the clock is a [datetime]), yet never
    reused: the call returns that value, and the next call makes a POST
    again whatever the clock shows. *)
Theorem missing_token_is_not_cached (self : t) (w : World) (status : Z)
    (fields : list (string * json)) :
  cache_unusable self (datetime_now (clock_reads w)) ->
  interval_fits self ->
  requests_post (posts w) (dockerhub_user self) (dockerhub_token self)
  = PostResponse status (Some (JObj fields)) ->
  ~ 400 <= status < 600 ->
  truthy (dict_get "token" fields) = false ->
  exists self1 w1,
    _get_jwt_token self w = (Ok (dict_get "token" fields), self1, w1) /\
    _jwt_token self1 = dict_get "token" fields /\
    forall w2, _get_jwt_token self1 w2 = refresh self1 w2 /\
               posts (snd (_get_jwt_token self1 w2)) = S (posts w2).
Proof.
  intros Hc Hfit Hp Hs Ht.
  rewrite (DockerHubFacts.unusable_refresh self w Hc).
  assert (Hp' : requests_post (posts (if truthy (_jwt_token self) then clock_read w else w))
                  (dockerhub_user self) (dockerhub_token self)
                = PostResponse status (Some (JObj fields)))
    by (destruct (truthy (_jwt_token self)); exact Hp).
  rewrite (DockerHubFacts.refresh_success self _ status fields Hp' Hs (Hfit _)).
  eexists _, _. split; [reflexivity|]. split; [reflexivity|].
  intros w2. unfold _get_jwt_token at 1 2. cbn [_jwt_token]. rewrite Ht.
  split; [reflexivity | apply DockerHubFacts.refresh_posts].
Qed.

Lemma call_without_interval self w :
  refresh_token_interval self <= 0 ->
  (forall k, datetime_now k <= datetime_now (S k)) ->
  interval_fits self ->
  cache_consistent self -> expired_by self w ->
  let '(r, self', w') := _get_jwt_token self w in
  posts w' = S (posts w) /\ refresh_token_interval self' = refresh_token_interval self /\
  cache_consistent self' /\ expired_by self' w'.
Proof.
  intros Hi Hm Hfit Hc He.
  assert (Hr : forall w0, posts w0 = posts w -> expired_by self w0 ->
             let '(r, self', w') := refresh self w0 in
             posts w' = S (posts w) /\
             refresh_token_interval self' = refresh_token_interval self /\
             cache_consistent self' /\ expired_by self' w').
  { intros w0 Hw0 He0. pose proof (refresh_cases self w0) as H.
    assert (Hkeep : forall w1, clock_reads w1 = clock_reads w0 -> expired_by self w1)
      by (intros w1 E x Hx; rewrite E; exact (He0 x Hx)).
    unfold refresh in *.
    destruct (requests_post _ _ _) as [|st body].
    { split; [cbn; lia|]. split; [reflexivity|]. split; [exact Hc|].
      apply Hkeep. reflexivity. }
    destruct ((400 <=? st) && (st <? 600)).
    { split; [cbn; lia|]. split; [reflexivity|]. split; [exact Hc|].
      apply Hkeep. reflexivity. }
    destruct body as [[| | | | |fields]|];
      try (split; [cbn; lia|]; split; [reflexivity|]; split; [exact Hc|];
           apply Hkeep; reflexivity).
    cbv zeta. cbn [clock_reads post_made]. rewrite (Hfit (clock_reads w0)).
    split; [cbn; lia|]. split; [reflexivity|]. split.
    - intros _. cbn. discriminate.
    - intros x Hx. cbn in Hx. injection Hx as <-. cbn [clock_reads clock_read post_made].
      pose proof (Hm (clock_reads w0)). unfold minutes. nia. }
  unfold _get_jwt_token.
  destruct (truthy (_jwt_token self)) eqn:Ht.
  - destruct (_token_expiry self) as [expiry|] eqn:Ee; [|exfalso; exact (Hc Ht Ee)].
    pose proof (He expiry Ee) as Hle. apply Z.ltb_ge in Hle. rewrite Hle.
    apply Hr; [reflexivity|].
    intros x Hx. rewrite Ee in Hx. injection Hx as <-. cbn [clock_reads clock_read].
    apply Z.ltb_ge in Hle. pose proof (Hm (clock_reads w)). lia.
  - apply Hr; [reflexivity | exact He].
Qed.

(** X21: with a refresh interval of zero or less (not so far below zero
    that the clock minus it leaves the range of [datetime]) and a clock
    that does not run backwards, nothing is ever reused: each of [n] calls
    makes its own POST. *)
Theorem no_interval_no_reuse (n : nat) (self : t) (w : World) :
  refresh_token_interval self <= 0 ->
  (forall k, datetime_now k <= datetime_now (S k)) ->
  interval_fits self ->
  cache_consistent self ->
  (forall expiry, _token_expiry self = Some expiry ->
                  expiry <= datetime_now (clock_reads w)) ->
  posts (snd (token_calls n self w)) = (posts w + n)%nat.
Proof.
  intros Hi Hm. revert self w Hi.
  induction n as [|n IH]; intros self w Hi Hfit Hc He; cbn [token_calls].
  - cbn. lia.
  - pose proof (call_without_interval self w Hi Hm Hfit Hc He) as H1.
    destruct (_get_jwt_token self w) as [[r self1] w1].
    destruct H1 as (Hp & Hi1 & Hc1 & He1).
    assert (Hi' : refresh_token_interval self1 <= 0) by lia.
    specialize (IH self1 w1 Hi' (interval_fits_same self self1 Hi1 Hfit) Hc1 He1).
    destruct (token_calls n self1 w1) as [[rs self2] w2]. cbn in *. lia.
Qed.

(** X28: when the refresh interval added to the clock leaves the range of
    [datetime], a first call of [_get_jwt_token] that is answered with a
    token makes its POST, stores the token without an expiry and ends in
    [OverflowError]; every later call then fails with [TypeError] on
    comparing the clock with the missing expiry, and makes no POST. *)
Theorem overflowing_interval_disables_provider (self : t) (w : World) (status : Z)
    (fields : list (string * json)) :
  truthy (_jwt_token self) = false ->
  _token_expiry self = None ->
  requests_post (posts w) (dockerhub_user self) (dockerhub_token self)
  = PostResponse status (Some (JObj fields)) ->
  ~ 400 <= status < 600 ->
  truthy (dict_get "token" fields) = true ->
  representable (datetime_now (clock_reads w) + minutes (refresh_token_interval self))
  = false ->
  exists self1 w1,
    _get_jwt_token self w = (Raise OverflowError, self1, w1) /\
    _jwt_token self1 = dict_get "token" fields /\
    _token_expiry self1 = None /\
    posts w1 = S (posts w) /\
    forall w2, _get_jwt_token self1 w2 = (Raise TypeError, self1, clock_read w2).
Proof.
  intros Hf He Hp Hs Ht Hr.
  unfold _get_jwt_token at 1. rewrite Hf.
  rewrite (DockerHubFacts.refresh_overflow self w status fields Hp Hs Hr).
  eexists _, _. split; [reflexivity|]. split; [reflexivity|].
  split; [exact He|]. split; [reflexivity|].
  intros w2. unfold _get_jwt_token. cbn [_jwt_token _token_expiry].
  rewrite Ht, He. reflexivity.
Qed.

End Facts.

(** *** The request parameters *)

Import DockerHubParams.

Lemma count_char_app c a b :
  count_char c (a ++ b) = (count_char c a + count_char c b)%nat.
Proof. induction a as [|x a IH]; cbn; [reflexivity | rewrite IH; lia]. Qed.

Lemma contains_count c s :
  contains_char c s = negb (Nat.eqb (count_char c s) 0).
Proof.
  induction s as [|x s IH]; cbn; [reflexivity|].
  destruct (Ascii.eqb c x); cbn; [reflexivity | exact IH].
Qed.

(** X22: [_initialize_params] keeps the URL it finds as the beginning of
    the new one and joins the parameters with [&] when the URL has a [?]
    and with [?] when it has none: when the date has no [?], the new URL
    has exactly the question marks of the old one, or one if there was
    none.  Without days to go back the only parameter added is
    [page_size=100]. *)
Theorem initialize_params_question_mark (days_back_fetch : Z) (d url : string) :
  count_char "?"%char d = 0%nat ->
  (exists q, fst (_initialize_params days_back_fetch (Some d) url) = (url ++ q)%string) /\
  count_char "?"%char (fst (_initialize_params days_back_fetch (Some d) url))
  = Nat.max 1 (count_char "?"%char url) /\
  snd (_initialize_params days_back_fetch (Some d) url) = [] /\
  (days_back_fetch <= 0 ->
   fst (_initialize_params days_back_fetch (Some d) url)
   = (url ++ (if contains_char "?"%char url then "&" else "?") ++ "page_size=100")%string).
Proof.
  intros Hd. unfold _initialize_params.
  pose proof (contains_count "?"%char url) as Hc.
  destruct (days_back_fetch >? 0) eqn:E.
  - cbn [app map Reference.join fst snd].
    destruct (contains_char "?"%char url) eqn:C; cbn [fst snd].
    + repeat split.
      * eexists; reflexivity.
      * rewrite count_char_app. cbn. rewrite Hd.
        destruct (count_char "?"%char url); [discriminate Hc | lia].
      * intros H. apply Z.gtb_lt in E. lia.
    + repeat split.
      * eexists; reflexivity.
      * rewrite count_char_app. cbn. rewrite Hd.
        destruct (count_char "?"%char url); [reflexivity | discriminate Hc].
      * intros H. apply Z.gtb_lt in E. lia.
  - cbn [app map Reference.join fst snd].
    destruct (contains_char "?"%char url) eqn:C; cbn [fst snd].
    + repeat split.
      * eexists; reflexivity.
      * rewrite count_char_app. cbn.
        destruct (count_char "?"%char url); [discriminate Hc | lia].
    + repeat split.
      * eexists; reflexivity.
      * rewrite count_char_app. cbn.
        destruct (count_char "?"%char url); [reflexivity | discriminate Hc].
Qed.

(** Two calls with an interval of zero minutes. *)
Lemma no_interval_no_reuse_witness :
  posts (snd (@token_calls DemoMore.standing_clock 2 DemoMore.impatient_provider Demo.quiet))
  = 2%nat.
Proof.
  refine (@no_interval_no_reuse DemoMore.standing_clock 2 DemoMore.impatient_provider
            Demo.quiet _ _ _ _ _).
  - cbn. lia.
  - intros k. cbn. destruct k as [|k]; [|destruct k]; cbn; lia.
  - intros k. destruct k as [|k]; [|destruct k]; reflexivity.
  - intros H. discriminate H.
  - intros expiry H. discriminate H.
Defined.

(** The audit-log URL without and with a query of its own. *)
Lemma initialize_params_question_mark_witness :
  fst (_initialize_params 3 (Some "2024-01-01T00:00:00.000000Z")
         "https://hub.docker.com/v2/auditlogs/org")
  = "https://hub.docker.com/v2/auditlogs/org?page_size=100&from=2024-01-01T00:00:00.000000Z"
  /\ count_char "?"%char
       (fst (_initialize_params (-1) (Some "2024-01-01T00:00:00.000000Z")
               "https://hub.docker.com/v2/auditlogs/org?action=repo.tag.push"))
     = 1%nat.
Proof.
  split.
  - reflexivity.
  - exact (proj1 (proj2 (initialize_params_question_mark (-1)
             "2024-01-01T00:00:00.000000Z"
             "https://hub.docker.com/v2/auditlogs/org?action=repo.tag.push" eq_refl))).
Defined.

(** A provider that starts with nothing cached, called three times. *)
Lemma token_calls_are_safe_witness :
  Forall (fun r => r = Raise AttributeError \/ exists v, r = Ok v)
    (fst (fst (@token_calls DemoMore.granting
                 3 Demo.new_provider Demo.quiet))) /\
  (posts (snd (@token_calls DemoMore.granting
                 3 Demo.new_provider Demo.quiet)) <= 0 + 3)%nat /\
  cache_consistent
    (snd (fst (@token_calls DemoMore.granting
                 3 Demo.new_provider Demo.quiet))).
Proof.
  refine (@token_calls_are_safe DemoMore.granting
            3 Demo.new_provider Demo.quiet _ _).
  - intros H. discriminate H.
  - intros k. do 3 (destruct k as [|k]; [reflexivity|]). destruct k; reflexivity.
Defined.

(** A 200 response whose body has no token. *)
Lemma missing_token_is_not_cached_witness :
  exists self1 w1,
    @_get_jwt_token DemoMore.tokenless
      Demo.new_provider Demo.quiet = (Ok JNull, self1, w1) /\
    _jwt_token self1 = JNull /\
    forall w2,
      @_get_jwt_token DemoMore.tokenless
        self1 w2
      = @refresh DemoMore.tokenless self1 w2 /\
      posts (snd (@_get_jwt_token
                    DemoMore.tokenless
                    self1 w2)) = S (posts w2).
Proof.
  refine (@missing_token_is_not_cached
            DemoMore.tokenless
            Demo.new_provider Demo.quiet 200 [] _ _ eq_refl _ eq_refl).
  - left. reflexivity.
  - intros k. destruct k as [|k]; [reflexivity|]. destruct k; reflexivity.
  - lia.
Defined.

(** An interval of 10000000000 minutes on a provider with nothing cached. *)
Lemma overflowing_interval_disables_provider_witness :
  exists self1 w1,
    @_get_jwt_token DemoMore.renewing DemoMore.far_new_provider Demo.quiet
    = (Raise OverflowError, self1, w1) /\
    _jwt_token self1 = JStr "new" /\
    _token_expiry self1 = None /\
    posts w1 = 1%nat /\
    forall w2, @_get_jwt_token DemoMore.renewing self1 w2
               = (Raise TypeError, self1, clock_read w2).
Proof.
  refine (@overflowing_interval_disables_provider DemoMore.renewing
            DemoMore.far_new_provider Demo.quiet 200 [("token", JStr "new")]
            eq_refl eq_refl eq_refl _ eq_refl eq_refl).
  lia.
Defined.

End DockerHubMore.

(* ===================================================================== *)
(** * Reading the configuration                                           *)
(* ===================================================================== *)

Module ApisManagerConfigFacts.
Import ApisManagerConfig ConfigObservations.

Lemma logzio_data_found config_data url token logged :
  __get_logzio_data config_data = (Val (url, token), logged) ->
  is_None url = false -> is_None token = false ->
  logged = [] /\
  exists logzio, getitem config_data "logzio" = Val logzio /\
                 getitem logzio "url" = Val url /\ getitem logzio "token" = Val token.
Proof.
  unfold __get_logzio_data.
  destruct (getitem config_data "logzio") as [logzio|[]] eqn:El; try discriminate.
  - destruct (getitem logzio "url") as [u|[]] eqn:Eu; try discriminate.
    + destruct (getitem logzio "token") as [t|[]] eqn:Et; try discriminate.
      * intros H _ _; injection H as <- <- <-. split; [reflexivity|].
        exists logzio. auto.
      * intros H _ Ht; injection H as <- <- <-. discriminate Ht.
    + intros H Hu _; injection H as <- <- <-. discriminate Hu.
  - intros H Hu _; injection H as <- <- <-. discriminate Hu.
Qed.

Lemma time_interval_found config_data interval logged :
  __get_time_interval config_data = (interval, logged) ->
  is_zero interval = false ->
  logged = [] /\
  exists settings minutes,
    getitem config_data "settings" = Val settings /\
    getitem settings "time_interval" = Val minutes /\
    times_60 minutes = Val interval.
Proof.
  unfold __get_time_interval.
  destruct (getitem config_data "settings") as [settings|[]] eqn:Es;
    try (intros H Hz; injection H as <- <-; discriminate Hz).
  destruct (getitem settings "time_interval") as [minutes|[]] eqn:Em;
    try (intros H Hz; injection H as <- <-; discriminate Hz).
  destruct (times_60 minutes) as [v|[]] eqn:E;
    try (intros H Hz; injection H as <- <-; discriminate Hz).
  intros H _; injection H as <- <-. split; [reflexivity|].
  exists settings, minutes. auto.
Qed.

Lemma api_data_cases api_data :
  (exists logged, __get_api_data api_data = (Exc ConfigTypeError, logged)) \/
  (exists ty id key,
      __get_api_data api_data = (Val (ty, id, key), []) /\
      getitem api_data "type" = Val ty /\ getitem api_data "id" = Val id /\
      getitem api_data "key" = Val key) \/
  (exists ty id,
      __get_api_data api_data = (Val (ty, id, JNull), [ApiDataInvalid])).
Proof.
  unfold __get_api_data.
  destruct (getitem api_data "type") as [ty|[]];
    [| right; right; eexists _, _; reflexivity | left; eexists; reflexivity].
  destruct (getitem api_data "id") as [id|[]];
    [| right; right; eexists _, _; reflexivity | left; eexists; reflexivity].
  destruct (getitem api_data "key") as [key|[]];
    [| right; right; eexists _, _; reflexivity | left; eexists; reflexivity].
  right. left. exists ty, id, key. repeat split.
Qed.

Lemma auth_api_built entry a logged :
  __get_auth_api entry = (Val (Some a), logged) -> logged = [] /\ accepted entry a.
Proof.
  unfold __get_auth_api.
  destruct (api_data_cases entry)
    as [[lg ->] | [(ty & id & key & -> & Hty & Hid & Hkey) | (ty & id & ->)]].
  - discriminate.
  - destruct (is_None ty) eqn:Nty; cbn [orb]; [discriminate|].
    destruct (is_None id) eqn:Nid; cbn [orb]; [discriminate|].
    destruct (is_None key) eqn:Nkey; cbn [orb]; [discriminate|].
    destruct (__get_api_filters entry) as [[fs|]|e] eqn:Ef; try discriminate.
    destruct (is_str "cisco_secure_x" ty) eqn:Ec.
    + intros H; injection H as <- <-. split; [reflexivity|].
      exists ty, id, key, fs. repeat split; assumption.
    + destruct (is_str "general" ty); [|discriminate].
      destruct (__get_general_type_auth_api_data entry) as [[[[u n] d]|e] lg'];
        [|discriminate].
      destruct (is_None u || is_None n || is_None d); discriminate.
  - rewrite !orb_true_r. discriminate.
Qed.

Lemma add_loop_built : forall entries apis0 apis' logged,
  add_loop entries apis0 = (Val true, apis', logged) ->
  logged = [] /\ exists built, apis' = (apis0 ++ built)%list /\ Forall2 accepted entries built.
Proof.
  induction entries as [|entry rest IH]; intros apis0 apis' logged; cbn [add_loop].
  - intros H; injection H as <- <-. split; [reflexivity|].
    exists []. split; [now rewrite app_nil_r | constructor].
  - destruct (__get_auth_api entry) as [[[a|]|e] lg] eqn:E; try discriminate.
    destruct (auth_api_built entry a lg E) as [-> Ha].
    destruct (add_loop rest (apis0 ++ [a])) as [[r apis2] lg2] eqn:E2.
    intros H; injection H as -> <- <-.
    destruct (IH _ _ _ E2) as [-> (built & -> & Hb)].
    split; [reflexivity|].
    exists (a :: built). split; [now rewrite <- app_assoc | constructor; assumption].
Qed.

Lemma add_auth_apis_built config_data apis0 apis' logged :
  __add_auth_apis config_data apis0 = (Val true, apis', logged) ->
  logged = [] /\
  exists entries built,
    auth_entries config_data entries /\
    apis' = (apis0 ++ built)%list /\ Forall2 accepted entries built.
Proof.
  unfold __add_auth_apis, auth_entries.
  destruct (contains "auth_apis" config_data) as [[]|e] eqn:Ec; try discriminate.
  - destruct (getitem config_data "auth_apis") as [v|e] eqn:Eg; try discriminate.
    destruct (iterate v) as [entries|e] eqn:Ei; try discriminate.
    intros H. destruct (add_loop_built _ _ _ _ H) as [-> (built & -> & Hb)].
    split; [reflexivity|]. exists entries, built. repeat split; try assumption.
    right. split; [reflexivity|]. exists v. auto.
  - intros H; injection H as <- <-. split; [reflexivity|].
    exists [], []. repeat split; [left; auto | now rewrite app_nil_r | constructor].
Qed.

(** X23: the configuration is accepted only when it is complete:
    [__read_data_from_config] on a new manager returns [True] only if
    [logzio] has a [url] and a [token] that are not [None], [settings] has
    a [time_interval] whose sixtyfold is not 0, and every entry of
    [auth_apis] is of type [cisco_secure_x] with id, key and well-formed
    filters; the manager then holds one fetcher per entry, in order, the
    shipper data and the interval, and nothing was logged. *)
Theorem accepted_config_is_complete (config_data : json) (m : manager)
    (logged : list config_error) :
  __read_data_from_config new_manager config_data = (Val true, m, logged) ->
  logged = [] /\
  exists url token entries,
    well_formed config_data url token (time_interval m) entries (apis m) /\
    logzio_shipper m = Some (url, token) /\
    List.length (apis m) = List.length entries.
Proof.
  unfold __read_data_from_config.
  destruct (__get_logzio_data config_data) as [[[url token]|e] lg1] eqn:E1; [|discriminate].
  destruct (is_None url) eqn:Nu; cbn [orb]; [discriminate|].
  destruct (is_None token) eqn:Nt; cbn [orb]; [discriminate|].
  destruct (logzio_data_found _ _ _ _ E1 Nu Nt) as [-> Hl].
  destruct (__get_time_interval config_data) as [interval lg2] eqn:E2.
  cbn [apis logzio_shipper time_interval new_manager].
  destruct (is_zero interval) eqn:Z; [discriminate|].
  destruct (time_interval_found _ _ _ E2 Z) as [-> Hi].
  destruct (__add_auth_apis config_data []) as [[[ok|e] apis'] lg3] eqn:E3; [|discriminate].
  intros H; injection H as -> <- <-.
  destruct (add_auth_apis_built _ _ _ _ E3) as [-> (entries & built & He & -> & Hb)].
  split; [reflexivity|]. cbn.
  exists url, token, entries. repeat split; try assumption.
  symmetry. exact (Forall2_length Hb).
Qed.

Lemma auth_api_accepted entry a :
  accepted entry a -> __get_auth_api entry = (Val (Some a), []).
Proof.
  intros (ty & id & key & fs & Hty & Hc & Hid & Nid & Hkey & Nkey & Hf & ->).
  unfold __get_auth_api, __get_api_data. rewrite Hty, Hid, Hkey.
  assert (Nty : is_None ty = false) by (destruct ty; try discriminate Hc; reflexivity).
  rewrite Nty, Nid, Nkey. cbn [orb]. rewrite Hf, Hc. reflexivity.
Qed.

Lemma add_loop_accepted : forall entries built apis0,
  Forall2 accepted entries built ->
  add_loop entries apis0 = (Val true, (apis0 ++ built)%list, []).
Proof.
  induction entries as [|entry rest IH]; intros built apis0 H; inversion H; subst.
  - cbn. now rewrite app_nil_r.
  - cbn [add_loop]. rewrite (auth_api_accepted _ _ H2).
    rewrite (IH _ (apis0 ++ [y])%list H4), <- app_assoc. reflexivity.
Qed.

(** X24: and a complete configuration is accepted: when [logzio],
    [settings] and the entries of [auth_apis] are as X23 says,
    [__read_data_from_config] returns [True] without logging, and the
    manager holds the fetchers built from the entries, the shipper data
    and the interval. *)
Theorem complete_config_is_accepted (config_data url token interval : json)
    (entries : list json) (built : list api_object) :
  well_formed config_data url token interval entries built ->
  __read_data_from_config new_manager config_data
  = (Val true, mkManager built (Some (url, token)) interval, []).
Proof.
  intros ((logzio & Hl & Hu & Ht) & Nu & Nt & (settings & minutes & Hs & Hm & H60)
          & Z & He & Hb).
  unfold __read_data_from_config, __get_logzio_data, __get_time_interval.
  rewrite Hl, Hu, Ht, Nu, Nt. cbn [orb]. rewrite Hs, Hm, H60. cbn [apis logzio_shipper
    time_interval new_manager]. rewrite Z.
  unfold __add_auth_apis.
  destruct He as [[Hc ->] | (Hc & v & Hg & Hi)].
  - rewrite Hc. inversion Hb; subst. reflexivity.
  - rewrite Hc, Hg, Hi. rewrite (add_loop_accepted entries built [] Hb). reflexivity.
Qed.

(** *** What is never raised *)

Lemma logzio_data_no_key_error config_data :
  fst (__get_logzio_data config_data) <> Exc KeyError.
Proof.
  unfold __get_logzio_data.
  destruct (getitem config_data "logzio") as [logzio|[]]; try discriminate.
  destruct (getitem logzio "url") as [u|[]]; try discriminate.
  destruct (getitem logzio "token") as [t|[]]; discriminate.
Qed.

Lemma contains_no_key_error k d : contains k d <> Exc KeyError.
Proof. destruct d; discriminate. Qed.

Lemma iterate_no_key_error v : iterate v <> Exc KeyError.
Proof. destruct v; discriminate. Qed.

Lemma filters_loop_no_key_error : forall items acc,
  filters_loop items acc <> Exc KeyError.
Proof.
  induction items as [|f rest IH]; intros acc; cbn [filters_loop]; [discriminate|].
  pose proof (contains_no_key_error "key" f) as H1.
  pose proof (contains_no_key_error "value" f) as H2.
  destruct (contains "key" f) as [[]|[]]; try discriminate; try contradiction.
  destruct (contains "value" f) as [[]|[]]; try discriminate; try contradiction.
  apply IH.
Qed.

Lemma api_filters_key_error api_data :
  __get_api_filters api_data = Exc KeyError ->
  contains "filters" api_data = Val true /\ getitem api_data "filters" = Exc KeyError.
Proof.
  unfold __get_api_filters.
  pose proof (contains_no_key_error "filters" api_data) as H1.
  destruct (contains "filters" api_data) as [[]|[]]; try discriminate; try contradiction.
  destruct (getitem api_data "filters") as [v|[]] eqn:E.
  - pose proof (iterate_no_key_error v) as H2.
    destruct (iterate v) as [items|[]]; try contradiction; try discriminate.
    intros H. exfalso. exact (filters_loop_no_key_error _ _ H).
  - auto.
  - discriminate.
Qed.

Lemma contains_getitem k d :
  contains k d = Val true -> getitem d k <> Exc KeyError.
Proof.
  destruct d; cbn; try discriminate.
  destruct (Demo.dict_find k fields); discriminate.
Qed.

Lemma auth_api_no_key_error entry :
  fst (__get_auth_api entry) <> Exc KeyError.
Proof.
  unfold __get_auth_api.
  destruct (api_data_cases entry)
    as [[lg ->] | [(ty & id & key & -> & _) | (ty & id & ->)]]; try discriminate.
  - destruct (is_None ty || is_None id || is_None key); [discriminate|].
    destruct (__get_api_filters entry) as [[fs|]|[]] eqn:Ef; try discriminate.
    + destruct (is_str "cisco_secure_x" ty); [discriminate|].
      destruct (is_str "general" ty); [|discriminate].
      unfold __get_general_type_auth_api_data.
      repeat match goal with
      | |- context [getitem ?a ?b] => destruct (getitem a b) as [?|[]]
      end;
      repeat match goal with
      | |- context [if ?c then _ else _] => destruct c
      end; discriminate.
    + destruct (api_filters_key_error entry Ef) as [Hc Hg].
      exfalso. exact (contains_getitem _ _ Hc Hg).
  - rewrite !orb_true_r. discriminate.
Qed.

Lemma add_loop_no_key_error : forall entries apis0,
  fst (fst (add_loop entries apis0)) <> Exc KeyError.
Proof.
  induction entries as [|entry rest IH]; intros apis0; cbn [add_loop]; [discriminate|].
  pose proof (auth_api_no_key_error entry) as H.
  destruct (__get_auth_api entry) as [[[a|]|[]] lg]; cbn in *; try discriminate;
    try contradiction.
  specialize (IH (apis0 ++ [a])%list).
  destruct (add_loop rest (apis0 ++ [a])) as [[r apis2] lg2]. exact IH.
Qed.

(** X25: no missing key makes the reading of the configuration fail with
    an exception: [__read_data_from_config] returns a boolean or raises a
    [TypeError] (a value that is not of the expected kind), never a
    [KeyError]. *)
Theorem read_never_raises_key_error (self : manager) (config_data : json) :
  fst (fst (__read_data_from_config self config_data)) <> Exc KeyError.
Proof.
  unfold __read_data_from_config.
  pose proof (logzio_data_no_key_error config_data) as H1.
  destruct (__get_logzio_data config_data) as [[[url token]|[]] lg1]; cbn in *;
    try discriminate; try contradiction.
  destruct (is_None url || is_None token); [discriminate|].
  destruct (__get_time_interval config_data) as [interval lg2].
  destruct (is_zero interval); [discriminate|].
  cbn [apis logzio_shipper time_interval].
  unfold __add_auth_apis.
  pose proof (contains_no_key_error "auth_apis" config_data) as H2.
  destruct (contains "auth_apis" config_data) as [[]|[]] eqn:Ec; try discriminate;
    try contradiction.
  pose proof (contains_getitem _ _ Ec) as H3.
  destruct (getitem config_data "auth_apis") as [v|[]]; try discriminate;
    try (exfalso; apply H3; reflexivity).
  pose proof (iterate_no_key_error v) as H4.
  destruct (iterate v) as [entries|[]]; try discriminate; try contradiction.
  pose proof (add_loop_no_key_error entries (apis self)) as H5.
  destruct (add_loop entries (apis self)) as [[[ok|[]] apis'] lg3]; cbn in *;
    try discriminate; try contradiction.
Qed.


(** X27: the filters of an entry are taken as they are: when
    [__get_api_filters] returns a list, it is the empty list for an entry
    without [filters], and otherwise the items of [filters] in their
    order, each of which has a [key] and a [value]. *)
Theorem api_filters_as_configured (api_data : json) (api_filters : list json) :
  __get_api_filters api_data = Val (Some api_filters) ->
  (contains "filters" api_data = Val false /\ api_filters = []) \/
  (exists filters,
      getitem api_data "filters" = Val filters /\
      iterate filters = Val api_filters /\
      Forall (fun f => contains "key" f = Val true /\ contains "value" f = Val true)
        api_filters).
Proof.
  unfold __get_api_filters.
  destruct (contains "filters" api_data) as [[]|e]; try discriminate.
  - destruct (getitem api_data "filters") as [v|e]; try discriminate.
    destruct (iterate v) as [items|e] eqn:Ei; try discriminate.
    intros H. right. exists v. split; [reflexivity|].
    assert (Hloop : forall items acc out,
               filters_loop items acc = Val (Some out) ->
               out = (acc ++ items)%list /\
               Forall (fun f => contains "key" f = Val true /\
                                contains "value" f = Val true) items).
    { clear. induction items as [|f rest IH]; intros acc out; cbn [filters_loop].
      - intros H; injection H as <-. split; [now rewrite app_nil_r | constructor].
      - destruct (contains "key" f) as [[]|e] eqn:Ek; try discriminate.
        destruct (contains "value" f) as [[]|e] eqn:Ev; try discriminate.
        intros H. destruct (IH _ _ H) as [-> Hall].
        split; [now rewrite <- app_assoc | constructor; auto]. }
    destruct (Hloop items [] api_filters H) as [-> Hall]. cbn. split; assumption.
  - intros H; injection H as <-. left. auto.
Qed.

(** The example configuration with one Cisco entry. *)
Lemma accepted_config_is_complete_witness :
  @nil config_error = [] /\
  exists url token entries,
    well_formed (DemoConfig.config [DemoConfig.cisco_entry]) url token (JNum 300) entries
      [CiscoSecureX (JStr "client") (JStr "secret")
         [JObj [("key", JStr "limit"); ("value", JNum 100)]]] /\
    Some (JStr "https://listener.logz.io:8071", JStr "shipping-token") = Some (url, token) /\
    1%nat = List.length entries.
Proof.
  exact (accepted_config_is_complete (DemoConfig.config [DemoConfig.cisco_entry])
           (mkManager
              [CiscoSecureX (JStr "client") (JStr "secret")
                 [JObj [("key", JStr "limit"); ("value", JNum 100)]]]
              (Some (JStr "https://listener.logz.io:8071", JStr "shipping-token"))
              (JNum 300))
           [] eq_refl).
Defined.

(** The same configuration, read. *)
Lemma complete_config_is_accepted_witness :
  __read_data_from_config new_manager (DemoConfig.config [DemoConfig.cisco_entry])
  = (Val true,
     mkManager
       [CiscoSecureX (JStr "client") (JStr "secret")
          [JObj [("key", JStr "limit"); ("value", JNum 100)]]]
       (Some (JStr "https://listener.logz.io:8071", JStr "shipping-token"))
       (JNum 300), []).
Proof.
  apply (complete_config_is_accepted _ _ _ _ [DemoConfig.cisco_entry]).
  repeat split; try reflexivity.
  - eexists. repeat split; reflexivity.
  - eexists _, _. repeat split; reflexivity.
  - right. split; [reflexivity|]. eexists. split; reflexivity.
  - constructor; [|constructor].
    eexists _, _, _, _. repeat split; reflexivity.
Defined.


(** The filters of the Cisco entry. *)
Lemma api_filters_as_configured_witness :
  (contains "filters" DemoConfig.cisco_entry = Val false /\
   [JObj [("key", JStr "limit"); ("value", JNum 100)]] = []) \/
  (exists filters,
      getitem DemoConfig.cisco_entry "filters" = Val filters /\
      iterate filters = Val [JObj [("key", JStr "limit"); ("value", JNum 100)]] /\
      Forall (fun f => contains "key" f = Val true /\ contains "value" f = Val true)
        [JObj [("key", JStr "limit"); ("value", JNum 100)]]).
Proof.
  exact (api_filters_as_configured DemoConfig.cisco_entry _ eq_refl).
Defined.

End ApisManagerConfigFacts.
